(** * FlowBridge AI engine: yield aggregation, cache and persistence

    A shallow embedding of three modules of the data layer,

    - [data/collectors/yield_scanner.py]  (class [YieldScanner]),
    - [data/storage/cache.py]             (class [CacheManager]),
    - [data/storage/database.py]          (class [DatabaseManager]),

    followed by the properties proved about them.

    Conventions of the embedding.

    - Python numbers read from JSON payloads are exact rationals ([Q]):
      every finite [int] and [float] is one, and Python compares an [int]
      with a [float] exactly.  The rounding of a float product is not
      modelled; no statement below depends on it.
    - A JSON object read with [d.get(k, default)] is a record whose field
      [k] is an [option]: [None] is the absent key.  Payloads follow the
      providers' schemas: a field that is present has the type the code
      expects.
    - Python [str] is [string], the UTF-8 bytes of the text; the byte-wise
      order is the order of code points that Python uses.  [lower] acts
      on the ASCII letters.  [str.upper()] and [str.lower()] of the cache
      helpers, which take any text, are parameters.
    - Code that can raise returns a [result]; [try ... except Exception]
      is written with [try_except].
    - [asyncio], Redis and PostgreSQL are not part of the repository.
      They are modelled by what the code relies on: [gather] answers in
      the order of the tasks; a coroutine can be suspended at each await
      of a store command and nowhere else; SETEX, GET, EXISTS and DEL act
      atomically on a map of keys with expiry times; INSERT ... ON
      CONFLICT updates the row that collides under the unique index,
      after the values have been converted to the declared types of the
      columns ([DECIMAL(p, s)], [VARCHAR(n)], [INTEGER], [JSONB]). *)

From Stdlib Require Import ZArith QArith List String Ascii Bool Permutation Sorted Lia.
From stdpp Require Import base option list gmap strings.

#[local] Set Warnings "-register-all".

Close Scope Q_scope.
Local Open Scope Z_scope.
Local Open Scope string_scope.
Local Open Scope list_scope.

(** ** Exceptions and results *)

(** The exception classes that occur in the three modules.  All of them
    derive from [Exception], so a handler [except Exception] catches each
    one.  [JSONDecodeError] and [UnicodeDecodeError] both derive from
    [ValueError], and neither derives from the other.  [DataError] is
    what the database driver raises for a value that a column does not
    take; it only meets handlers of [Exception]. *)
Inductive exn : Type :=
  | ConnectionError
  | TimeoutError
  | ResponseError
  | JSONDecodeError
  | UnicodeDecodeError
  | PickleError
  | TypeError
  | ValueError
  | KeyError
  | AttributeError
  | DataError.

Inductive result (A : Type) : Type :=
  | Ok (a : A)
  | Raise (e : exn).
Arguments Ok {A} a.
Arguments Raise {A} e.

Definition exn_eqb (a b : exn) : bool :=
  match a, b with
  | ConnectionError, ConnectionError | TimeoutError, TimeoutError
  | ResponseError, ResponseError | JSONDecodeError, JSONDecodeError
  | UnicodeDecodeError, UnicodeDecodeError | PickleError, PickleError
  | TypeError, TypeError | ValueError, ValueError | KeyError, KeyError
  | AttributeError, AttributeError | DataError, DataError => true
  | _, _ => false
  end.

(** [except (C1, C2, ...)] among the classes above: the only subclass
    relation between modelled classes has [ValueError] as the parent. *)
Definition isinstance (e : exn) (classes : list exn) : bool :=
  existsb (fun c =>
    exn_eqb e c ||
    match c, e with
    | ValueError, (JSONDecodeError | UnicodeDecodeError) => true
    | _, _ => false
    end) classes.

(** ** Python built-ins used by the code *)

Definition py_ge (a b : Q) : bool := Qle_bool b a.
Definition py_gt (a b : Q) : bool := negb (Qle_bool a b).
Definition py_lt (a b : Q) : bool := negb (Qle_bool b a).

(** [bool(x)] of a number. *)
Definition truthy (a : Q) : bool := negb (Qeq_bool a 0%Q).

(** [str.lower()] on ASCII letters. *)
Definition lower_ascii (c : ascii) : ascii :=
  let n := N_of_ascii c in
  if ((65 <=? n) && (n <=? 90))%N then ascii_of_N (n + 32) else c.

Fixpoint lower (s : string) : string :=
  match s with
  | EmptyString => EmptyString
  | String c r => String (lower_ascii c) (lower r)
  end.

(** [sub in s] for strings. *)
Fixpoint contains (sub s : string) : bool :=
  String.prefix sub s ||
  match s with
  | EmptyString => false
  | String _ r => contains sub r
  end.

(** [s.split(sep)] for a one-character separator. *)
Fixpoint split (sep : ascii) (s : string) : list string :=
  match s with
  | EmptyString => [EmptyString]
  | String c r =>
      if Ascii.eqb c sep then EmptyString :: split sep r
      else match split sep r with
           | [] => [String c EmptyString]
           | w :: ws => String c w :: ws
           end
  end.

(** [s.replace(old, new)] for [old] not empty: the occurrences of [old]
    are replaced from left to right, without overlap.  [skip] counts the
    characters of an occurrence still to be dropped. *)
Fixpoint replace_from (old new : string) (skip : nat) (s : string) : string :=
  match s with
  | EmptyString => EmptyString
  | String c r =>
      match skip with
      | S k => replace_from old new k r
      | O =>
          if String.prefix old s
          then String.append new (replace_from old new (String.length old - 1) r)
          else String c (replace_from old new 0 r)
      end
  end.

Definition replace (old new s : string) : string := replace_from old new 0 s.

(** [x in xs] for a list of strings. *)
Definition str_in (x : string) (xs : list string) : bool :=
  existsb (String.eqb x) xs.

(** [sorted(xs, key=key, reverse=True)].  CPython reverses the list, runs
    its stable sort on the keys with [<] and reverses the result, so
    elements with equal keys keep their order of arrival and the others
    come out by decreasing key.  [insert_desc] puts [x] in front of the
    first element whose key is not greater than the key of [x]. *)
Section SortedReverse.
Context {A : Type} (key : A -> Q).

Fixpoint insert_desc (x : A) (l : list A) : list A :=
  match l with
  | [] => [x]
  | y :: r => if py_gt (key y) (key x) then y :: insert_desc x r
              else x :: y :: r
  end.

Definition sorted_reverse (l : list A) : list A :=
  foldr insert_desc [] l.

End SortedReverse.

(** ** yield_scanner.py *)

Record YieldOpportunity : Type := {
  protocol : string;
  pool_name : string;
  apy : Q;
  tvl : Q;
  risk_score : Z;
  category : string;
  chain : string;
  token_symbols : list string;
  contract_address : string;
  minimum_deposit : Q;
  lock_period : Z;
  last_updated : Z
}.

(** *** Upstream payloads *)

(** An answer of [session.get(url)]: the call itself can raise (network
    error, timeout), and so can [response.json()] on a malformed body. *)
Record response (T : Type) : Type := {
  status : Z;
  json : result T
}.
Arguments status {T} r.
Arguments json {T} r.

(** One entry of DeFiLlama's [/pools]. *)
Record pool_meta : Type := { ageDays : option Q }.

Record llama_pool : Type := {
  lp_apy : option Q;
  lp_tvlUsd : option Q;
  lp_chain : option string;
  lp_exposure : option string;
  lp_project : option string;
  lp_symbol : option string;
  lp_pool : option string;
  lp_poolMeta : option pool_meta
}.

Record llama_body : Type := { lb_data : option (list llama_pool) }.

(** One entry of Yearn's [/vaults/all]. *)
Record yearn_apy : Type := { net_apy : option Q }.
Record yearn_tvl : Type := { tvl_tvl : option Q }.
Record yearn_token : Type := { token_symbol : option string }.

Record yearn_vault : Type := {
  yv_apy : option yearn_apy;
  yv_tvl : option yearn_tvl;
  yv_name : option string;
  yv_token : option yearn_token;
  yv_address : option string
}.

(** One entry of Beefy's [/vaults]; [/apy] and [/tvl] are objects keyed by
    vault id. *)
Record beefy_vault : Type := {
  bv_id : option string;
  bv_chain : option string;
  bv_name : option string;
  bv_earnContractAddress : option string;
  bv_stratType : option string;
  bv_platformId : option string
}.

(** What the five endpoints answer during one scan, and the reading of
    the clock ([datetime.now()]) stamped on the records. *)
Record upstream : Type := {
  up_now : Z;
  up_llama_pools : result (response llama_body);
  up_yearn_vaults : result (response (list yearn_vault));
  up_beefy_vaults : result (response (list beefy_vault));
  up_beefy_apy : result (response (gmap string Q));
  up_beefy_tvl : result (response (gmap string Q))
}.

(** [d.get(k, dflt)] on an optional field. *)
Definition dict_get {A : Type} (field : option A) (dflt : A) : A :=
  default dflt field.

(** [try: body except Exception as e: handler(e)]. *)
Definition try_except {A : Type} (body : result A) (handler : exn -> A) : A :=
  match body with
  | Ok a => a
  | Raise e => handler e
  end.

(** The error monad of [result]: [x ← m; k] runs [m] and stops at the first
    exception. *)
#[global] Instance result_ret : MRet result := fun A a => Ok a.
#[global] Instance result_bind : MBind result := fun A B f m =>
  match m with
  | Ok a => f a
  | Raise e => Raise e
  end.

(** *** Risk scores and categories *)

Definition clamp_1_10 (score : Z) : Z := Z.max 1 (Z.min 10 score).

Definition _calculate_risk_score (pool_data : llama_pool) : Z :=
  let score := 5 in
  let tvl := dict_get (lp_tvlUsd pool_data) 0%Q in
  let score :=
    if py_gt tvl 100000000%Q then score - 1
    else if py_lt tvl 1000000%Q then score + 2
    else score in
  let age_days := dict_get (ageDays (dict_get (lp_poolMeta pool_data) {| ageDays := None |})) 0%Q in
  let score :=
    if py_gt age_days 365%Q then score - 1
    else if py_lt age_days 30%Q then score + 2
    else score in
  let project := lower (dict_get (lp_project pool_data) "") in
  let score :=
    if str_in project ["aave"; "compound"; "uniswap"; "curve"] then score - 1
    else score in
  let score :=
    if contains "lp" (lower (dict_get (lp_symbol pool_data) "")) then score + 1
    else score in
  clamp_1_10 score.

Definition _calculate_beefy_risk_score (vault_data : beefy_vault) : Z :=
  let score := 4 in
  let strategy := lower (dict_get (bv_stratType vault_data) "") in
  let score := if contains "lp" strategy then score + 1 else score in
  let platform := lower (dict_get (bv_platformId vault_data) "") in
  let score :=
    if str_in platform ["pancakeswap"; "quickswap"] then score + 1 else score in
  clamp_1_10 score.

Definition _categorize_pool (pool_data : llama_pool) : string :=
  let project := lower (dict_get (lp_project pool_data) "") in
  let symbol := lower (dict_get (lp_symbol pool_data) "") in
  if str_in project ["aave"; "compound"] then "lending"
  else if str_in project ["uniswap"; "curve"; "balancer"] then "dex"
  else if contains "lp" symbol || contains "-" symbol then "liquidity_provision"
  else if str_in project ["yearn"; "convex"] then "yield_farming"
  else "other".

(** *** The three collectors *)

Section Collectors.
Context (up : upstream).

Definition llama_opportunity (min_apy min_tvl : Q) (chains : list string)
    (pool : llama_pool) : option YieldOpportunity :=
  let apy := dict_get (lp_apy pool) 0%Q in
  let tvl := dict_get (lp_tvlUsd pool) 0%Q in
  let chain := lower (dict_get (lp_chain pool) "") in
  if py_ge apy min_apy && py_ge tvl min_tvl && str_in chain chains
     && negb (String.eqb (dict_get (lp_exposure pool) "") "multi")
  then
    let risk_score := _calculate_risk_score pool in
    Some {| protocol := dict_get (lp_project pool) "Unknown";
            pool_name := dict_get (lp_symbol pool) "";
            apy := apy;
            tvl := tvl;
            risk_score := risk_score;
            category := _categorize_pool pool;
            chain := chain;
            token_symbols := split "-" (dict_get (lp_symbol pool) "");
            contract_address := dict_get (lp_pool pool) "";
            minimum_deposit := 0%Q;
            lock_period := 0;
            last_updated := up_now up |}
  else None.

Definition _scan_defillama_yields (min_apy min_tvl : Q) (chains : list string)
    : list YieldOpportunity :=
  try_except
    (response ← up_llama_pools up;
     if negb (status response =? 200)%Z then Ok []
     else
       data ← json response;
       let opportunities :=
         omap (llama_opportunity min_apy min_tvl chains) (dict_get (lb_data data) []) in
       Ok (take 50 opportunities))
    (fun e => []).

Definition yearn_opportunity (min_apy min_tvl : Q) (vault : yearn_vault)
    : option YieldOpportunity :=
  let apy_data := dict_get (yv_apy vault) {| net_apy := None |} in
  let net_apy := dict_get (net_apy apy_data) 0%Q in
  let tvl := dict_get (tvl_tvl (dict_get (yv_tvl vault) {| tvl_tvl := None |})) 0%Q in
  if truthy net_apy && py_ge (net_apy * 100)%Q min_apy && py_ge tvl min_tvl
  then
    Some {| protocol := "Yearn";
            pool_name := dict_get (yv_name vault) "";
            apy := (net_apy * 100)%Q;
            tvl := tvl;
            risk_score := 3;
            category := "yield_farming";
            chain := "ethereum";
            token_symbols :=
              [dict_get (token_symbol (dict_get (yv_token vault) {| token_symbol := None |})) ""];
            contract_address := dict_get (yv_address vault) "";
            minimum_deposit := 0%Q;
            lock_period := 0;
            last_updated := up_now up |}
  else None.

Definition _scan_yearn_yields (min_apy min_tvl : Q) : list YieldOpportunity :=
  try_except
    (response ← up_yearn_vaults up;
     if negb (status response =? 200)%Z then Ok []
     else
       data ← json response;
       Ok (omap (M := list) (yearn_opportunity min_apy min_tvl) data))
    (fun e => []).

Definition beefy_opportunity (apy_data tvl_data : gmap string Q)
    (min_apy min_tvl : Q) (chains : list string) (vault : beefy_vault)
    : option YieldOpportunity :=
  let vault_id := dict_get (bv_id vault) "" in
  let chain := lower (dict_get (bv_chain vault) "") in
  if negb (str_in chain chains) then None
  else
    let apy := match apy_data !! vault_id with
               | Some a => (a * 100)%Q
               | None => 0%Q
               end in
    let tvl := match tvl_data !! vault_id with
               | Some t => t
               | None => 0%Q
               end in
    if py_ge apy min_apy && py_ge tvl min_tvl then
      let tokens := take 2 (split "-" (dict_get (bv_name vault) "")) in
      Some {| protocol := "Beefy";
              pool_name := dict_get (bv_name vault) "";
              apy := apy;
              tvl := tvl;
              risk_score := _calculate_beefy_risk_score vault;
              category := "yield_farming";
              chain := chain;
              token_symbols := tokens;
              contract_address := dict_get (bv_earnContractAddress vault) "";
              minimum_deposit := 0%Q;
              lock_period := 0;
              last_updated := up_now up |}
    else None.

Definition _scan_beefy_yields (min_apy min_tvl : Q) (chains : list string)
    : list YieldOpportunity :=
  try_except
    (response ← up_beefy_vaults up;
     if negb (status response =? 200)%Z then Ok []
     else
       vaults ← json response;
       response ← up_beefy_apy up;
       if negb (status response =? 200)%Z then Ok []
       else
         apy_data ← json response;
         response ← up_beefy_tvl up;
         if negb (status response =? 200)%Z then Ok []
         else
           tvl_data ← json response;
           let opportunities :=
             omap (M := list) (beefy_opportunity apy_data tvl_data min_apy min_tvl chains) vaults in
           Ok (take 30 opportunities))
    (fun e => []).

(** *** The aggregator *)

Definition dedup_key (opp : YieldOpportunity) : string * string :=
  (contract_address opp, pool_name opp).

Definition dedup_step (acc : gset (string * string) * list YieldOpportunity)
    (opp : YieldOpportunity) : gset (string * string) * list YieldOpportunity :=
  let '(seen, unique_opportunities) := acc in
  let key := dedup_key opp in
  if decide (key ∈ seen) then (seen, unique_opportunities)
  else ({[ key ]} ∪ seen, unique_opportunities ++ [opp]).

Definition _deduplicate_opportunities (opportunities : list YieldOpportunity)
    : list YieldOpportunity :=
  snd (foldl dedup_step (∅, []) opportunities).

(** [asyncio.gather] with [return_exceptions=True]: the outcomes of the
    tasks in the order of the tasks, whatever the order of completion; a
    task that raised contributes its exception as a value. *)
Definition gather {A : Type} (tasks : list (result A)) : list (result A) := tasks.

Definition extend_results (results : list (result (list YieldOpportunity)))
    : list YieldOpportunity :=
  foldl (fun all_opportunities result =>
           match result with
           | Ok l => all_opportunities ++ l
           | Raise e => all_opportunities
           end) [] results.

Definition default_chains : list string :=
  ["ethereum"; "polygon"; "arbitrum"; "optimism"; "avalanche"].

(** [not chains] holds of [None] and of the empty list. *)
Definition scan_yield_opportunities (min_apy min_tvl : Q)
    (chains : option (list string)) : list YieldOpportunity :=
  try_except
    (let chains := match chains with
                   | None | Some [] => default_chains
                   | Some cs => cs
                   end in
     let tasks := [ Ok (_scan_defillama_yields min_apy min_tvl chains);
                    Ok (_scan_yearn_yields min_apy min_tvl);
                    Ok (_scan_beefy_yields min_apy min_tvl chains) ] in
     let results := gather tasks in
     let all_opportunities := extend_results results in
     let unique_opportunities := _deduplicate_opportunities all_opportunities in
     Ok (sorted_reverse apy unique_opportunities))
    (fun e => []).

(** *** Trends and staking *)

(** One entry of DeFiLlama's [/chart/{pool_id}] and the point made of
    it. *)
Record chart_entry : Type := {
  ce_timestamp : option string;
  ce_apy : option Q;
  ce_tvlUsd : option Q
}.

Record chart_body : Type := { cb_data : option (list chart_entry) }.

Record trend : Type := {
  tr_timestamp : Z;
  tr_apy : Q;
  tr_tvl : Q
}.

(** [l[start:]]: a negative start counts from the end, and a start out of
    range is brought back to the nearest end. *)
Definition slice_from {A : Type} (start : Z) (l : list A) : list A :=
  let n := Z.of_nat (length l) in
  let start := if (start <? 0)%Z then Z.max 0 (start + n) else Z.min start n in
  drop (Z.to_nat start) l.

(** [datetime.fromisoformat] is a parameter: it answers an instant or
    raises [ValueError]. *)
Definition get_yield_trends (fromisoformat : string -> result Z)
    (chart : string -> result (response chart_body)) (pool_id : string) (days : Z)
    : list trend :=
  try_except
    (response ← chart pool_id;
     if negb (status response =? 200)%Z then Ok []
     else
       data ← json response;
       trends ← mapM (fun entry : chart_entry =>
                        timestamp ← fromisoformat (dict_get (ce_timestamp entry) "");
                        Ok {| tr_timestamp := timestamp;
                              tr_apy := dict_get (ce_apy entry) 0%Q;
                              tr_tvl := dict_get (ce_tvlUsd entry) 0%Q |})
                     (dict_get (cb_data data) []);
       let trends :=
         if (days <? Z.of_nat (length trends))%Z then slice_from (- days) trends
         else trends in
       Ok trends)
    (fun e => []).

Definition eth_staking : YieldOpportunity :=
  {| protocol := "Ethereum Staking";
     pool_name := "ETH 2.0 Staking";
     apy := 45 # 10;
     tvl := 50000000000;
     risk_score := 2;
     category := "staking";
     chain := "ethereum";
     token_symbols := ["ETH"];
     contract_address := "";
     minimum_deposit := 32;
     lock_period := 0;
     last_updated := up_now up |}.

Definition matic_staking : YieldOpportunity :=
  {| protocol := "Polygon Staking";
     pool_name := "MATIC Staking";
     apy := 68 # 10;
     tvl := 2000000000;
     risk_score := 3;
     category := "staking";
     chain := "polygon";
     token_symbols := ["MATIC"];
     contract_address := "";
     minimum_deposit := 1;
     lock_period := 3;
     last_updated := up_now up |}.

Definition scan_staking_opportunities (chains : option (list string))
    : list YieldOpportunity :=
  try_except
    (let chains := match chains with
                   | None | Some [] => ["ethereum"; "polygon"; "avalanche"]
                   | Some cs => cs
                   end in
     let opportunities := [] in
     let opportunities :=
       if str_in "ethereum" chains then opportunities ++ [eth_staking]
       else opportunities in
     let opportunities :=
       if str_in "polygon" chains then opportunities ++ [matic_staking]
       else opportunities in
     Ok opportunities)
    (fun e => []).

End Collectors.

(** ** cache.py *)

(** *** Values, JSON documents and stored bytes *)

(** A Python [float]: a finite number, an infinity or a NaN. *)
Inductive pyfloat : Type :=
  | Finite (x : Q)
  | Infinity (negative : bool)
  | NaN.

(** The Python values that are cached.  A [dict] is the list of its items
    in insertion order, with string keys.  [PObject repr] is a value of a
    type the JSON encoder does not know (a [datetime], a dataclass
    instance); [repr] is what [str] answers on it. *)
Inductive pyval : Type :=
  | PNone
  | PBool (b : bool)
  | PInt (z : Z)
  | PFloat (x : pyfloat)
  | PStr (s : string)
  | PList (items : list pyval)
  | PTuple (items : list pyval)
  | PDict (entries : list (string * pyval))
  | PObject (repr : string).

(** A document as [json] writes and reads it: besides the numbers of
    JSON it has the tokens [Infinity], [-Infinity] and [NaN], which
    [json.dumps] writes for the floats of that name and [json.loads]
    reads back. *)
Inductive json_doc : Type :=
  | JNull
  | JBool (b : bool)
  | JInt (z : Z)
  | JFloat (x : pyfloat)
  | JStr (s : string)
  | JArr (items : list json_doc)
  | JObj (entries : list (string * json_doc)).

(** [json.dumps(value, default=str)], up to the concrete syntax: the
    document whose text is written.  Lists and tuples both become arrays;
    a value the encoder does not know is passed to [default], that is
    [str], and becomes a JSON string.  A float is written with [repr],
    the shortest text that reads back as the same float; an infinity
    and a NaN are written as the tokens of their names and read back as
    an infinity and a NaN. *)
Fixpoint json_dumps_default_str (value : pyval) : json_doc :=
  match value with
  | PNone => JNull
  | PBool b => JBool b
  | PInt z => JInt z
  | PFloat x => JFloat x
  | PStr s => JStr s
  | PList items => JArr (map json_dumps_default_str items)
  | PTuple items => JArr (map json_dumps_default_str items)
  | PDict entries =>
      JObj (map (fun kv => (fst kv, json_dumps_default_str (snd kv))) entries)
  | PObject repr => JStr repr
  end.

(** [json.loads] on the text of a document. *)
Fixpoint json_loads_doc (doc : json_doc) : pyval :=
  match doc with
  | JNull => PNone
  | JBool b => PBool b
  | JInt z => PInt z
  | JFloat x => PFloat x
  | JStr s => PStr s
  | JArr items => PList (map json_loads_doc items)
  | JObj entries => PDict (map (fun kv => (fst kv, json_loads_doc (snd kv))) entries)
  end.

(** The bytes kept under a key: the text of a JSON document, or the pickle
    of a value. *)
Inductive blob : Type :=
  | BJson (doc : json_doc)
  | BPickle (value : pyval).

Definition pickle_dumps (value : pyval) : blob := BPickle value.

(** [json.loads(value)] on bytes.  A pickle starts with the protocol
    opcode [0x80], which is no valid first byte of UTF-8 text: decoding it
    raises [UnicodeDecodeError] before any JSON is parsed. *)
Definition json_loads (value : blob) : result pyval :=
  match value with
  | BJson doc => Ok (json_loads_doc doc)
  | BPickle _ => Raise UnicodeDecodeError
  end.

(** [pickle.loads(value)]; JSON text is not a pickle ([UnpicklingError],
    a [PickleError]). *)
Definition pickle_loads (value : blob) : result pyval :=
  match value with
  | BJson _ => Raise PickleError
  | BPickle v => Ok v
  end.

(** *** The Redis server *)

(** The store behind the client: for every live or expired key the bytes
    and the instant at which they expire (seconds), the server's clock,
    and the failure, if any, that every command currently meets
    (connection lost, time-out, ...). *)
Record redis_server : Type := {
  rs_data : gmap string (blob * Z);
  rs_now : Z;
  rs_fault : option exn
}.

(** A client call: it answers or raises, and leaves a server state. *)
Definition M (A : Type) : Type := redis_server -> result A * redis_server.

#[global] Instance M_ret : MRet M := fun A a srv => (Ok a, srv).
#[global] Instance M_bind : MBind M := fun A B f m srv =>
  match m srv with
  | (Ok a, srv') => f a srv'
  | (Raise e, srv') => (Raise e, srv')
  end.

Definition raise {A : Type} (e : exn) : M A := fun srv => (Raise e, srv).

(** [try: body except Exception as e: handler(e)] around client calls. *)
Definition try_except_M {A : Type} (body : M A) (handler : exn -> M A) : M A :=
  fun srv =>
    match body srv with
    | (Ok a, srv') => (Ok a, srv')
    | (Raise e, srv') => handler e srv'
    end.

(** [try: body except classes: handler] on a pure computation; an
    exception of another class goes on to the enclosing handler. *)
Definition try_except_on {A : Type} (classes : list exn) (body : result A)
    (handler : result A) : result A :=
  match body with
  | Ok a => Ok a
  | Raise e => if isinstance e classes then handler else Raise e
  end.

Definition lift {A : Type} (r : result A) : M A := fun srv => (r, srv).

Definition live (srv : redis_server) (key : string) : option blob :=
  match rs_data srv !! key with
  | Some (value, expiry) => if (rs_now srv <? expiry)%Z then Some value else None
  | None => None
  end.

Definition with_fault {A : Type} (command : M A) : M A :=
  fun srv =>
    match rs_fault srv with
    | Some e => (Raise e, srv)
    | None => command srv
    end.

(** SETEX: refuses a time to live that is not positive. *)
Definition redis_setex (key : string) (ttl : Z) (value : blob) : M bool :=
  with_fault (fun srv =>
    if (ttl <=? 0)%Z then (Raise ResponseError, srv)
    else (Ok true,
          {| rs_data := <[ key := (value, rs_now srv + ttl) ]> (rs_data srv);
             rs_now := rs_now srv;
             rs_fault := rs_fault srv |})).

Definition redis_get (key : string) : M (option blob) :=
  with_fault (fun srv => (Ok (live srv key), srv)).

Definition count_live (srv : redis_server) (key : string) : Z :=
  match live srv key with
  | Some _ => 1
  | None => 0
  end.

Definition redis_exists (key : string) : M Z :=
  with_fault (fun srv => (Ok (count_live srv key), srv)).

Definition redis_delete (key : string) : M Z :=
  with_fault (fun srv =>
    (Ok (count_live srv key),
     {| rs_data := base.delete key (rs_data srv);
        rs_now := rs_now srv;
        rs_fault := rs_fault srv |})).

Definition redis_ping : M bool := with_fault (fun srv => (Ok true, srv)).

(** Time passing on the server. *)
Definition elapse (seconds : Z) (srv : redis_server) : redis_server :=
  {| rs_data := rs_data srv;
     rs_now := rs_now srv + seconds;
     rs_fault := rs_fault srv |}.

(** EXPIRE: answers whether the key exists; a time that is not positive
    deletes the key. *)
Definition redis_expire (key : string) (ttl : Z) : M bool :=
  with_fault (fun srv =>
    match live srv key with
    | None => (Ok false, srv)
    | Some value =>
        (Ok true,
         {| rs_data := if (ttl <=? 0)%Z then base.delete key (rs_data srv)
                       else <[ key := (value, rs_now srv + ttl) ]> (rs_data srv);
            rs_now := rs_now srv;
            rs_fault := rs_fault srv |})
    end).

(** TTL: the seconds a key has left, [-2] for a key that does not
    exist.  (Every key of this model has an expiry, so [-1] does not
    occur.) *)
Definition redis_ttl (key : string) : M Z :=
  with_fault (fun srv =>
    (Ok match rs_data srv !! key with
        | Some (_, expiry) => if (rs_now srv <? expiry)%Z then expiry - rs_now srv else -2
        | None => -2
        end, srv)).

(** KEYS: the live keys that the server's glob matcher accepts for the
    pattern.  The matcher is the server's; it is a parameter here. *)
Definition redis_keys (glob_match : string -> string -> bool) (pattern : string)
    : M (list string) :=
  with_fault (fun srv =>
    (Ok (List.filter (fun key => bool_decide (is_Some (live srv key)) && glob_match pattern key)
           (fst <$> map_to_list (rs_data srv))), srv)).

(** DEL with several keys: the number of keys that were there. *)
Definition redis_delete_keys (keys : list string) : M Z :=
  with_fault (fun srv =>
    (Ok (Z.of_nat (length (List.filter (fun key => bool_decide (is_Some (live srv key))) keys))),
     {| rs_data := foldr base.delete (rs_data srv) keys;
        rs_now := rs_now srv;
        rs_fault := rs_fault srv |})).

Definition redis_flushdb : M bool :=
  with_fault (fun srv =>
    (Ok true, {| rs_data := ∅; rs_now := rs_now srv; rs_fault := rs_fault srv |})).

(** A pipeline of SETEX commands, which the client sends as one
    MULTI ... EXEC transaction.  The server runs every queued command in
    turn, whether or not another one fails, and the client raises the
    first error found among the replies.  With nothing queued, nothing
    is sent. *)
Definition redis_pipeline_setex (commands : list (string * Z * blob)) : M (list bool) :=
  match commands with
  | [] => mret []
  | _ =>
      with_fault (fun srv =>
        let '(replies, srv') :=
          foldl (fun '(replies, srv) '(key, ttl, value) =>
                   let '(reply, srv') := redis_setex key ttl value srv in
                   (replies ++ [reply], srv'))
                ([], srv) commands in
        (mapM id replies, srv'))
  end.

(** The fields of the reply to INFO that the code reads. *)
Record redis_info_reply : Type := {
  connected_clients : option Z;
  used_memory_human : option string;
  total_commands_processed : option Z;
  keyspace_hits : option Z;
  keyspace_misses : option Z
}.

(** *** hashlib.md5 *)

(** MD5 (RFC 1321) on bytes, with 32-bit words kept in [Z] and reduced
    modulo [2^32] after every addition and rotation. *)
Module MD5.

Definition mask32 : Z := 0xffffffff.
Definition add32 (a b : Z) : Z := Z.land (a + b) mask32.
Definition not32 (a : Z) : Z := Z.lxor a mask32.
Definition rotl32 (x c : Z) : Z :=
  Z.land (Z.lor (Z.shiftl x c) (Z.shiftr x (32 - c))) mask32.

Definition S : list Z :=
  [ 7; 12; 17; 22; 7; 12; 17; 22; 7; 12; 17; 22; 7; 12; 17; 22;
    5; 9; 14; 20; 5; 9; 14; 20; 5; 9; 14; 20; 5; 9; 14; 20;
    4; 11; 16; 23; 4; 11; 16; 23; 4; 11; 16; 23; 4; 11; 16; 23;
    6; 10; 15; 21; 6; 10; 15; 21; 6; 10; 15; 21; 6; 10; 15; 21 ].

Definition K : list Z :=
  [ 0xd76aa478; 0xe8c7b756; 0x242070db; 0xc1bdceee;
    0xf57c0faf; 0x4787c62a; 0xa8304613; 0xfd469501;
    0x698098d8; 0x8b44f7af; 0xffff5bb1; 0x895cd7be;
    0x6b901122; 0xfd987193; 0xa679438e; 0x49b40821;
    0xf61e2562; 0xc040b340; 0x265e5a51; 0xe9b6c7aa;
    0xd62f105d; 0x02441453; 0xd8a1e681; 0xe7d3fbc8;
    0x21e1cde6; 0xc33707d6; 0xf4d50d87; 0x455a14ed;
    0xa9e3e905; 0xfcefa3f8; 0x676f02d9; 0x8d2a4c8a;
    0xfffa3942; 0x8771f681; 0x6d9d6122; 0xfde5380c;
    0xa4beea44; 0x4bdecfa9; 0xf6bb4b60; 0xbebfbc70;
    0x289b7ec6; 0xeaa127fa; 0xd4ef3085; 0x04881d05;
    0xd9d4d039; 0xe6db99e5; 0x1fa27cf8; 0xc4ac5665;
    0xf4292244; 0x432aff97; 0xab9423a7; 0xfc93a039;
    0x655b59c3; 0x8f0ccc92; 0xffeff47d; 0x85845dd1;
    0x6fa87e4f; 0xfe2ce6e0; 0xa3014314; 0x4e0811a1;
    0xf7537e82; 0xbd3af235; 0x2ad7d2bb; 0xeb86d391 ].

(** Little-endian bytes of a word, and back. *)
Definition le_bytes (n : nat) (w : Z) : list Z :=
  map (fun i => Z.land (Z.shiftr w (8 * Z.of_nat i)) 0xff) (seq 0 n).

Definition le_word (bytes : list Z) : Z :=
  foldr (fun b acc => Z.lor b (Z.shiftl acc 8)) 0 bytes.

(** The message followed by [0x80], zeros up to 56 modulo 64, and its
    length in bits on 8 bytes. *)
Definition pad (msg : list Z) : list Z :=
  let len := Z.of_nat (length msg) in
  msg ++ [0x80] ++ repeat 0 (Z.to_nat ((55 - len) mod 64)) ++ le_bytes 8 (8 * len).

Fixpoint blocks (n : nat) (size : nat) (l : list Z) : list (list Z) :=
  match n with
  | O => []
  | Datatypes.S n' => take size l :: blocks n' size (drop size l)
  end.

Definition state : Type := Z * Z * Z * Z.

Definition step (m : list Z) (st : state) (i : nat) : state :=
  let '(a, b, c, d) := st in
  let '(f, g) :=
    if (i <? 16)%nat then (Z.lor (Z.land b c) (Z.land (not32 b) d), i)
    else if (i <? 32)%nat then
      (Z.lor (Z.land d b) (Z.land (not32 d) c), ((5 * i + 1) mod 16)%nat)
    else if (i <? 48)%nat then
      (Z.lxor (Z.lxor b c) d, ((3 * i + 5) mod 16)%nat)
    else (Z.lxor c (Z.lor b (not32 d)), ((7 * i) mod 16)%nat) in
  let f := add32 (add32 (add32 f a) (nth i K 0)) (nth g m 0) in
  (d, add32 b (rotl32 f (nth i S 0)), b, c).

Definition compress (st : state) (chunk : list Z) : state :=
  let m := map le_word (blocks 16 4 chunk) in
  let '(a0, b0, c0, d0) := st in
  let '(a, b, c, d) := foldl (step m) st (seq 0 64) in
  (add32 a0 a, add32 b0 b, add32 c0 c, add32 d0 d).

Definition digest (msg : list Z) : list Z :=
  let padded := pad msg in
  let '(a, b, c, d) :=
    foldl compress (0x67452301, 0xefcdab89, 0x98badcfe, 0x10325476)
      (blocks (length padded / 64) 64 padded) in
  le_bytes 4 a ++ le_bytes 4 b ++ le_bytes 4 c ++ le_bytes 4 d.

Definition hex_digit (n : Z) : ascii :=
  if (n <? 10)%Z then ascii_of_N (Z.to_N (48 + n))
  else ascii_of_N (Z.to_N (87 + n)).

Definition hex_byte (b : Z) : string :=
  String (hex_digit (Z.land (Z.shiftr b 4) 0xf))
    (String (hex_digit (Z.land b 0xf)) EmptyString).

Definition bytes_of_string (s : string) : list Z :=
  map (fun c => Z.of_N (N_of_ascii c)) (list_ascii_of_string s).

(** [hashlib.md5(s.encode()).hexdigest()]. *)
Definition hexdigest (s : string) : string :=
  String.concat "" (map hex_byte (digest (bytes_of_string s))).

End MD5.

(** *** Coroutines *)

(** An [async def] that talks to the store: it has returned, or it is
    suspended at an [await] of a client call and goes on with the outcome
    of that call.  The event loop can run another coroutine between two
    awaits, and never inside one client call. *)
Inductive coro (A : Type) : Type :=
  | Return (a : A)
  | Await (X : Type) (call : M X) (k : result X -> coro A).
Arguments Return {A} a.
Arguments Await {A X} call k.

(** A coroutine awaited to its end with nothing running in between. *)
Fixpoint run {A : Type} (c : coro A) (srv : redis_server) : A * redis_server :=
  match c with
  | Return a => (a, srv)
  | Await call k => let '(r, srv') := call srv in run (k r) srv'
  end.

(** One turn of the event loop: coroutine number [i] is resumed up to its
    next suspension. *)
Definition resume {A : Type} (i : nat) (st : list (coro A) * redis_server)
    : list (coro A) * redis_server :=
  let '(tasks, srv) := st in
  match tasks !! i with
  | Some (Await call k) => let '(r, srv') := call srv in (<[ i := k r ]> tasks, srv')
  | Some (Return _) | None => st
  end.

(** The event loop following a schedule, the list of the coroutines it
    resumes in turn. *)
Definition interleave {A : Type} (schedule : list nat)
    (st : list (coro A) * redis_server) : list (coro A) * redis_server :=
  foldl (fun st i => resume i st) st schedule.

Definition returned {A : Type} (c : coro A) : option A :=
  match c with
  | Return a => Some a
  | Await _ _ => None
  end.

(** *** CacheManager *)

Module Cache.

Inductive redis_client : Type := RedisClient (url : string).

Record CacheManager : Type := {
  redis_url : string;
  redis : option redis_client;
  default_ttls : gmap string Z
}.

Definition CacheManager_init (redis_url : string) : CacheManager :=
  {| redis_url := redis_url;
     redis := None;
     default_ttls :=
       list_to_map [ ("price_data", 60); ("yield_data", 300); ("market_data", 180);
                     ("ai_predictions", 3600); ("portfolio_data", 300);
                     ("gas_prices", 120) ] |}.

(** [initialize] keeps the client and raises again what the ping met. *)
Definition initialize (self : CacheManager) : M CacheManager :=
  let self' := {| redis_url := redis_url self;
                  redis := Some (RedisClient (redis_url self));
                  default_ttls := default_ttls self |} in
  try_except_M
    (_ ← redis_ping; mret self')
    (fun e => raise e).

Section Methods.
(** The text that [json.dumps] writes for a document.  Only the last
    fallback of [get] reads the stored bytes as text. *)
Context (json_text : json_doc -> string).
Context (self : CacheManager).

(** [value.decode('utf-8')] on stored bytes. *)
Definition bytes_decode (value : blob) : result pyval :=
  match value with
  | BJson doc => Ok (PStr (json_text doc))
  | BPickle _ => Raise UnicodeDecodeError
  end.

Definition is_dict_or_list (value : pyval) : bool :=
  match value with
  | PDict _ | PList _ => true
  | _ => false
  end.

Definition set (key : string) (value : pyval) (ttl : option Z)
    (data_type : string) : M bool :=
  try_except_M
    (match redis self with
     | None => mret false
     | Some _ =>
         let ttl := match ttl with
                    | None => default 300 (default_ttls self !! data_type)
                    | Some t => t
                    end in
         let serialized_value :=
           if is_dict_or_list value then BJson (json_dumps_default_str value)
           else pickle_dumps value in
         _ ← redis_setex key ttl serialized_value;
         mret true
     end)
    (fun e => mret false).

Definition get (key : string) (default : pyval) : M pyval :=
  try_except_M
    (match redis self with
     | None => mret default
     | Some _ =>
         value ← redis_get key;
         match value with
         | None => mret default
         | Some value =>
             lift (try_except_on [JSONDecodeError; TypeError] (json_loads value)
                     (try_except_on [PickleError; TypeError] (pickle_loads value)
                        (bytes_decode value)))
         end
     end)
    (fun e => mret default).

Definition delete (key : string) : M bool :=
  try_except_M
    (match redis self with
     | None => mret false
     | Some _ =>
         result ← redis_delete key;
         mret (0 <? result)%Z
     end)
    (fun e => mret false).

Definition exists_ (key : string) : M bool :=
  try_except_M
    (match redis self with
     | None => mret false
     | Some _ =>
         result ← redis_exists key;
         mret (0 <? result)%Z
     end)
    (fun e => mret false).

Definition expire (key : string) (ttl : Z) : M bool :=
  try_except_M
    (match redis self with
     | None => mret false
     | Some _ =>
         result ← redis_expire key ttl;
         mret result
     end)
    (fun e => mret false).

Definition get_ttl (key : string) : M (option Z) :=
  try_except_M
    (match redis self with
     | None => mret None
     | Some _ =>
         ttl ← redis_ttl key;
         mret (if (0 <? ttl)%Z then Some ttl else None)
     end)
    (fun e => mret None).

(** The matcher behind KEYS. *)
Context (glob_match : string -> string -> bool).

Definition invalidate_pattern (pattern : string) : M Z :=
  try_except_M
    (match redis self with
     | None => mret 0
     | Some _ =>
         keys ← redis_keys glob_match pattern;
         match keys with
         | [] => mret 0
         | _ =>
             deleted ← redis_delete_keys keys;
             mret deleted
         end
     end)
    (fun e => mret 0).

(** INFO answers statistics that the model of the server does not keep:
    the command is a parameter. *)
Context (redis_info : M redis_info_reply).

Definition key_patterns : list string :=
  [ "price:*"; "yield_opportunities:*"; "portfolio_analysis:*";
    "ai_prediction_*:*"; "market_data:*"; "gas_prices:*" ].

(** The dict of [get_cache_stats]; [hit_rate] is a true division, whose
    divisor is 1 at least. *)
Definition get_cache_stats : M (gmap string pyval) :=
  try_except_M
    (match redis self with
     | None => mret ∅
     | Some _ =>
         info ← redis_info;
         key_counts ←
           foldl (fun counts pattern =>
                    key_counts ← counts;
                    keys ← redis_keys glob_match pattern;
                    let pattern_name := replace "_*" "" (replace ":*" "" pattern) in
                    mret (<[ String.append pattern_name "_keys"
                             := PInt (Z.of_nat (length keys)) ]> (key_counts : gmap string pyval)))
                 (mret ∅) key_patterns;
         let hits := dict_get (keyspace_hits info) 0 in
         let misses := dict_get (keyspace_misses info) 0 in
         let stats : gmap string pyval :=
           list_to_map
             [ ("connected_clients", PInt (dict_get (connected_clients info) 0));
               ("used_memory_human", PStr (dict_get (used_memory_human info) "0B"));
               ("total_commands_processed",
                PInt (dict_get (total_commands_processed info) 0));
               ("keyspace_hits", PInt hits);
               ("keyspace_misses", PInt misses);
               ("hit_rate",
                PFloat (Finite (inject_Z hits / inject_Z (Z.max (hits + misses) 1))%Q)) ] in
         mret (key_counts ∪ stats)
     end)
    (fun e => mret ∅).

(** INCRBY leaves a key without expiry, which the model of the server
    does not have: the command is a parameter. *)
Context (redis_incrby : string -> Z -> M Z).

Definition increment (key : string) (amount : Z) : M (option Z) :=
  try_except_M
    (match redis self with
     | None => mret None
     | Some _ =>
         result ← redis_incrby key amount;
         mret (Some result)
     end)
    (fun e => mret None).

(** [if pattern:] holds of a string that is not empty. *)
Definition flush_cache (pattern : option string) : M bool :=
  try_except_M
    (match redis self with
     | None => mret false
     | Some _ =>
         match pattern with
         | Some (String c r) =>
             deleted ← invalidate_pattern (String c r);
             mret true
         | Some EmptyString | None =>
             _ ← redis_flushdb;
             mret true
         end
     end)
    (fun e => mret false).

(** [set_if_not_exists] awaits [exists] and then [set]: two client calls,
    two suspensions.  The handler of its [try] answers [False]. *)
Definition set_if_not_exists_coro (key : string) (value : pyval) (ttl : option Z)
    (data_type : string) : coro bool :=
  match redis self with
  | None => Return false
  | Some _ =>
      Await (exists_ key) (fun found =>
        match found with
        | Raise e => Return false
        | Ok true => Return false
        | Ok false =>
            Await (set key value ttl data_type) (fun wrote =>
              match wrote with
              | Raise e => Return false
              | Ok b => Return b
              end)
        end)
  end.

Definition set_if_not_exists (key : string) (value : pyval) (ttl : option Z)
    (data_type : string) (srv : redis_server) : bool * redis_server :=
  run (set_if_not_exists_coro key value ttl data_type) srv.

End Methods.

(** [_generate_key] does not read [self].  The values of the dictionary
    are left abstract, and so is [json.dumps(..., sort_keys=True)] on the
    sorted list of items. *)
Section GenerateKey.
Context {V : Type} (json_dumps : list (string * V) -> string).

(** The identifier: a string, or a dictionary given by its items in
    insertion order (their keys are pairwise distinct). *)
Inductive identifier : Type :=
  | IdStr (s : string)
  | IdDict (items : list (string * V)).

(** [sorted(items)]: tuples are compared on their first components, and
    on the second ones only between equal keys, which a dictionary does
    not have.  The sort is stable. *)
Fixpoint insert_item (x : string * V) (l : list (string * V)) : list (string * V) :=
  match l with
  | [] => [x]
  | y :: r => if String.ltb (fst y) (fst x) then y :: insert_item x r
              else x :: y :: r
  end.

Definition sorted_items (items : list (string * V)) : list (string * V) :=
  foldr insert_item [] items.

Definition _generate_key (prefix : string) (identifier : identifier) : string :=
  match identifier with
  | IdDict items =>
      let sorted_items := sorted_items items in
      let identifier_str := json_dumps sorted_items in
      let identifier_hash := MD5.hexdigest identifier_str in
      prefix ++ ":" ++ identifier_hash
  | IdStr s => prefix ++ ":" ++ s
  end.

End GenerateKey.

(** The typed helpers: each derives its key and calls [set] or [get]. *)
Section Helpers.
Context (json_text : json_doc -> string).
Context {V : Type} (json_dumps : list (string * V) -> string).
(** [str.upper()] and [str.lower()]. *)
Context (str_upper str_lower : string -> string).
Context (self : CacheManager).

Definition cache_price_data (symbol : string) (price_data : pyval) (ttl : option Z)
    : M bool :=
  let key := _generate_key json_dumps "price" (IdStr (str_upper symbol)) in
  set self key price_data ttl "price_data".

Definition get_cached_price_data (symbol : string) : M pyval :=
  let key := _generate_key json_dumps "price" (IdStr (str_upper symbol)) in
  get json_text self key PNone.

Definition cache_yield_opportunities (filters : list (string * V))
    (opportunities : pyval) (ttl : option Z) : M bool :=
  let key := _generate_key json_dumps "yield_opportunities" (IdDict filters) in
  set self key opportunities ttl "yield_data".

Definition get_cached_yield_opportunities (filters : list (string * V)) : M pyval :=
  let key := _generate_key json_dumps "yield_opportunities" (IdDict filters) in
  get json_text self key PNone.

Definition cache_portfolio_analysis (portfolio_id : string) (analysis : pyval)
    (ttl : option Z) : M bool :=
  let key := _generate_key json_dumps "portfolio_analysis" (IdStr portfolio_id) in
  set self key analysis ttl "portfolio_data".

Definition get_cached_portfolio_analysis (portfolio_id : string) : M pyval :=
  let key := _generate_key json_dumps "portfolio_analysis" (IdStr portfolio_id) in
  get json_text self key PNone.

Definition cache_ai_prediction (model_type input_hash : string) (prediction : pyval)
    (ttl : option Z) : M bool :=
  let key := _generate_key json_dumps ("ai_prediction_" ++ model_type) (IdStr input_hash) in
  set self key prediction ttl "ai_predictions".

Definition get_cached_ai_prediction (model_type input_hash : string) : M pyval :=
  let key := _generate_key json_dumps ("ai_prediction_" ++ model_type) (IdStr input_hash) in
  get json_text self key PNone.

Definition cache_market_data (market_data : pyval) (ttl : option Z) : M bool :=
  let key := "market_data:latest" in
  set self key market_data ttl "market_data".

Definition get_cached_market_data : M pyval :=
  let key := "market_data:latest" in
  get json_text self key PNone.

Definition cache_gas_prices (chain : string) (gas_data : pyval) (ttl : option Z)
    : M bool :=
  let key := _generate_key json_dumps "gas_prices" (IdStr (str_lower chain)) in
  set self key gas_data ttl "gas_prices".

Definition get_cached_gas_prices (chain : string) : M pyval :=
  let key := _generate_key json_dumps "gas_prices" (IdStr (str_lower chain)) in
  get json_text self key PNone.

(** [batch_cache_prices]: one SETEX per item of the dict, in a pipeline.
    [ttl or default] takes the default for [ttl=0] as well.  A reply is
    [True] for a command that was carried out. *)
Definition batch_cache_prices (price_data_dict : list (string * pyval)) (ttl : option Z)
    : M (gmap string bool) :=
  let all_false : gmap string bool :=
    foldl (fun results symbol => <[ symbol := false ]> results) ∅
      (fst <$> price_data_dict) in
  match redis self with
  | None => mret all_false
  | Some _ =>
      try_except_M
        (let commands :=
           (fun item : string * pyval =>
              let key := _generate_key json_dumps "price" (IdStr (str_upper (fst item))) in
              let serialized_value := BJson (json_dumps_default_str (snd item)) in
              let actual_ttl :=
                match ttl with
                | Some t => if (t =? 0)%Z then default 60 (default_ttls self !! "price_data")
                            else t
                | None => default 60 (default_ttls self !! "price_data")
                end in
              (key, actual_ttl, serialized_value)) <$> price_data_dict in
         results_list ← redis_pipeline_setex commands;
         mret (foldl (fun results item => <[ fst item := snd item ]> results) ∅
                 (zip (fst <$> price_data_dict) results_list)))
        (fun e => mret all_false)
  end.

End Helpers.

End Cache.

(** ** database.py *)

Module Database.

(** *** Tables *)

(** A row of [yield_data].  [UNIQUE(protocol, pool_name, chain,
    last_updated)]; [pool_name], [category] and [contract_address] admit
    NULL. *)
Record yield_row : Type := {
  yr_id : Z;
  yr_protocol : string;
  yr_pool_name : option string;
  yr_apy : Q;
  yr_tvl : Q;
  yr_risk_score : Z;
  yr_category : option string;
  yr_chain : string;
  yr_contract_address : option string;
  yr_token_symbols : list string;
  yr_minimum_deposit : Q;
  yr_lock_period : Z;
  yr_last_updated : Z;
  yr_created_at : Z
}.

(** A row of [portfolio_snapshots]; the table declares no uniqueness
    besides its primary key [id]. *)
Record snapshot_row : Type := {
  sr_id : Z;
  sr_portfolio_id : string;
  sr_total_value : Q;
  sr_allocations : json_doc;
  sr_performance_metrics : json_doc;
  sr_risk_metrics : json_doc;
  sr_timestamp : Z;
  sr_created_at : Z
}.

(** The PostgreSQL server: the two tables with the sequences behind their
    [SERIAL] columns, the value of [CURRENT_TIMESTAMP], and the failure,
    if any, that every statement currently meets. *)
Record database : Type := {
  yield_data : list yield_row;
  yield_data_id_seq : Z;
  portfolio_snapshots : list snapshot_row;
  portfolio_snapshots_id_seq : Z;
  db_now : Z;
  db_fault : option exn
}.

(** *** Arguments of the two writers *)

Record yield_dict : Type := {
  yd_protocol : option string;
  yd_pool_name : option string;
  yd_apy : option Q;
  yd_tvl : option Q;
  yd_risk_score : option Z;
  yd_category : option string;
  yd_chain : option string;
  yd_contract_address : option string;
  yd_token_symbols : option (list string);
  yd_minimum_deposit : option Q;
  yd_lock_period : option Z;
  yd_last_updated : option Z
}.

(** The tuple bound to [$1 .. $12]. *)
Record yield_record : Type := {
  r_protocol : string;
  r_pool_name : option string;
  r_apy : Q;
  r_tvl : Q;
  r_risk_score : Z;
  r_category : option string;
  r_chain : string;
  r_contract_address : option string;
  r_token_symbols : list string;
  r_minimum_deposit : Q;
  r_lock_period : Z;
  r_last_updated : Z
}.

Record snapshot_dict : Type := {
  sd_total_value : option Q;
  sd_allocations : option pyval;
  sd_performance_metrics : option pyval;
  sd_risk_metrics : option pyval;
  sd_timestamp : option Z
}.

(** [d[k]]: a missing key raises [KeyError]. *)
Definition subscript {A : Type} (field : option A) : result A :=
  match field with
  | Some a => Ok a
  | None => Raise KeyError
  end.

(** [json.dumps(value)] without [default]: a value the encoder does not
    know raises [TypeError]. *)
Fixpoint json_dumps (value : pyval) : result json_doc :=
  match value with
  | PNone => Ok JNull
  | PBool b => Ok (JBool b)
  | PInt z => Ok (JInt z)
  | PFloat x => Ok (JFloat x)
  | PStr s => Ok (JStr s)
  | PList items | PTuple items =>
      (fix all (l : list pyval) : result (list json_doc) :=
         match l with
         | [] => Ok []
         | v :: r => d ← json_dumps v; ds ← all r; Ok (d :: ds)
         end) items ≫= (fun ds => Ok (JArr ds))
  | PDict entries =>
      (fix all (l : list (string * pyval)) : result (list (string * json_doc)) :=
         match l with
         | [] => Ok []
         | (k, v) :: r => d ← json_dumps v; ds ← all r; Ok ((k, d) :: ds)
         end) entries ≫= (fun ds => Ok (JObj ds))
  | PObject _ => Raise TypeError
  end.

(** *** Column types *)

(** What a column of a declared type keeps of a value it is sent, or the
    refusal of the statement.  The driver sends a [float] as the decimal
    number it is. *)

(** The nearest integer, a tie going away from zero. *)
Definition round_half_away (x : Q) : Z :=
  let n := Qnum x in
  let d := Z.pos (Qden x) in
  Z.sgn n * ((2 * Z.abs n + d) / (2 * d)).

(** [DECIMAL(precision, scale)]: the value rounded to [scale] decimal
    places, refused when the rounded value needs more than
    [precision - scale] digits before the point. *)
Definition decimal (precision scale : Z) (x : Q) : result Q :=
  let units := round_half_away (x * inject_Z (10 ^ scale)) in
  if (Z.abs units <? 10 ^ precision)%Z
  then Ok (units # Z.to_pos (10 ^ scale))%Q
  else Raise DataError.

(** [INTEGER]: four bytes. *)
Definition integer (z : Z) : result Z :=
  if ((- 2 ^ 31 <=? z) && (z <? 2 ^ 31))%Z then Ok z else Raise DataError.

(** A byte that continues a character of UTF-8 text. *)
Definition utf8_continuation (c : ascii) : bool :=
  let n := N_of_ascii c in ((128 <=? n) && (n <? 192))%N.

(** The first [n] characters of a text, and what follows them. *)
Fixpoint split_chars (n : nat) (s : string) : string * string :=
  match s with
  | EmptyString => (EmptyString, EmptyString)
  | String c r =>
      if utf8_continuation c
      then let '(kept, excess) := split_chars n r in (String c kept, excess)
      else match n with
           | O => (EmptyString, s)
           | S k => let '(kept, excess) := split_chars k r in (String c kept, excess)
           end
  end.

Definition has_nul (s : string) : bool :=
  existsb (Ascii.eqb Ascii.zero) (list_ascii_of_string s).

Definition all_spaces (s : string) : bool :=
  forallb (Ascii.eqb " "%char) (list_ascii_of_string s).

(** [TEXT]: any text without the character NUL. *)
Definition text (s : string) : result string :=
  if has_nul s then Raise DataError else Ok s.

(** [VARCHAR(n)]: a text of more than [n] characters is refused, unless
    the characters in excess are all spaces, which are cut off. *)
Definition varchar (n : nat) (s : string) : result string :=
  s ← text s;
  let '(kept, excess) := split_chars n s in
  if all_spaces excess then Ok kept else Raise DataError.

(** A column that admits NULL. *)
Definition nullable {A : Type} (column : A -> result A) (value : option A)
    : result (option A) :=
  match value with
  | None => Ok None
  | Some a => a' ← column a; Ok (Some a')
  end.

(** The numbers of [JSONB] are of type [numeric], which has at most
    131072 digits before the point: [2 ^ 435411 < 10 ^ 131072 <
    2 ^ 435412]. *)
Definition numeric_fits (z : Z) : bool :=
  let bits := Z.log2 (Z.abs z) in
  if (bits <? 435411)%Z then true
  else if (435411 <? bits)%Z then false
  else (Z.abs z <? 10 ^ 131072)%Z.

(** [JSONB] takes the text of a JSON document: not the tokens [NaN] and
    [Infinity], and no string with the character NUL. *)
Fixpoint jsonb_accepts (doc : json_doc) : bool :=
  match doc with
  | JNull | JBool _ => true
  | JInt z => numeric_fits z
  | JFloat (Finite _) => true
  | JFloat _ => false
  | JStr s => negb (has_nul s)
  | JArr items => forallb jsonb_accepts items
  | JObj entries =>
      forallb (fun kv => negb (has_nul (fst kv)) && jsonb_accepts (snd kv)) entries
  end.

Definition jsonb (doc : json_doc) : result json_doc :=
  if jsonb_accepts doc then Ok doc else Raise DataError.

(** [conn.executemany(statement, records)]: the statement for each tuple
    in turn, inside one transaction; a tuple that is refused ends the
    call. *)
Fixpoint executemany {S R : Type} (statement : S -> R -> result S) (db : S)
    (records : list R) : result S :=
  match records with
  | [] => Ok db
  | rec :: rest => db' ← statement db rec; executemany statement db' rest
  end.

(** *** INSERT statements *)

(** Two keys collide under the unique index when every column is equal
    and none is NULL: PostgreSQL holds two NULLs to be distinct. *)
Definition conflicts (row : yield_row) (rec : yield_record) : bool :=
  String.eqb (yr_protocol row) (r_protocol rec)
  && match yr_pool_name row, r_pool_name rec with
     | Some a, Some b => String.eqb a b
     | _, _ => false
     end
  && String.eqb (yr_chain row) (r_chain rec)
  && (yr_last_updated row =? r_last_updated rec)%Z.

(** [DO UPDATE SET apy = EXCLUDED.apy, tvl = EXCLUDED.tvl, risk_score =
    EXCLUDED.risk_score]. *)
Definition do_update (row : yield_row) (rec : yield_record) : yield_row :=
  {| yr_id := yr_id row;
     yr_protocol := yr_protocol row;
     yr_pool_name := yr_pool_name row;
     yr_apy := r_apy rec;
     yr_tvl := r_tvl rec;
     yr_risk_score := r_risk_score rec;
     yr_category := yr_category row;
     yr_chain := yr_chain row;
     yr_contract_address := yr_contract_address row;
     yr_token_symbols := yr_token_symbols row;
     yr_minimum_deposit := yr_minimum_deposit row;
     yr_lock_period := yr_lock_period row;
     yr_last_updated := yr_last_updated row;
     yr_created_at := yr_created_at row |}.

(** The row in conflict, if there is one, updated in place. *)
Fixpoint on_conflict_update (rec : yield_record) (rows : list yield_row)
    : option (list yield_row) :=
  match rows with
  | [] => None
  | row :: rest =>
      if conflicts row rec then Some (do_update row rec :: rest)
      else rows' ← on_conflict_update rec rest; Some (row :: rows')
  end.

Definition inserted_row (id created_at : Z) (rec : yield_record) : yield_row :=
  {| yr_id := id;
     yr_protocol := r_protocol rec;
     yr_pool_name := r_pool_name rec;
     yr_apy := r_apy rec;
     yr_tvl := r_tvl rec;
     yr_risk_score := r_risk_score rec;
     yr_category := r_category rec;
     yr_chain := r_chain rec;
     yr_contract_address := r_contract_address rec;
     yr_token_symbols := r_token_symbols rec;
     yr_minimum_deposit := r_minimum_deposit rec;
     yr_lock_period := r_lock_period rec;
     yr_last_updated := r_last_updated rec;
     yr_created_at := created_at |}.

(** [INSERT INTO yield_data ... ON CONFLICT (protocol, pool_name, chain,
    last_updated) DO UPDATE ...] for one tuple.  The sequence advances
    whether or not the row is inserted. *)
Definition insert_yield (db : database) (rec : yield_record) : database :=
  let id := yield_data_id_seq db + 1 in
  {| yield_data :=
       match on_conflict_update rec (yield_data db) with
       | Some rows => rows
       | None => yield_data db ++ [inserted_row id (db_now db) rec]
       end;
     yield_data_id_seq := id;
     portfolio_snapshots := portfolio_snapshots db;
     portfolio_snapshots_id_seq := portfolio_snapshots_id_seq db;
     db_now := db_now db;
     db_fault := db_fault db |}.

(** The values of a tuple as the columns of [yield_data] keep them. *)
Definition yield_columns (rec : yield_record) : result yield_record :=
  protocol ← varchar 100 (r_protocol rec);
  pool_name ← nullable (varchar 200) (r_pool_name rec);
  apy ← decimal 10 4 (r_apy rec);
  tvl ← decimal 20 2 (r_tvl rec);
  risk_score ← integer (r_risk_score rec);
  category ← nullable (varchar 50) (r_category rec);
  chain ← varchar 50 (r_chain rec);
  contract_address ← nullable (varchar 42) (r_contract_address rec);
  token_symbols ← mapM text (r_token_symbols rec);
  minimum_deposit ← decimal 20 8 (r_minimum_deposit rec);
  lock_period ← integer (r_lock_period rec);
  Ok {| r_protocol := protocol;
        r_pool_name := pool_name;
        r_apy := apy;
        r_tvl := tvl;
        r_risk_score := risk_score;
        r_category := category;
        r_chain := chain;
        r_contract_address := contract_address;
        r_token_symbols := token_symbols;
        r_minimum_deposit := minimum_deposit;
        r_lock_period := lock_period;
        r_last_updated := r_last_updated rec |}.

(** The statement of [store_yield_data] carried out for one tuple. *)
Definition execute_insert_yield (db : database) (rec : yield_record) : result database :=
  values ← yield_columns rec;
  Ok (insert_yield db values).

(** [INSERT INTO portfolio_snapshots ... VALUES (...)]. *)
Definition insert_snapshot (db : database) (portfolio_id : string)
    (total_value : Q) (allocations performance_metrics risk_metrics : json_doc)
    (timestamp : Z) : database :=
  let id := portfolio_snapshots_id_seq db + 1 in
  {| yield_data := yield_data db;
     yield_data_id_seq := yield_data_id_seq db;
     portfolio_snapshots :=
       portfolio_snapshots db ++
       [ {| sr_id := id;
            sr_portfolio_id := portfolio_id;
            sr_total_value := total_value;
            sr_allocations := allocations;
            sr_performance_metrics := performance_metrics;
            sr_risk_metrics := risk_metrics;
            sr_timestamp := timestamp;
            sr_created_at := db_now db |} ];
     portfolio_snapshots_id_seq := id;
     db_now := db_now db;
     db_fault := db_fault db |}.

(** *** DatabaseManager *)

Inductive pool : Type := Pool (connection_string : string).

Record DatabaseManager : Type := {
  connection_string : string;
  pool_ : option pool
}.

Section Methods.
Context (self : DatabaseManager).

(** [self.pool.acquire()]: without a pool the attribute access fails, and
    a server in failure refuses the connection. *)
Definition get_connection (db : database) : result unit :=
  match pool_ self with
  | None => Raise AttributeError
  | Some _ =>
      match db_fault db with
      | Some e => Raise e
      | None => Ok tt
      end
  end.

Definition yield_tuple (data : yield_dict) : result yield_record :=
  protocol ← subscript (yd_protocol data);
  apy ← subscript (yd_apy data);
  chain ← subscript (yd_chain data);
  last_updated ← subscript (yd_last_updated data);
  Ok {| r_protocol := protocol;
        r_pool_name := yd_pool_name data;
        r_apy := apy;
        r_tvl := dict_get (yd_tvl data) 0%Q;
        r_risk_score := dict_get (yd_risk_score data) 5;
        r_category := yd_category data;
        r_chain := chain;
        r_contract_address := yd_contract_address data;
        r_token_symbols := dict_get (yd_token_symbols data) [];
        r_minimum_deposit := dict_get (yd_minimum_deposit data) 0%Q;
        r_lock_period := dict_get (yd_lock_period data) 0;
        r_last_updated := last_updated |}.

(** The handler of [store_yield_data] logs and raises again, so the whole
    [try] is its body.  The tuples are all built before [executemany]
    sends the first one; when a tuple is refused the transaction is
    undone and the tables are as they were. *)
Definition store_yield_data (yield_data : list yield_dict) (db : database)
    : result Z * database :=
  match yield_data with
  | [] => (Ok 0, db)
  | _ =>
      match get_connection db with
      | Raise e => (Raise e, db)
      | Ok _ =>
          match mapM yield_tuple yield_data with
          | Raise e => (Raise e, db)
          | Ok records =>
              match executemany execute_insert_yield db records with
              | Raise e => (Raise e, db)
              | Ok db' => (Ok (Z.of_nat (length records)), db')
              end
          end
      end
  end.

Definition store_portfolio_snapshot (portfolio_id : string)
    (snapshot_data : snapshot_dict) (db : database) : bool * database :=
  let empty_dict := PDict [] in
  match
    (_ ← get_connection db;
     total_value ← subscript (sd_total_value snapshot_data);
     allocations ← subscript (sd_allocations snapshot_data) ≫= json_dumps;
     performance_metrics ←
       json_dumps (dict_get (sd_performance_metrics snapshot_data) empty_dict);
     risk_metrics ← json_dumps (dict_get (sd_risk_metrics snapshot_data) empty_dict);
     timestamp ← subscript (sd_timestamp snapshot_data);
     portfolio_id ← varchar 100 portfolio_id;
     total_value ← decimal 20 8 total_value;
     allocations ← jsonb allocations;
     performance_metrics ← jsonb performance_metrics;
     risk_metrics ← jsonb risk_metrics;
     Ok (insert_snapshot db portfolio_id total_value allocations
           performance_metrics risk_metrics timestamp))
  with
  | Ok db' => (true, db')
  | Raise e => (false, db)
  end.

End Methods.

(** *** The other tables *)

(** [price_data], [UNIQUE(symbol, timestamp, source)], all three NOT
    NULL. *)
Record price_row : Type := {
  pr_id : Z;
  pr_symbol : string;
  pr_price : Q;
  pr_volume : Q;
  pr_market_cap : Q;
  pr_price_change_24h : Q;
  pr_timestamp : Z;
  pr_source : string;
  pr_created_at : Z
}.

(** [market_data], [UNIQUE(timestamp)]. *)
Record market_row : Type := {
  mr_id : Z;
  mr_total_market_cap : Q;
  mr_total_volume_24h : Q;
  mr_btc_dominance : Q;
  mr_eth_dominance : Q;
  mr_defi_market_cap : Q;
  mr_fear_greed_index : Z;
  mr_timestamp : Z;
  mr_created_at : Z
}.

(** [ai_predictions], no uniqueness besides [id]. *)
Record prediction_row : Type := {
  ar_id : Z;
  ar_model_type : string;
  ar_input_data : json_doc;
  ar_prediction : json_doc;
  ar_confidence : Q;
  ar_model_version : string;
  ar_timestamp : Z;
  ar_created_at : Z
}.

(** The server with these three tables beside the two of [database],
    which also carries the clock and the failure. *)
Record warehouse : Type := {
  core : database;
  price_data : list price_row;
  price_data_id_seq : Z;
  market_data : list market_row;
  market_data_id_seq : Z;
  ai_predictions : list prediction_row;
  ai_predictions_id_seq : Z
}.

Record price_dict : Type := {
  pd_symbol : option string;
  pd_price : option Q;
  pd_volume : option Q;
  pd_market_cap : option Q;
  pd_price_change_24h : option Q;
  pd_timestamp : option Z;
  pd_source : option string
}.

Record price_record : Type := {
  p_symbol : string;
  p_price : Q;
  p_volume : Q;
  p_market_cap : Q;
  p_price_change_24h : Q;
  p_timestamp : Z;
  p_source : string
}.

Record market_dict : Type := {
  md_total_market_cap : option Q;
  md_total_volume_24h : option Q;
  md_btc_dominance : option Q;
  md_eth_dominance : option Q;
  md_defi_market_cap : option Q;
  md_fear_greed_index : option Z;
  md_timestamp : option Z
}.

(** The values bound to [$1 .. $7] of the market statement. *)
Record market_record : Type := {
  m_total_market_cap : Q;
  m_total_volume_24h : Q;
  m_btc_dominance : Q;
  m_eth_dominance : Q;
  m_defi_market_cap : Q;
  m_fear_greed_index : Z;
  m_timestamp : Z
}.

Definition price_conflicts (row : price_row) (rec : price_record) : bool :=
  String.eqb (pr_symbol row) (p_symbol rec)
  && (pr_timestamp row =? p_timestamp rec)%Z
  && String.eqb (pr_source row) (p_source rec).

(** [DO UPDATE SET price, volume, market_cap, price_change_24h]. *)
Definition price_do_update (row : price_row) (rec : price_record) : price_row :=
  {| pr_id := pr_id row;
     pr_symbol := pr_symbol row;
     pr_price := p_price rec;
     pr_volume := p_volume rec;
     pr_market_cap := p_market_cap rec;
     pr_price_change_24h := p_price_change_24h rec;
     pr_timestamp := pr_timestamp row;
     pr_source := pr_source row;
     pr_created_at := pr_created_at row |}.

Fixpoint price_on_conflict_update (rec : price_record) (rows : list price_row)
    : option (list price_row) :=
  match rows with
  | [] => None
  | row :: rest =>
      if price_conflicts row rec then Some (price_do_update row rec :: rest)
      else rows' ← price_on_conflict_update rec rest; Some (row :: rows')
  end.

Definition insert_price (w : warehouse) (rec : price_record) : warehouse :=
  let id := price_data_id_seq w + 1 in
  {| core := core w;
     price_data :=
       match price_on_conflict_update rec (price_data w) with
       | Some rows => rows
       | None =>
           price_data w ++
           [ {| pr_id := id;
                pr_symbol := p_symbol rec;
                pr_price := p_price rec;
                pr_volume := p_volume rec;
                pr_market_cap := p_market_cap rec;
                pr_price_change_24h := p_price_change_24h rec;
                pr_timestamp := p_timestamp rec;
                pr_source := p_source rec;
                pr_created_at := db_now (core w) |} ]
       end;
     price_data_id_seq := id;
     market_data := market_data w;
     market_data_id_seq := market_data_id_seq w;
     ai_predictions := ai_predictions w;
     ai_predictions_id_seq := ai_predictions_id_seq w |}.

(** The values of a tuple as the columns of [price_data] keep them. *)
Definition price_columns (rec : price_record) : result price_record :=
  symbol ← varchar 20 (p_symbol rec);
  price ← decimal 20 8 (p_price rec);
  volume ← decimal 20 8 (p_volume rec);
  market_cap ← decimal 20 2 (p_market_cap rec);
  price_change_24h ← decimal 10 4 (p_price_change_24h rec);
  source ← varchar 50 (p_source rec);
  Ok {| p_symbol := symbol;
        p_price := price;
        p_volume := volume;
        p_market_cap := market_cap;
        p_price_change_24h := price_change_24h;
        p_timestamp := p_timestamp rec;
        p_source := source |}.

Definition execute_insert_price (w : warehouse) (rec : price_record) : result warehouse :=
  values ← price_columns rec;
  Ok (insert_price w values).

(** A row of [market_data] with the given values. *)
Definition market_values (id created_at : Z) (total_market_cap total_volume_24h
    btc_dominance eth_dominance defi_market_cap : Q) (fear_greed_index timestamp : Z)
    : market_row :=
  {| mr_id := id;
     mr_total_market_cap := total_market_cap;
     mr_total_volume_24h := total_volume_24h;
     mr_btc_dominance := btc_dominance;
     mr_eth_dominance := eth_dominance;
     mr_defi_market_cap := defi_market_cap;
     mr_fear_greed_index := fear_greed_index;
     mr_timestamp := timestamp;
     mr_created_at := created_at |}.

(** [ON CONFLICT (timestamp) DO UPDATE] overwrites the six measures. *)
Fixpoint market_on_conflict_update (new : market_row) (rows : list market_row)
    : option (list market_row) :=
  match rows with
  | [] => None
  | row :: rest =>
      if (mr_timestamp row =? mr_timestamp new)%Z
      then Some (market_values (mr_id row) (mr_created_at row)
                   (mr_total_market_cap new) (mr_total_volume_24h new)
                   (mr_btc_dominance new) (mr_eth_dominance new)
                   (mr_defi_market_cap new) (mr_fear_greed_index new)
                   (mr_timestamp row) :: rest)
      else rows' ← market_on_conflict_update new rest; Some (row :: rows')
  end.

Definition insert_market (w : warehouse) (total_market_cap total_volume_24h
    btc_dominance eth_dominance defi_market_cap : Q) (fear_greed_index timestamp : Z)
    : warehouse :=
  let id := market_data_id_seq w + 1 in
  let new := market_values id (db_now (core w)) total_market_cap total_volume_24h
               btc_dominance eth_dominance defi_market_cap fear_greed_index timestamp in
  {| core := core w;
     price_data := price_data w;
     price_data_id_seq := price_data_id_seq w;
     market_data :=
       match market_on_conflict_update new (market_data w) with
       | Some rows => rows
       | None => market_data w ++ [new]
       end;
     market_data_id_seq := id;
     ai_predictions := ai_predictions w;
     ai_predictions_id_seq := ai_predictions_id_seq w |}.

(** The values of a tuple as the columns of [market_data] keep them. *)
Definition market_columns (rec : market_record) : result market_record :=
  total_market_cap ← decimal 20 2 (m_total_market_cap rec);
  total_volume_24h ← decimal 20 2 (m_total_volume_24h rec);
  btc_dominance ← decimal 5 2 (m_btc_dominance rec);
  eth_dominance ← decimal 5 2 (m_eth_dominance rec);
  defi_market_cap ← decimal 20 2 (m_defi_market_cap rec);
  fear_greed_index ← integer (m_fear_greed_index rec);
  Ok {| m_total_market_cap := total_market_cap;
        m_total_volume_24h := total_volume_24h;
        m_btc_dominance := btc_dominance;
        m_eth_dominance := eth_dominance;
        m_defi_market_cap := defi_market_cap;
        m_fear_greed_index := fear_greed_index;
        m_timestamp := m_timestamp rec |}.

Definition execute_insert_market (w : warehouse) (rec : market_record) : result warehouse :=
  values ← market_columns rec;
  Ok (insert_market w (m_total_market_cap values) (m_total_volume_24h values)
        (m_btc_dominance values) (m_eth_dominance values) (m_defi_market_cap values)
        (m_fear_greed_index values) (m_timestamp values)).

Definition insert_prediction (w : warehouse) (model_type : string)
    (input_data prediction : json_doc) (confidence : Q) (model_version : string)
    (timestamp : Z) : warehouse :=
  let id := ai_predictions_id_seq w + 1 in
  {| core := core w;
     price_data := price_data w;
     price_data_id_seq := price_data_id_seq w;
     market_data := market_data w;
     market_data_id_seq := market_data_id_seq w;
     ai_predictions :=
       ai_predictions w ++
       [ {| ar_id := id;
            ar_model_type := model_type;
            ar_input_data := input_data;
            ar_prediction := prediction;
            ar_confidence := confidence;
            ar_model_version := model_version;
            ar_timestamp := timestamp;
            ar_created_at := db_now (core w) |} ];
     ai_predictions_id_seq := id |}.

(** [SELECT ... ORDER BY timestamp DESC LIMIT 1]: the row with the
    greatest timestamp, the first of them in the table should the table
    hold several. *)
Definition latest_market (rows : list market_row) : option market_row :=
  foldl (fun best row =>
           match best with
           | None => Some row
           | Some b => if (mr_timestamp b <? mr_timestamp row)%Z then Some row else Some b
           end) None rows.

(** [datetime.now() - timedelta(days=days)] on instants in seconds.
    [None] stands for the [OverflowError] of a [timedelta] beyond
    999999999 days or of a date outside the years 1 to 9999. *)
Definition datetime_min : Z := -62135596800.
Definition datetime_max : Z := 253402300799.

Definition minus_days (now days : Z) : option Z :=
  let instant := now - days * 86400 in
  if (Z.abs days <=? 999999999)%Z && (datetime_min <=? instant)%Z
     && (instant <=? datetime_max)%Z
  then Some instant else None.

(** [DELETE FROM t WHERE created_at < $1]: the rows that stay, and the
    count in the command tag. *)
Definition delete_older {R : Type} (created_at : R -> Z) (cutoff : Z) (rows : list R)
    : list R * Z :=
  (List.filter (fun row => negb (created_at row <? cutoff)%Z) rows,
   Z.of_nat (length (List.filter (fun row => (created_at row <? cutoff)%Z) rows))).

Section OtherMethods.
Context (self : DatabaseManager).

Definition price_tuple (data : price_dict) : result price_record :=
  symbol ← subscript (pd_symbol data);
  price ← subscript (pd_price data);
  timestamp ← subscript (pd_timestamp data);
  Ok {| p_symbol := symbol;
        p_price := price;
        p_volume := dict_get (pd_volume data) 0%Q;
        p_market_cap := dict_get (pd_market_cap data) 0%Q;
        p_price_change_24h := dict_get (pd_price_change_24h data) 0%Q;
        p_timestamp := timestamp;
        p_source := dict_get (pd_source data) "unknown" |}.

(** Like [store_yield_data], [store_price_data] raises again what it
    catches, and a refused tuple undoes the batch. *)
Definition store_price_data (price_data : list price_dict) (w : warehouse)
    : result Z * warehouse :=
  match price_data with
  | [] => (Ok 0, w)
  | _ =>
      match get_connection self (core w) with
      | Raise e => (Raise e, w)
      | Ok _ =>
          match mapM price_tuple price_data with
          | Raise e => (Raise e, w)
          | Ok records =>
              match executemany execute_insert_price w records with
              | Raise e => (Raise e, w)
              | Ok w' => (Ok (Z.of_nat (length records)), w')
              end
          end
      end
  end.

Definition market_tuple (data : market_dict) : result market_record :=
  timestamp ← subscript (md_timestamp data);
  Ok {| m_total_market_cap := dict_get (md_total_market_cap data) 0%Q;
        m_total_volume_24h := dict_get (md_total_volume_24h data) 0%Q;
        m_btc_dominance := dict_get (md_btc_dominance data) 0%Q;
        m_eth_dominance := dict_get (md_eth_dominance data) 0%Q;
        m_defi_market_cap := dict_get (md_defi_market_cap data) 0%Q;
        m_fear_greed_index := dict_get (md_fear_greed_index data) 50;
        m_timestamp := timestamp |}.

Definition store_market_data (market_data : market_dict) (w : warehouse)
    : bool * warehouse :=
  match
    (_ ← get_connection self (core w);
     rec ← market_tuple market_data;
     execute_insert_market w rec)
  with
  | Ok w' => (true, w')
  | Raise e => (false, w)
  end.

Definition store_ai_prediction (model_type : string) (input_data prediction : pyval)
    (confidence : Q) (model_version : string) (w : warehouse) : bool * warehouse :=
  match
    (_ ← get_connection self (core w);
     input_data ← json_dumps input_data;
     prediction ← json_dumps prediction;
     model_type ← varchar 50 model_type;
     input_data ← jsonb input_data;
     prediction ← jsonb prediction;
     confidence ← decimal 3 2 confidence;
     model_version ← varchar 20 model_version;
     Ok (insert_prediction w model_type input_data prediction confidence model_version
           (db_now (core w))))
  with
  | Ok w' => (true, w')
  | Raise e => (false, w)
  end.

Definition get_latest_market_data (w : warehouse) : option market_row :=
  match get_connection self (core w) with
  | Ok _ => latest_market (market_data w)
  | Raise e => None
  end.

(** [cleanup_old_data]: four DELETE statements, each committed on its
    own, and the dict of their counts; the empty dict when anything
    raises.  The clock of the client ([datetime.now()]) and that of the
    server are taken to agree. *)
Definition cleanup_old_data (days_to_keep : Z) (w : warehouse)
    : gmap string Z * warehouse :=
  match minus_days (db_now (core w)) days_to_keep with
  | None => (∅, w)
  | Some cutoff_date =>
      match get_connection self (core w) with
      | Raise e => (∅, w)
      | Ok _ =>
          let '(prices, n_prices) := delete_older pr_created_at cutoff_date (price_data w) in
          let '(yields, n_yields) :=
            delete_older yr_created_at cutoff_date (yield_data (core w)) in
          let '(predictions, n_predictions) :=
            delete_older ar_created_at cutoff_date (ai_predictions w) in
          let cleanup_counts : gmap string Z :=
            <[ "ai_predictions" := n_predictions ]>
              (<[ "yield_data" := n_yields ]> (<[ "price_data" := n_prices ]> ∅)) in
          let core' snapshots :=
            {| yield_data := yields;
               yield_data_id_seq := yield_data_id_seq (core w);
               portfolio_snapshots := snapshots;
               portfolio_snapshots_id_seq := portfolio_snapshots_id_seq (core w);
               db_now := db_now (core w);
               db_fault := db_fault (core w) |} in
          let w' snapshots :=
            {| core := core' snapshots;
               price_data := prices;
               price_data_id_seq := price_data_id_seq w;
               market_data := market_data w;
               market_data_id_seq := market_data_id_seq w;
               ai_predictions := predictions;
               ai_predictions_id_seq := ai_predictions_id_seq w |} in
          match minus_days (db_now (core w)) 180 with
          | None => (∅, w' (portfolio_snapshots (core w)))
          | Some portfolio_cutoff =>
              let '(snapshots, n_snapshots) :=
                delete_older sr_created_at portfolio_cutoff
                  (portfolio_snapshots (core w)) in
              (<[ "portfolio_snapshots" := n_snapshots ]> cleanup_counts, w' snapshots)
          end
      end
  end.

End OtherMethods.

End Database.

(** * Specification-level definitions and scenarios *)

(** The score in the words of the specification: base 5 and six
    independent adjustments, clamped to [[1, 10]]. *)
Definition risk_score_spec (tvl age_days : Q) (blue_chip liquidity_pool : bool) : Z :=
  Z.max 1 (Z.min 10
    (5 + (if Qlt_le_dec 100000000 tvl then -1 else 0)
       + (if Qlt_le_dec tvl 1000000 then 2 else 0)
       + (if Qlt_le_dec 365 age_days then -1 else 0)
       + (if Qlt_le_dec age_days 30 then 2 else 0)
       + (if blue_chip then -1 else 0)
       + (if liquidity_pool then 1 else 0))).


(** The loop of [_deduplicate_opportunities] read as a recursion on the
    records still to come: what it appends from [l] on, given [seen]. *)
Fixpoint dedup_from (seen : gset (string * string)) (l : list YieldOpportunity)
    : list YieldOpportunity :=
  match l with
  | [] => []
  | opp :: r =>
      if decide (dedup_key opp ∈ seen) then dedup_from seen r
      else opp :: dedup_from ({[ dedup_key opp ]} ∪ seen) r
  end.

Definition has_key (k : string * string) (opp : YieldOpportunity) : bool :=
  bool_decide (dedup_key opp = k).

(** A reachable endpoint answering [body], and an unreachable one. *)
Definition answered {T : Type} (body : T) : result (response T) :=
  Ok {| status := 200; json := Ok body |}.

Definition mk_pool (apy tvl : Q) (chain project symbol pool : string) : llama_pool :=
  {| lp_apy := Some apy; lp_tvlUsd := Some tvl; lp_chain := Some chain;
     lp_exposure := None; lp_project := Some project; lp_symbol := Some symbol;
     lp_pool := Some pool; lp_poolMeta := None |}.

Definition mk_vault (net_apy tvl : Q) (name address : string) : yearn_vault :=
  {| yv_apy := Some {| net_apy := Some net_apy |};
     yv_tvl := Some {| tvl_tvl := Some tvl |};
     yv_name := Some name;
     yv_token := Some {| token_symbol := Some name |};
     yv_address := Some address |}.

Definition mk_upstream (pools : result (response llama_body))
    (vaults : result (response (list yearn_vault))) : upstream :=
  {| up_now := 1700000000;
     up_llama_pools := pools;
     up_yearn_vaults := vaults;
     up_beefy_vaults := Raise TimeoutError;
     up_beefy_apy := Raise TimeoutError;
     up_beefy_tvl := Raise TimeoutError |}.

(** DeFiLlama and Yearn list the same vault (same address, same name);
    Beefy times out. *)
Definition up_same_vault : upstream :=
  mk_upstream
    (answered {| lb_data := Some [mk_pool 5 2000000 "Ethereum" "yearn-finance" "USDC" "0xa354"] |})
    (answered [mk_vault (1 # 10) 50000000 "USDC" "0xa354"]).

(** Two DeFiLlama pools with the same apy; the first has the smaller tvl. *)
Definition up_tie : upstream :=
  mk_upstream
    (answered {| lb_data := Some [ mk_pool 5 2000000 "Ethereum" "morpho" "DAI" "0x01";
                                   mk_pool 5 50000000 "Ethereum" "aave" "USDT" "0x02" ] |})
    (answered []).

(** The same two pools listed the other way round. *)
Definition up_tie_swapped : upstream :=
  mk_upstream
    (answered {| lb_data := Some [ mk_pool 5 50000000 "Ethereum" "aave" "USDT" "0x02";
                                   mk_pool 5 2000000 "Ethereum" "morpho" "DAI" "0x01" ] |})
    (answered []).

(** The records the two collectors build for the vault of
    [up_same_vault]. *)
Definition same_vault_llama : YieldOpportunity :=
  {| protocol := "yearn-finance"; pool_name := "USDC"; apy := 5; tvl := 2000000;
     risk_score := 7; category := "other"; chain := "ethereum";
     token_symbols := ["USDC"]; contract_address := "0xa354";
     minimum_deposit := 0; lock_period := 0; last_updated := 1700000000 |}.

Definition same_vault_yearn : YieldOpportunity :=
  {| protocol := "Yearn"; pool_name := "USDC"; apy := (1 # 10) * 100; tvl := 50000000;
     risk_score := 3; category := "yield_farming"; chain := "ethereum";
     token_symbols := ["USDC"]; contract_address := "0xa354";
     minimum_deposit := 0; lock_period := 0; last_updated := 1700000000 |}.

(** The records built for the two pools of [up_tie]. *)
Definition tie_small : YieldOpportunity :=
  {| protocol := "morpho"; pool_name := "DAI"; apy := 5; tvl := 2000000;
     risk_score := 7; category := "other"; chain := "ethereum";
     token_symbols := ["DAI"]; contract_address := "0x01";
     minimum_deposit := 0; lock_period := 0; last_updated := 1700000000 |}.

Definition tie_large : YieldOpportunity :=
  {| protocol := "aave"; pool_name := "USDT"; apy := 5; tvl := 50000000;
     risk_score := 6; category := "lending"; chain := "ethereum";
     token_symbols := ["USDT"]; contract_address := "0x02";
     minimum_deposit := 0; lock_period := 0; last_updated := 1700000000 |}.

(** Decreasing order of the sort key. *)
Definition key_ge {A : Type} (key : A -> Q) (x y : A) : Prop := (key y <= key x)%Q.

Definition same_key {A : Type} (key : A -> Q) (a : Q) (x : A) : bool :=
  Qeq_bool (key x) a.

(** The chains a scan works with: the default list when the caller gives
    none. *)
Definition effective_chains (chains : option (list string)) : list string :=
  match chains with
  | None | Some [] => default_chains
  | Some cs => cs
  end.

(** The three tasks of a scan, in the order in which they are listed. *)
Inductive collector : Type := DeFiLlama | Yearn | Beefy.

Definition collectors : list collector := [DeFiLlama; Yearn; Beefy].

Definition collect (up : upstream) (min_apy min_tvl : Q) (chains : list string)
    (c : collector) : list YieldOpportunity :=
  match c with
  | DeFiLlama => _scan_defillama_yields up min_apy min_tvl chains
  | Yearn => _scan_yearn_yields up min_apy min_tvl
  | Beefy => _scan_beefy_yields up min_apy min_tvl chains
  end.

(** An endpoint fails: the request raises (network error, time-out), the
    status is not 200, or the body is not JSON. *)
Definition failed {T : Type} (r : result (response T)) : Prop :=
  match r with
  | Raise _ => True
  | Ok resp => status resp <> 200 \/ exists e, json resp = Raise e
  end.

Definition collector_failed (up : upstream) (c : collector) : Prop :=
  match c with
  | DeFiLlama => failed (up_llama_pools up)
  | Yearn => failed (up_yearn_vaults up)
  | Beefy => failed (up_beefy_vaults up) \/ failed (up_beefy_apy up)
             \/ failed (up_beefy_tvl up)
  end.

(** No provider can be reached. *)
Definition up_unreachable : upstream :=
  {| up_now := 1700000000;
     up_llama_pools := Raise ConnectionError;
     up_yearn_vaults := Raise ConnectionError;
     up_beefy_vaults := Raise ConnectionError;
     up_beefy_apy := Raise ConnectionError;
     up_beefy_tvl := Raise ConnectionError |}.

(** Every provider answers, and none lists anything. *)
Definition up_nothing_found : upstream :=
  {| up_now := 1700000000;
     up_llama_pools := answered {| lb_data := Some [] |};
     up_yearn_vaults := answered [];
     up_beefy_vaults := answered [];
     up_beefy_apy := answered ∅;
     up_beefy_tvl := answered ∅ |}.

(** DeFiLlama lists one pool (apy 5), Yearn one vault (apy 10), Beefy
    times out. *)
Definition up_partial : upstream :=
  mk_upstream
    (answered {| lb_data := Some [mk_pool 5 2000000 "Ethereum" "morpho" "DAI" "0x01"] |})
    (answered [mk_vault (1 # 10) 50000000 "USDC" "0xa354"]).

Definition beefy_down (c : collector) : bool :=
  match c with
  | Beefy => true
  | _ => false
  end.

(** A caller asks for Polygon only.  DeFiLlama lists a pool on Polygon
    and one on Ethereum, Yearn lists its Ethereum vault. *)
Definition up_polygon : upstream :=
  mk_upstream
    (answered {| lb_data := Some [ mk_pool 5 2000000 "Polygon" "morpho" "DAI" "0x01";
                                   mk_pool 7 2000000 "Ethereum" "morpho" "DAI" "0x03" ] |})
    (answered [mk_vault (1 # 10) 50000000 "USDC" "0xa354"]).

Definition polygon_pool : YieldOpportunity :=
  {| protocol := "morpho"; pool_name := "DAI"; apy := 5; tvl := 2000000;
     risk_score := 7; category := "other"; chain := "polygon";
     token_symbols := ["DAI"]; contract_address := "0x01";
     minimum_deposit := 0; lock_period := 0; last_updated := 1700000000 |}.

(** Names for two sub-expressions of [set]: the time to live it passes
    to SETEX and the bytes it stores. *)
Definition effective_ttl (self : Cache.CacheManager) (ttl : option Z)
    (data_type : string) : Z :=
  match ttl with
  | None => default 300 (Cache.default_ttls self !! data_type)
  | Some t => t
  end.

Definition serialize (value : pyval) : blob :=
  if Cache.is_dict_or_list value then BJson (json_dumps_default_str value)
  else pickle_dumps value.

(** The server after a SETEX at its current time. *)
Definition stored (key : string) (value : blob) (ttl : Z) (srv : redis_server)
    : redis_server :=
  {| rs_data := <[ key := (value, rs_now srv + ttl) ]> (rs_data srv);
     rs_now := rs_now srv;
     rs_fault := rs_fault srv |}.

(** Values that JSON represents as they are: no tuple and no object of
    another type at any depth. *)
Fixpoint json_value (value : pyval) : bool :=
  match value with
  | PNone | PBool _ | PInt _ | PFloat _ | PStr _ => true
  | PList items => forallb json_value items
  | PDict entries => forallb (fun kv => json_value (snd kv)) entries
  | PTuple _ | PObject _ => false
  end.

(** A client call answers when it returns a value rather than raising. *)
Definition answers {A : Type} (call : M A) (srv : redis_server) : Prop :=
  exists a srv', call srv = (Ok a, srv').

(** [{symbol: False for symbol in price_data_dict.keys()}]. *)
Definition all_false (prices : list (string * pyval)) : gmap string bool :=
  foldl (fun results symbol => <[ symbol := false ]> results) ∅ (fst <$> prices).

(** INFO and INCRBY as a server that is down answers them. *)
Definition info_refused : M redis_info_reply := raise ConnectionError.

Definition incrby_refused (key : string) (amount : Z) : M Z := raise ConnectionError.

(** A matcher for patterns of the form [prefix*], enough to try the
    operations that list keys; the server's matcher knows more forms. *)
Fixpoint prefix_glob (pattern key : string) : bool :=
  match pattern, key with
  | String "*" EmptyString, _ => true
  | String c p, String d k => Ascii.eqb c d && prefix_glob p k
  | EmptyString, EmptyString => true
  | _, _ => false
  end.

(** A manager after [initialize], and an empty, healthy server. *)
Definition connected : Cache.CacheManager :=
  {| Cache.redis_url := "redis://localhost:6379";
     Cache.redis := Some (Cache.RedisClient "redis://localhost:6379");
     Cache.default_ttls := Cache.default_ttls (Cache.CacheManager_init "redis://localhost:6379") |}.

Definition empty_server : redis_server :=
  {| rs_data := ∅; rs_now := 1700000000; rs_fault := None |}.

Definition down_server : redis_server :=
  {| rs_data := ∅; rs_now := 1700000000; rs_fault := Some ConnectionError |}.

(** In the scenarios below the stored bytes are JSON that parses or a
    pickle, so [get] never reads them as text; any rendering will do. *)
Definition unread_text (doc : json_doc) : string := "".

Definition snapshot_value : pyval :=
  PDict [("pool", PStr "USDC"); ("last_updated", PObject "2024-01-01 00:00:00")].

Definition snapshot_read_back : pyval :=
  PDict [("pool", PStr "USDC"); ("last_updated", PStr "2024-01-01 00:00:00")].

(** A quote as the price feed caches it: a float, an integer, a float
    that is not a number, a list. *)
Definition quote : pyval :=
  PDict [ ("symbol", PStr "ETH");
          ("price", PFloat (Finite (6001 # 2)));
          ("volume", PInt 12);
          ("change_24h", PFloat NaN);
          ("sources", PList [PStr "coingecko"; PNone; PBool true]) ].

Definition winner_1 : pyval := PDict [("owner", PStr "request-1")].
Definition winner_2 : pyval := PDict [("owner", PStr "request-2")].

(** Strict order of two items on their keys. *)
Definition item_lt {V : Type} (x y : string * V) : Prop :=
  String.ltb (fst x) (fst y) = true.

(** A rendering used to try [_generate_key] on integer parameters: the
    keys of the sorted items, each followed by a comma. *)
Definition keys_text (items : list (string * Z)) : string :=
  String.concat "" (map (fun kv : string * Z => String.append (fst kv) ",") items).

(** Two tuples with the same natural key. *)
Definition same_natural_key (r1 r2 : Database.yield_record) : Prop :=
  Database.r_protocol r1 = Database.r_protocol r2
  /\ Database.r_pool_name r1 = Database.r_pool_name r2
  /\ Database.r_chain r1 = Database.r_chain r2
  /\ Database.r_last_updated r1 = Database.r_last_updated r2.

Definition manager : Database.DatabaseManager :=
  {| Database.connection_string := "postgresql://localhost/flowbridge";
     Database.pool_ := Some (Database.Pool "postgresql://localhost/flowbridge") |}.

Definition empty_database : Database.database :=
  {| Database.yield_data := [];
     Database.yield_data_id_seq := 0;
     Database.portfolio_snapshots := [];
     Database.portfolio_snapshots_id_seq := 0;
     Database.db_now := 1700000000;
     Database.db_fault := None |}.

Definition yield_observation (pool_name : option string) (risk_score : Z)
    : Database.yield_dict :=
  {| Database.yd_protocol := Some "Yearn";
     Database.yd_pool_name := pool_name;
     Database.yd_apy := Some 10%Q;
     Database.yd_tvl := Some 50000000%Q;
     Database.yd_risk_score := Some risk_score;
     Database.yd_category := Some "yield_farming";
     Database.yd_chain := Some "ethereum";
     Database.yd_contract_address := Some "0xa354";
     Database.yd_token_symbols := Some ["USDC"];
     Database.yd_minimum_deposit := None;
     Database.yd_lock_period := None;
     Database.yd_last_updated := Some 1699999000 |}.

Definition yield_tuple_of (pool_name : option string) (risk_score : Z)
    : Database.yield_record :=
  {| Database.r_protocol := "Yearn";
     Database.r_pool_name := pool_name;
     Database.r_apy := 10%Q;
     Database.r_tvl := 50000000%Q;
     Database.r_risk_score := risk_score;
     Database.r_category := Some "yield_farming";
     Database.r_chain := "ethereum";
     Database.r_contract_address := Some "0xa354";
     Database.r_token_symbols := ["USDC"];
     Database.r_minimum_deposit := 0%Q;
     Database.r_lock_period := 0;
     Database.r_last_updated := 1699999000 |}.

(** The tuple as the columns of [yield_data] keep it: [apy] with four
    decimal places, [tvl] with two, [minimum_deposit] with eight. *)
Definition yield_values_of (pool_name : option string) (risk_score : Z)
    : Database.yield_record :=
  {| Database.r_protocol := "Yearn";
     Database.r_pool_name := pool_name;
     Database.r_apy := (100000 # 10000)%Q;
     Database.r_tvl := (5000000000 # 100)%Q;
     Database.r_risk_score := risk_score;
     Database.r_category := Some "yield_farming";
     Database.r_chain := "ethereum";
     Database.r_contract_address := Some "0xa354";
     Database.r_token_symbols := ["USDC"];
     Database.r_minimum_deposit := (0 # 100000000)%Q;
     Database.r_lock_period := 0;
     Database.r_last_updated := 1699999000 |}.

(** An observation whose [apy], ten million per cent, has more digits
    than [DECIMAL(10, 4)] holds. *)
Definition unstorable_observation : Database.yield_dict :=
  {| Database.yd_protocol := Some "Yearn";
     Database.yd_pool_name := Some "USDC";
     Database.yd_apy := Some 10000000%Q;
     Database.yd_tvl := None;
     Database.yd_risk_score := None;
     Database.yd_category := None;
     Database.yd_chain := Some "ethereum";
     Database.yd_contract_address := None;
     Database.yd_token_symbols := None;
     Database.yd_minimum_deposit := None;
     Database.yd_lock_period := None;
     Database.yd_last_updated := Some 1699999000 |}.

Definition empty_warehouse : Database.warehouse :=
  {| Database.core := empty_database;
     Database.price_data := [];
     Database.price_data_id_seq := 0;
     Database.market_data := [];
     Database.market_data_id_seq := 0;
     Database.ai_predictions := [];
     Database.ai_predictions_id_seq := 0 |}.

Definition snapshot : Database.snapshot_dict :=
  {| Database.sd_total_value := Some 1000%Q;
     Database.sd_allocations := Some (PDict [("USDC", PInt 100)]);
     Database.sd_performance_metrics := None;
     Database.sd_risk_metrics := None;
     Database.sd_timestamp := Some 1699999000 |}.

Definition snapshot_key (row : Database.snapshot_row) : string * Z :=
  (Database.sr_portfolio_id row, Database.sr_timestamp row).

(** * Further specification-level definitions and scenarios *)

(** The chains [scan_staking_opportunities] works with. *)
Definition staking_chains (chains : option (list string)) : list string :=
  match chains with
  | None | Some [] => ["ethereum"; "polygon"; "avalanche"]
  | Some cs => cs
  end.

(** The points [get_yield_trends] makes of the entries of a chart. *)
Definition chart_points (fromisoformat : string -> result Z)
    (entries : list chart_entry) : result (list trend) :=
  mapM (fun entry : chart_entry =>
          timestamp ← fromisoformat (dict_get (ce_timestamp entry) "");
          Ok {| tr_timestamp := timestamp;
                tr_apy := dict_get (ce_apy entry) 0%Q;
                tr_tvl := dict_get (ce_tvlUsd entry) 0%Q |}) entries.

(** A chart of five daily entries whose timestamps are one digit, and a
    reader of such timestamps. *)
Definition digit_instant (s : string) : result Z :=
  match s with
  | String c EmptyString =>
      let n := N_of_ascii c in
      if ((48 <=? n) && (n <=? 57))%N then Ok (Z.of_N n - 48) else Raise ValueError
  | _ => Raise ValueError
  end.

Definition five_days (pool_id : string) : result (response chart_body) :=
  answered {| cb_data := Some (map (fun day => {| ce_timestamp := Some day;
                                                  ce_apy := Some 5%Q;
                                                  ce_tvlUsd := None |})
                                 ["1"; "2"; "3"; "4"; "5"]) |}.

Definition five_points : list trend :=
  map (fun t => {| tr_timestamp := t; tr_apy := 5%Q; tr_tvl := 0%Q |}) [1; 2; 3; 4; 5].

(** [str.upper()] as it acts on a text of ASCII characters, the ticker
    symbols of the examples. *)
Definition upper_of_ascii (s : string) : string :=
  string_of_list_ascii
    (map (fun c => let n := N_of_ascii c in
                   if ((97 <=? n) && (n <=? 122))%N then ascii_of_N (n - 32) else c)
       (list_ascii_of_string s)).

Definition price_eth : pyval := PDict [("symbol", PStr "ETH"); ("price", PInt 3000)].

(** A healthy server holding a price and a market snapshot. *)
Definition two_keys : redis_server :=
  stored "price:ETH" (serialize price_eth) 60
    (stored "market_data:latest" (serialize winner_1) 180 empty_server).

Definition two_keys_down : redis_server :=
  {| rs_data := rs_data two_keys; rs_now := rs_now two_keys;
     rs_fault := Some ConnectionError |}.

(** The keys that KEYS answers on a healthy server. *)
Definition matching_keys (glob_match : string -> string -> bool) (pattern : string)
    (srv : redis_server) : list string :=
  List.filter (fun key => bool_decide (is_Some (live srv key)) && glob_match pattern key)
    (fst <$> map_to_list (rs_data srv)).

(** The natural key of a yield row when none of its columns is NULL. *)
Definition yield_full_key (row : Database.yield_row)
    : option (string * string * string * Z) :=
  match Database.yr_pool_name row with
  | Some pool_name =>
      Some (Database.yr_protocol row, pool_name, Database.yr_chain row,
            Database.yr_last_updated row)
  | None => None
  end.

Definition record_full_key (rec : Database.yield_record)
    : option (string * string * string * Z) :=
  match Database.r_pool_name rec with
  | Some pool_name =>
      Some (Database.r_protocol rec, pool_name, Database.r_chain rec,
            Database.r_last_updated rec)
  | None => None
  end.

(** The columns of a yield row that no upsert writes. *)
Definition yield_fixed_columns (row : Database.yield_row) :=
  (Database.yr_id row, Database.yr_protocol row, Database.yr_pool_name row,
   Database.yr_chain row, Database.yr_last_updated row, Database.yr_created_at row,
   Database.yr_category row, Database.yr_contract_address row,
   Database.yr_token_symbols row, Database.yr_minimum_deposit row,
   Database.yr_lock_period row).

(** A yield dict with the four keys that [store_yield_data] subscripts. *)
Definition yield_complete (data : Database.yield_dict) : bool :=
  bool_decide (is_Some (Database.yd_protocol data))
  && bool_decide (is_Some (Database.yd_apy data))
  && bool_decide (is_Some (Database.yd_chain data))
  && bool_decide (is_Some (Database.yd_last_updated data)).

(** The dicts whose values the columns of [yield_data] take. *)
Definition yield_storable (data : Database.yield_dict) : bool :=
  match Database.yield_tuple data ≫= Database.yield_columns with
  | Ok _ => true
  | Raise _ => false
  end.

Definition price_key (row : Database.price_row) : string * Z * string :=
  (Database.pr_symbol row, Database.pr_timestamp row, Database.pr_source row).

Definition price_record_key (rec : Database.price_record) : string * Z * string :=
  (Database.p_symbol rec, Database.p_timestamp rec, Database.p_source rec).

(** The values that [json.dumps] writes without [default] and that a
    [JSONB] column then takes: no object of an unknown type at any
    depth, no NaN and no infinity, no integer beyond the digits of
    [numeric], no NUL in a string or a key. *)
Fixpoint jsonb_value (value : pyval) : bool :=
  match value with
  | PNone | PBool _ => true
  | PInt z => Database.numeric_fits z
  | PFloat (Finite _) => true
  | PFloat _ => false
  | PStr s => negb (Database.has_nul s)
  | PList items | PTuple items => forallb jsonb_value items
  | PDict entries =>
      forallb (fun kv => negb (Database.has_nul (fst kv)) && jsonb_value (snd kv)) entries
  | PObject _ => false
  end.

Definition price_tick (symbol : option string) (price : Q) (source : option string)
    : Database.price_dict :=
  {| Database.pd_symbol := symbol;
     Database.pd_price := Some price;
     Database.pd_volume := None;
     Database.pd_market_cap := None;
     Database.pd_price_change_24h := None;
     Database.pd_timestamp := Some 1699999000;
     Database.pd_source := source |}.

Definition market_tick (timestamp : Z) (fear_greed_index : Z) : Database.market_dict :=
  {| Database.md_total_market_cap := Some 2000000000000%Q;
     Database.md_total_volume_24h := None;
     Database.md_btc_dominance := Some 50%Q;
     Database.md_eth_dominance := None;
     Database.md_defi_market_cap := None;
     Database.md_fear_greed_index := Some fear_greed_index;
     Database.md_timestamp := Some timestamp |}.

(** A snapshot with a dominance of a thousand per cent, more than
    [DECIMAL(5, 2)] holds. *)
Definition dominance_1000 : Database.market_dict :=
  {| Database.md_total_market_cap := None;
     Database.md_total_volume_24h := None;
     Database.md_btc_dominance := Some 1000%Q;
     Database.md_eth_dominance := None;
     Database.md_defi_market_cap := None;
     Database.md_fear_greed_index := None;
     Database.md_timestamp := Some 1699999000 |}.

(** A snapshot row created at a given instant. *)
Definition snapshot_created (id created_at : Z) : Database.snapshot_row :=
  {| Database.sr_id := id;
     Database.sr_portfolio_id := "portfolio-1";
     Database.sr_total_value := 1000;
     Database.sr_allocations := JObj [];
     Database.sr_performance_metrics := JObj [];
     Database.sr_risk_metrics := JObj [];
     Database.sr_timestamp := created_at;
     Database.sr_created_at := created_at |}.

(** A warehouse at instant 1700000000 holding snapshots created 100, 179
    and 181 days earlier. *)
Definition old_snapshots : Database.warehouse :=
  {| Database.core :=
       {| Database.yield_data := [];
          Database.yield_data_id_seq := 0;
          Database.portfolio_snapshots :=
            [ snapshot_created 1 (1700000000 - 181 * 86400);
              snapshot_created 2 (1700000000 - 179 * 86400);
              snapshot_created 3 (1700000000 - 100 * 86400) ];
          Database.portfolio_snapshots_id_seq := 3;
          Database.db_now := 1700000000;
          Database.db_fault := None |};
     Database.price_data := [];
     Database.price_data_id_seq := 0;
     Database.market_data := [];
     Database.market_data_id_seq := 0;
     Database.ai_predictions := [];
     Database.ai_predictions_id_seq := 0 |}.
(** * Properties *)

(** ** Comparisons *)

Lemma py_gt_lt (a b : Q) : py_gt a b = true <-> (b < a)%Q.
Proof.
  unfold py_gt. rewrite negb_true_iff, <- not_true_iff_false, Qle_bool_iff.
  split; [apply Qnot_le_lt | apply Qlt_not_le].
Qed.

Lemma py_lt_lt (a b : Q) : py_lt a b = true <-> (a < b)%Q.
Proof. apply py_gt_lt. Qed.

Lemma py_ge_le (a b : Q) : py_ge a b = true <-> (b <= a)%Q.
Proof. apply Qle_bool_iff. Qed.

Lemma py_gt_false (a b : Q) : py_gt a b = false <-> (a <= b)%Q.
Proof.
  unfold py_gt. rewrite negb_false_iff. apply Qle_bool_iff.
Qed.

(** ** The risk score *)

Lemma py_gt_dec (a b : Q) : py_gt a b = if Qlt_le_dec b a then true else false.
Proof.
  destruct (Qlt_le_dec b a) as [H | H].
  - apply py_gt_lt, H.
  - apply py_gt_false, H.
Qed.

Lemma py_lt_dec (a b : Q) : py_lt a b = if Qlt_le_dec a b then true else false.
Proof. apply py_gt_dec. Qed.

(** C6.  For every pool record [_calculate_risk_score] is the clamp to
    [[1, 10]] of base 5, minus 1 if tvl > 1e8, plus 2 if tvl < 1e6, minus 1
    if age_days > 365, plus 2 if age_days < 30, minus 1 if the project is
    one of the four blue-chip protocols, plus 1 if the symbol marks a
    liquidity-pool position; the score therefore lies in [[1, 10]]. *)
Theorem calculate_risk_score_spec (pool_data : llama_pool) :
  let tvl := dict_get (lp_tvlUsd pool_data) 0%Q in
  let age_days :=
    dict_get (ageDays (dict_get (lp_poolMeta pool_data) {| ageDays := None |})) 0%Q in
  let blue_chip :=
    str_in (lower (dict_get (lp_project pool_data) ""))
      ["aave"; "compound"; "uniswap"; "curve"] in
  let liquidity_pool := contains "lp" (lower (dict_get (lp_symbol pool_data) "")) in
  _calculate_risk_score pool_data = risk_score_spec tvl age_days blue_chip liquidity_pool
  /\ 1 <= _calculate_risk_score pool_data <= 10.
Proof.
  intros tvl age_days blue_chip liquidity_pool. split.
  - unfold _calculate_risk_score, risk_score_spec, clamp_1_10.
    fold tvl age_days blue_chip liquidity_pool.
    rewrite !py_gt_dec, !py_lt_dec.
    destruct (Qlt_le_dec 100000000 tvl) as [H1 | H1],
             (Qlt_le_dec tvl 1000000) as [H2 | H2];
      try (exfalso; apply (Qlt_irrefl tvl);
           eapply Qlt_trans; [exact H2 |];
           eapply Qlt_trans; [| exact H1]; reflexivity);
      destruct (Qlt_le_dec 365 age_days) as [H3 | H3],
               (Qlt_le_dec age_days 30) as [H4 | H4];
      try (exfalso; apply (Qlt_irrefl age_days);
           eapply Qlt_trans; [exact H4 |];
           eapply Qlt_trans; [| exact H3]; reflexivity);
      destruct blue_chip, liquidity_pool; reflexivity.
  - unfold _calculate_risk_score, clamp_1_10. lia.
Qed.

(** ** Deduplication *)

Lemma foldl_dedup_step seen acc l :
  snd (foldl dedup_step (seen, acc) l) = acc ++ dedup_from seen l.
Proof.
  revert seen acc. induction l as [| opp r IH]; intros seen acc; simpl.
  - by rewrite app_nil_r.
  - destruct (decide (dedup_key opp ∈ seen)); rewrite IH; [done |].
    by rewrite <- app_assoc.
Qed.

Lemma deduplicate_dedup_from l :
  _deduplicate_opportunities l = dedup_from ∅ l.
Proof. unfold _deduplicate_opportunities. by rewrite foldl_dedup_step. Qed.

Lemma dedup_from_unseen seen l opp :
  opp ∈ dedup_from seen l -> opp ∈ l /\ dedup_key opp ∉ seen.
Proof.
  revert seen. induction l as [| o r IH]; intros seen; simpl.
  - by intros ?%elem_of_nil.
  - destruct (decide (dedup_key o ∈ seen)) as [Hin | Hout].
    + intros H. destruct (IH _ H) as [? ?]. split; [by right | done].
    + intros H. apply elem_of_cons in H as [-> | H']; [split; [by left | done] |].
      destruct (IH _ H') as [? Hk]. split; [by right |].
      intros Hs. apply Hk, elem_of_union. by right.
Qed.

Lemma dedup_from_NoDup seen l : NoDup (dedup_key <$> dedup_from seen l).
Proof.
  revert seen. induction l as [| o r IH]; intros seen; simpl.
  - constructor.
  - destruct (decide (dedup_key o ∈ seen)); [apply IH |].
    rewrite fmap_cons. constructor; [| apply IH].
    intros H. apply list_elem_of_fmap in H as (o' & Heq & H').
    destruct (dedup_from_unseen _ _ _ H') as [_ Hk].
    apply Hk, elem_of_union. left. by apply elem_of_singleton.
Qed.

Lemma dedup_from_find seen l k :
  find (has_key k) (dedup_from seen l) =
  if decide (k ∈ seen) then None else find (has_key k) l.
Proof.
  revert seen. induction l as [| o r IH]; intros seen; simpl.
  - by destruct (decide (k ∈ seen)).
  - destruct (decide (dedup_key o ∈ seen)) as [Hin | Hout].
    + rewrite IH. destruct (decide (k ∈ seen)) as [Hk | Hk]; [done |].
      unfold has_key at 2. rewrite bool_decide_eq_false_2; [done | congruence].
    + simpl. unfold has_key at 1 3.
      destruct (bool_decide_reflect (dedup_key o = k)) as [<- | Hne].
      * by rewrite decide_False.
      * rewrite IH. destruct (decide (k ∈ seen)) as [Hk | Hk].
        -- rewrite decide_True; [done |]. apply elem_of_union. by right.
        -- rewrite decide_False; [done |].
           intros [Hs%elem_of_singleton | Hs]%elem_of_union; congruence.
Qed.

(** C3, as the code has it.  After deduplication no two records share a
    dedup key, and for every key the record that is kept is the first one
    with that key in the list of collected records, which is put together
    in the fixed order DeFiLlama, Yearn, Beefy: between two records with
    the same key it is the one of the source processed earlier. *)
Theorem deduplicate_keeps_first (opportunities : list YieldOpportunity) :
  NoDup (dedup_key <$> _deduplicate_opportunities opportunities)
  /\ forall k, find (has_key k) (_deduplicate_opportunities opportunities)
               = find (has_key k) opportunities.
Proof.
  rewrite deduplicate_dedup_from. split.
  - apply dedup_from_NoDup.
  - intros k. rewrite dedup_from_find. by rewrite decide_False by set_solver.
Qed.

(** C3, the claim refuted.  DeFiLlama and Yearn both list the vault
    [0xa354]/[USDC]; the two records share their dedup key, and the scan
    answers the record of DeFiLlama, the source processed first, not the
    one of Yearn, processed after it. *)
Lemma later_source_record_dropped :
  _scan_defillama_yields up_same_vault 1 100000 default_chains = [same_vault_llama]
  /\ _scan_yearn_yields up_same_vault 1 100000 = [same_vault_yearn]
  /\ dedup_key same_vault_llama = dedup_key same_vault_yearn
  /\ _deduplicate_opportunities [same_vault_llama; same_vault_yearn] = [same_vault_llama]
  /\ scan_yield_opportunities up_same_vault 1 100000 None = [same_vault_llama]
  /\ same_vault_yearn ∉ scan_yield_opportunities up_same_vault 1 100000 None.
Proof.
  assert (Hscan : scan_yield_opportunities up_same_vault 1 100000 None
                  = [same_vault_llama]) by (vm_compute; reflexivity).
  repeat split; try (vm_compute; reflexivity).
  rewrite Hscan. intros Hin%list_elem_of_singleton. discriminate Hin.
Qed.

(** ** The aggregator *)

Lemma scan_yield_opportunities_eq up min_apy min_tvl chains :
  scan_yield_opportunities up min_apy min_tvl chains =
  sorted_reverse apy
    (_deduplicate_opportunities
       (_scan_defillama_yields up min_apy min_tvl (effective_chains chains)
        ++ _scan_yearn_yields up min_apy min_tvl
        ++ _scan_beefy_yields up min_apy min_tvl (effective_chains chains))).
Proof.
  unfold scan_yield_opportunities, try_except, gather, extend_results. simpl.
  rewrite <- app_assoc.
  by destruct chains as [[| c cs] |].
Qed.

(** ** Sorting *)

Section SortedReverseFacts.
Context {A : Type} (key : A -> Q).

Lemma insert_desc_perm x l : insert_desc key x l ≡ₚ x :: l.
Proof.
  induction l as [| y r IH]; simpl; [done |].
  destruct (py_gt (key y) (key x)); [| done].
  rewrite IH. apply perm_swap.
Qed.

Lemma sorted_reverse_perm l : sorted_reverse key l ≡ₚ l.
Proof.
  induction l as [| x r IH]; simpl; [done |].
  fold (sorted_reverse key r). by rewrite insert_desc_perm, IH.
Qed.

Lemma insert_desc_sorted x l :
  StronglySorted (key_ge key) l -> StronglySorted (key_ge key) (insert_desc key x l).
Proof.
  induction 1 as [| y r Hr IH Hy]; simpl.
  - repeat constructor.
  - destruct (py_gt (key y) (key x)) eqn:Hgt.
    + constructor; [exact IH |].
      apply py_gt_lt, Qlt_le_weak in Hgt.
      rewrite (insert_desc_perm x r). by constructor.
    + apply py_gt_false in Hgt.
      constructor; [by constructor |].
      constructor; [exact Hgt |].
      eapply Forall_impl; [exact Hy |].
      intros z Hz. unfold key_ge in *. by eapply Qle_trans.
Qed.

Lemma sorted_reverse_sorted l : StronglySorted (key_ge key) (sorted_reverse key l).
Proof.
  induction l as [| x r IH]; simpl; [constructor |].
  by apply insert_desc_sorted.
Qed.

Lemma insert_desc_stable a x l :
  List.filter (same_key key a) (insert_desc key x l) =
  List.filter (same_key key a) (x :: l).
Proof.
  induction l as [| y r IH]; [done |].
  cbn [insert_desc].
  destruct (py_gt (key y) (key x)) eqn:Hgt; [| done].
  cbn [List.filter] in *. rewrite IH.
  destruct (same_key key a x) eqn:Hx, (same_key key a y) eqn:Hy; try done.
  exfalso. unfold same_key in *.
  apply Qeq_bool_iff in Hx, Hy. apply py_gt_lt in Hgt.
  rewrite Hx, Hy in Hgt. by apply Qlt_irrefl in Hgt.
Qed.

Lemma sorted_reverse_stable a l :
  List.filter (same_key key a) (sorted_reverse key l) = List.filter (same_key key a) l.
Proof.
  induction l as [| x r IH]; [done |].
  unfold sorted_reverse. cbn [foldr]. fold (sorted_reverse key r).
  rewrite insert_desc_stable. cbn [List.filter]. by rewrite IH.
Qed.

End SortedReverseFacts.

(** C4, as the code has it.  The scan answers the deduplicated records
    sorted on [apy] alone, in decreasing order; records with the same apy
    keep the order they have in the deduplicated list, which follows the
    order of the tasks (DeFiLlama, Yearn, Beefy) and, within a task, the
    order of the provider's listing.  Neither tvl nor the protocol name
    takes part in the order. *)
Theorem scan_sorted_by_apy_stable (up : upstream) (min_apy min_tvl : Q)
    (chains : option (list string)) :
  let unique_opportunities :=
    _deduplicate_opportunities
      (flat_map (collect up min_apy min_tvl (effective_chains chains)) collectors) in
  let ranked := scan_yield_opportunities up min_apy min_tvl chains in
  ranked ≡ₚ unique_opportunities
  /\ StronglySorted (key_ge apy) ranked
  /\ forall a, List.filter (same_key apy a) ranked
               = List.filter (same_key apy a) unique_opportunities.
Proof.
  intros unique_opportunities ranked.
  assert (ranked = sorted_reverse apy unique_opportunities) as ->.
  { unfold ranked, unique_opportunities. rewrite scan_yield_opportunities_eq.
    simpl. by rewrite app_nil_r. }
  split; [apply sorted_reverse_perm |].
  split; [apply sorted_reverse_sorted |].
  intros a. apply sorted_reverse_stable.
Qed.

(** C4, the claim refuted.  Two pools with the same apy come out in the
    order of the provider's listing, the smaller tvl first; listed the
    other way round, the same two records come out the other way round. *)
Lemma apy_ties_keep_listing_order :
  scan_yield_opportunities up_tie 1 100000 None = [tie_small; tie_large]
  /\ (apy tie_small == apy tie_large)%Q
  /\ (tvl tie_small < tvl tie_large)%Q
  /\ scan_yield_opportunities up_tie_swapped 1 100000 None = [tie_large; tie_small].
Proof.
  repeat split; vm_compute; reflexivity.
Qed.

(** ** Failing collectors *)

Lemma failed_body {T A : Type} (r : result (response T)) (k : T -> result (list A)) :
  failed r ->
  try_except
    (response ← r;
     if negb (status response =? 200)%Z then Ok [] else data ← json response; k data)
    (fun e => []) = [].
Proof.
  destruct r as [resp | e]; simpl; [| done].
  intros [Hstatus | [e He]].
  - apply Z.eqb_neq in Hstatus. by rewrite Hstatus.
  - destruct (status resp =? 200)%Z; simpl; [| done]. by rewrite He.
Qed.

Lemma collector_failed_empty up min_apy min_tvl chains c :
  collector_failed up c -> collect up min_apy min_tvl chains c = [].
Proof.
  destruct c; simpl.
  - apply failed_body.
  - apply failed_body.
  - unfold _scan_beefy_yields. intros Hfail.
    destruct (up_beefy_vaults up) as [r1 | e1]; simpl in *; [| done].
    destruct (status r1 =? 200)%Z eqn:Hs1; simpl; [| done].
    destruct (json r1) as [vaults | e1]; simpl; [| done].
    destruct (up_beefy_apy up) as [r2 | e2]; simpl in *; [| done].
    destruct (status r2 =? 200)%Z eqn:Hs2; simpl; [| done].
    destruct (json r2) as [apy_data | e2]; simpl; [| done].
    destruct (up_beefy_tvl up) as [r3 | e3]; simpl in *; [| done].
    destruct (status r3 =? 200)%Z eqn:Hs3; simpl; [| done].
    destruct (json r3) as [tvl_data | e3]; simpl; [| done].
    apply Z.eqb_eq in Hs1, Hs2, Hs3.
    destruct Hfail as [[? | [? ?]] | [[? | [? ?]] | [? | [? ?]]]]; done.
Qed.

(** C2, as the code has it.  The scan answers the ranked list alone.  A
    collector whose endpoint fails or times out contributes the empty
    list, and the answer is the ranking of what the other collectors
    return; when all three fail it is the empty list.  No status of the
    sources is returned. *)
Theorem scan_fail_partial (up : upstream) (min_apy min_tvl : Q)
    (chains : option (list string)) (down : collector -> bool) :
  (forall c, down c = true -> collector_failed up c) ->
  scan_yield_opportunities up min_apy min_tvl chains =
    sorted_reverse apy
      (_deduplicate_opportunities
         (flat_map (fun c => if down c then []
                             else collect up min_apy min_tvl (effective_chains chains) c)
            collectors))
  /\ ((forall c, down c = true) ->
      scan_yield_opportunities up min_apy min_tvl chains = []).
Proof.
  intros Hdown.
  assert (Hc : forall c,
             (if down c then []
              else collect up min_apy min_tvl (effective_chains chains) c)
             = collect up min_apy min_tvl (effective_chains chains) c).
  { intros c. destruct (down c) eqn:Hd; [| done].
    symmetry. by apply collector_failed_empty, Hdown. }
  assert (Heq : scan_yield_opportunities up min_apy min_tvl chains =
                sorted_reverse apy
                  (_deduplicate_opportunities
                     (flat_map (fun c => if down c then []
                                 else collect up min_apy min_tvl (effective_chains chains) c)
                        collectors))).
  { rewrite scan_yield_opportunities_eq. simpl. by rewrite !Hc, app_nil_r. }
  split; [exact Heq |].
  intros Hall. rewrite Heq. simpl. by rewrite !Hall.
Qed.

Lemma scan_fail_partial_witness :
  scan_yield_opportunities up_partial 1 100000 None = [same_vault_yearn; tie_small].
Proof.
  destruct (scan_fail_partial up_partial 1 100000 None beefy_down) as [Heq _].
  - intros [] Hd; try discriminate Hd. left. exact I.
  - rewrite Heq. vm_compute. reflexivity.
Defined.

(** C2, the claim refuted.  With every provider unreachable the scan
    answers what it answers when every provider is reached and lists
    nothing: the empty list, with nothing that tells the two apart. *)
Lemma unreachable_looks_like_nothing_found :
  (forall c, collector_failed up_unreachable c)
  /\ (forall c, ~ collector_failed up_nothing_found c)
  /\ scan_yield_opportunities up_unreachable 1 100000 None = []
  /\ scan_yield_opportunities up_nothing_found 1 100000 None = [].
Proof.
  split; [intros []; simpl; tauto |].
  split.
  - intros []; simpl; intros H;
      repeat match goal with
             | H : _ \/ _ |- _ => destruct H as [H | H]
             | H : exists _, _ |- _ => destruct H as [? H]
             end; done.
  - split; vm_compute; reflexivity.
Qed.

(** ** Caller filters *)

Lemma elem_of_scan up min_apy min_tvl chains opp :
  opp ∈ scan_yield_opportunities up min_apy min_tvl chains ->
  exists c, opp ∈ collect up min_apy min_tvl (effective_chains chains) c.
Proof.
  rewrite scan_yield_opportunities_eq, sorted_reverse_perm, deduplicate_dedup_from.
  intros [Hin _]%dedup_from_unseen.
  apply elem_of_app in Hin as [Hin | Hin]; [by exists DeFiLlama |].
  apply elem_of_app in Hin as [Hin | Hin]; [by exists Yearn | by exists Beefy].
Qed.

Lemma elem_of_try_take {A T : Type} (r : result (response T))
    (k : T -> result (list A)) (x : A) :
  x ∈ try_except
        (response ← r;
         if negb (status response =? 200)%Z then Ok [] else data ← json response; k data)
        (fun e => []) ->
  exists data l, k data = Ok l /\ x ∈ l.
Proof.
  destruct r as [resp | e]; simpl; [| by intros ?%elem_of_nil].
  destruct (status resp =? 200)%Z; simpl; [| by intros ?%elem_of_nil].
  destruct (json resp) as [data | e]; simpl; [| by intros ?%elem_of_nil].
  destruct (k data) as [l | e] eqn:Hk; simpl; [| by intros ?%elem_of_nil].
  intros Hin. by exists data, l.
Qed.

Lemma elem_of_take_omap {A B : Type} (f : A -> option B) (n : nat) (l : list A) (y : B) :
  y ∈ take n (omap f l) -> exists x, x ∈ l /\ f x = Some y.
Proof.
  intros Hin. apply list_elem_of_omap.
  eapply elem_of_submseteq; [exact Hin |].
  apply sublist_submseteq, sublist_take.
Qed.

(** X1.  The thresholds hold of every record of a scan, and so does the
    chain filter for the records of DeFiLlama and Beefy; a record of
    Yearn is on Ethereum whatever the caller asked for. *)
Lemma scan_respects_thresholds up min_apy min_tvl chains opp :
  opp ∈ scan_yield_opportunities up min_apy min_tvl chains ->
  (min_apy <= apy opp)%Q /\ (min_tvl <= tvl opp)%Q
  /\ (str_in (chain opp) (effective_chains chains) = true
      \/ protocol opp = "Yearn" /\ chain opp = "ethereum").
Proof.
  intros [c Hin]%elem_of_scan. destruct c; simpl in Hin.
  - apply elem_of_try_take in Hin as (data & l & [= <-] & Hin).
    apply elem_of_take_omap in Hin as (pool & _ & Hpool).
    unfold llama_opportunity in Hpool.
    destruct (py_ge _ min_apy) eqn:Hapy; [| done].
    destruct (py_ge _ min_tvl) eqn:Htvl; [| done].
    destruct (str_in _ _) eqn:Hchain; [| done].
    destruct (negb _); [| done]. simpl in Hpool. injection Hpool as <-. simpl.
    apply py_ge_le in Hapy, Htvl. auto.
  - apply elem_of_try_take in Hin as (data & l & [= <-] & Hin).
    apply list_elem_of_omap in Hin as (vault & _ & Hvault).
    unfold yearn_opportunity in Hvault.
    destruct (truthy _); [| done].
    destruct (py_ge _ min_apy) eqn:Hapy; [| done].
    destruct (py_ge _ min_tvl) eqn:Htvl; [| done].
    simpl in Hvault. injection Hvault as <-. simpl.
    apply py_ge_le in Hapy, Htvl. auto.
  - unfold _scan_beefy_yields in Hin.
    destruct (up_beefy_vaults up) as [r1 | e1]; simpl in Hin; [| by apply elem_of_nil in Hin].
    destruct (status r1 =? 200)%Z; simpl in Hin; [| by apply elem_of_nil in Hin].
    destruct (json r1) as [vaults | e1]; simpl in Hin; [| by apply elem_of_nil in Hin].
    destruct (up_beefy_apy up) as [r2 | e2]; simpl in Hin; [| by apply elem_of_nil in Hin].
    destruct (status r2 =? 200)%Z; simpl in Hin; [| by apply elem_of_nil in Hin].
    destruct (json r2) as [apy_data | e2]; simpl in Hin; [| by apply elem_of_nil in Hin].
    destruct (up_beefy_tvl up) as [r3 | e3]; simpl in Hin; [| by apply elem_of_nil in Hin].
    destruct (status r3 =? 200)%Z; simpl in Hin; [| by apply elem_of_nil in Hin].
    destruct (json r3) as [tvl_data | e3]; simpl in Hin; [| by apply elem_of_nil in Hin].
    apply elem_of_take_omap in Hin as (vault & _ & Hvault).
    unfold beefy_opportunity in Hvault.
    destruct (str_in _ _) eqn:Hchain; simpl in Hvault; [| done].
    destruct (py_ge _ min_apy) eqn:Hapy; [| done].
    destruct (py_ge _ min_tvl) eqn:Htvl; [| done].
    simpl in Hvault. injection Hvault as <-. simpl.
    apply py_ge_le in Hapy, Htvl. auto.
Qed.

(** C5, where the code departs from it.  [_scan_yearn_yields] is not given
    the caller's chains and stamps every vault with [ethereum]: asked for
    Polygon only, the scan answers Yearn's Ethereum vault ahead of the
    Polygon pool of DeFiLlama, whose Ethereum pool is filtered out. *)
Theorem yearn_ignores_chains :
  scan_yield_opportunities up_polygon 1 100000 (Some ["polygon"])
    = [same_vault_yearn; polygon_pool]
  /\ chain same_vault_yearn = "ethereum"
  /\ str_in (chain same_vault_yearn) ["polygon"] = false.
Proof.
  repeat split; vm_compute; reflexivity.
Qed.

(** ** The cache *)

Section CacheFacts.
Context (json_text : json_doc -> string) (self : Cache.CacheManager).

Lemma set_eq key value ttl data_type srv :
  Cache.set self key value ttl data_type srv =
  match Cache.redis self with
  | None => (Ok false, srv)
  | Some _ =>
      match redis_setex key (effective_ttl self ttl data_type) (serialize value) srv with
      | (Ok _, srv') => (Ok true, srv')
      | (Raise _, srv') => (Ok false, srv')
      end
  end.
Proof.
  unfold Cache.set, try_except_M, effective_ttl, serialize.
  destruct (Cache.redis self); [| done].
  unfold mbind, M_bind, mret, M_ret.
  by destruct (redis_setex _ _ _ srv) as [[b | e] srv'].
Qed.

Lemma get_eq key default srv :
  Cache.get json_text self key default srv =
  match Cache.redis self with
  | None => (Ok default, srv)
  | Some _ =>
      match redis_get key srv with
      | (Ok None, srv') => (Ok default, srv')
      | (Ok (Some (BJson doc)), srv') => (Ok (json_loads_doc doc), srv')
      | (Ok (Some (BPickle _)), srv') => (Ok default, srv')
      | (Raise _, srv') => (Ok default, srv')
      end
  end.
Proof.
  unfold Cache.get, try_except_M.
  destruct (Cache.redis self); [| done].
  unfold mbind, M_bind, mret, M_ret.
  destruct (redis_get key srv) as [[[[doc | v] |] | e] srv']; done.
Qed.

Lemma delete_eq key srv :
  Cache.delete self key srv =
  match Cache.redis self with
  | None => (Ok false, srv)
  | Some _ =>
      match redis_delete key srv with
      | (Ok n, srv') => (Ok (0 <? n)%Z, srv')
      | (Raise _, srv') => (Ok false, srv')
      end
  end.
Proof.
  unfold Cache.delete, try_except_M.
  destruct (Cache.redis self); [| done].
  unfold mbind, M_bind, mret, M_ret.
  by destruct (redis_delete key srv) as [[n | e] srv'].
Qed.

Lemma exists_eq key srv :
  Cache.exists_ self key srv =
  match Cache.redis self with
  | None => (Ok false, srv)
  | Some _ =>
      match redis_exists key srv with
      | (Ok n, srv') => (Ok (0 <? n)%Z, srv')
      | (Raise _, srv') => (Ok false, srv')
      end
  end.
Proof.
  unfold Cache.exists_, try_except_M.
  destruct (Cache.redis self); [| done].
  unfold mbind, M_bind, mret, M_ret.
  by destruct (redis_exists key srv) as [[n | e] srv'].
Qed.

(** A command that raises leaves the server as it found it. *)
Lemma redis_setex_raise key ttl value srv e srv' :
  redis_setex key ttl value srv = (Raise e, srv') -> srv' = srv.
Proof.
  unfold redis_setex, with_fault.
  destruct (rs_fault srv); [by intros [= _ <-] |].
  destruct (ttl <=? 0)%Z; [by intros [= _ <-] | done].
Qed.

Lemma redis_get_same key srv : snd (redis_get key srv) = srv.
Proof. unfold redis_get, with_fault. by destruct (rs_fault srv). Qed.

Lemma redis_delete_raise key srv e srv' :
  redis_delete key srv = (Raise e, srv') -> srv' = srv.
Proof.
  unfold redis_delete, with_fault.
  destruct (rs_fault srv); [by intros [= _ <-] | done].
Qed.

Lemma set_true key value ttl data_type srv srv' :
  Cache.set self key value ttl data_type srv = (Ok true, srv') ->
  is_Some (Cache.redis self) /\ rs_fault srv = None
  /\ 0 < effective_ttl self ttl data_type
  /\ srv' = stored key (serialize value) (effective_ttl self ttl data_type) srv.
Proof.
  rewrite set_eq. destruct (Cache.redis self) as [c |]; [| done].
  unfold redis_setex, with_fault.
  destruct (rs_fault srv) eqn:Hf; [done |].
  destruct (effective_ttl self ttl data_type <=? 0)%Z eqn:Httl; [done |].
  intros [= <-]. apply Z.leb_gt in Httl. unfold stored. rewrite Hf.
  repeat split; eauto.
Qed.

End CacheFacts.

(** ** JSON round trip *)

Lemma pyval_nested_ind (P : pyval -> Prop) :
  P PNone -> (forall b, P (PBool b)) -> (forall z, P (PInt z)) ->
  (forall x, P (PFloat x)) -> (forall s, P (PStr s)) ->
  (forall items, Forall P items -> P (PList items)) ->
  (forall items, Forall P items -> P (PTuple items)) ->
  (forall entries, Forall (fun kv => P (snd kv)) entries -> P (PDict entries)) ->
  (forall repr, P (PObject repr)) ->
  forall value, P value.
Proof.
  intros HNone HBool HInt HFloat HStr HList HTuple HDict HObject.
  fix IH 1. intros [| b | z | x | s | items | items | entries | repr].
  - exact HNone.
  - apply HBool.
  - apply HInt.
  - apply HFloat.
  - apply HStr.
  - apply HList. induction items as [| v r IHr]; constructor; [apply IH | exact IHr].
  - apply HTuple. induction items as [| v r IHr]; constructor; [apply IH | exact IHr].
  - apply HDict. induction entries as [| [k v] r IHr]; constructor; [apply IH | exact IHr].
  - apply HObject.
Qed.

Lemma json_round_trip value :
  json_value value = true -> json_loads_doc (json_dumps_default_str value) = value.
Proof.
  induction value as [| b | z | x | s | items IH | items IH | entries IH | repr]
    using pyval_nested_ind; simpl; try done.
  - intros Hall. f_equal. rewrite map_map.
    induction IH as [| v r Hv _ IHr]; simpl in *; [done |].
    apply andb_true_iff in Hall as [Hv' Hr']. by rewrite Hv, IHr.
  - intros Hall. f_equal. rewrite map_map.
    induction IH as [| [k v] r Hv _ IHr]; simpl in *; [done |].
    apply andb_true_iff in Hall as [Hv' Hr']. by rewrite Hv, IHr.
Qed.

Lemma live_stored key value ttl srv t :
  live (elapse t (stored key value ttl srv)) key =
  if (t <? ttl)%Z then Some value else None.
Proof.
  unfold live, elapse, stored. simpl. rewrite lookup_insert_eq.
  destruct (t <? ttl)%Z eqn:Ht.
  - apply Z.ltb_lt in Ht. rewrite (proj2 (Z.ltb_lt _ _)); [done | lia].
  - apply Z.ltb_ge in Ht. rewrite (proj2 (Z.ltb_ge _ _)); [done | lia].
Qed.

(** C9, as the code has it.  For a dict or a list made of JSON values
    ([None], booleans, integers, floats, strings, lists and dicts of
    such; no tuple, no object of another type inside), a [get] after a
    [set] that answered [True] returns the very value stored as long as
    less than the time to live has elapsed, and the caller's default from
    then on. *)
Theorem get_after_set (json_text : json_doc -> string) (self : Cache.CacheManager)
    (key : string) (value : pyval) (ttl : option Z) (data_type : string)
    (default : pyval) (srv srv' : redis_server) (t : Z) :
  Cache.is_dict_or_list value = true ->
  json_value value = true ->
  Cache.set self key value ttl data_type srv = (Ok true, srv') ->
  (0 <= t < effective_ttl self ttl data_type ->
   fst (Cache.get json_text self key default (elapse t srv')) = Ok value)
  /\ (effective_ttl self ttl data_type <= t ->
      fst (Cache.get json_text self key default (elapse t srv')) = Ok default).
Proof.
  intros Hcontainer Hjson (Hredis & Hfault & Httl & ->)%set_true.
  rewrite get_eq. destruct Hredis as [c ->].
  unfold redis_get, with_fault. cbn [rs_fault elapse stored].
  rewrite Hfault.
  change {| rs_data := <[key:=(serialize value, rs_now srv + effective_ttl self ttl data_type)]> (rs_data srv);
            rs_now := rs_now srv + t; rs_fault := rs_fault srv |}
    with (elapse t (stored key (serialize value) (effective_ttl self ttl data_type) srv)).
  rewrite live_stored. unfold serialize. rewrite Hcontainer.
  split; intros Ht.
  - rewrite (proj2 (Z.ltb_lt _ _)) by lia. simpl. by rewrite json_round_trip.
  - by rewrite (proj2 (Z.ltb_ge _ _)) by lia.
Qed.

Lemma get_after_set_witness :
  fst (Cache.get unread_text connected "price:ETH" PNone
         (elapse 59 (stored "price:ETH" (serialize quote) 60 empty_server)))
    = Ok quote
  /\ fst (Cache.get unread_text connected "price:ETH" PNone
            (elapse 60 (stored "price:ETH" (serialize quote) 60 empty_server)))
       = Ok PNone.
Proof.
  assert (Hset : Cache.set connected "price:ETH" quote None "price_data" empty_server
                 = (Ok true, stored "price:ETH" (serialize quote) 60 empty_server))
    by (vm_compute; reflexivity).
  split.
  - apply (proj1 (get_after_set unread_text connected "price:ETH" quote
                    None "price_data" PNone empty_server _ 59 eq_refl eq_refl Hset)).
    vm_compute. split; [discriminate | reflexivity].
  - apply (proj2 (get_after_set unread_text connected "price:ETH" quote
                    None "price_data" PNone empty_server _ 60 eq_refl eq_refl Hset)).
    vm_compute. discriminate.
Defined.

(** C9, the claim refuted.  A [datetime] inside a cached dict is written
    as the string [str] makes of it, and a string is what [get] returns,
    at once and with the time to live still running. *)
Lemma datetime_read_back_as_string :
  fst (Cache.set connected "snapshot" snapshot_value None "yield_data" empty_server)
    = Ok true
  /\ fst (Cache.get unread_text connected "snapshot" PNone
            (snd (Cache.set connected "snapshot" snapshot_value None "yield_data"
                    empty_server)))
       = Ok snapshot_read_back
  /\ snapshot_read_back <> snapshot_value.
Proof.
  repeat split; try (vm_compute; reflexivity). discriminate.
Qed.

(** X23.  A value that is neither a dict nor a list is pickled, and [get]
    does not read a pickle back: [json.loads] raises [UnicodeDecodeError],
    which the inner handlers let through to the outer one, so [get]
    answers the default even while the time to live is running. *)
Lemma pickled_value_not_read_back (json_text : json_doc -> string)
    (self : Cache.CacheManager) key value ttl data_type default srv srv' t :
  Cache.is_dict_or_list value = false ->
  Cache.set self key value ttl data_type srv = (Ok true, srv') ->
  fst (Cache.get json_text self key default (elapse t srv')) = Ok default.
Proof.
  intros Hscalar (Hredis & Hfault & Httl & ->)%set_true.
  rewrite get_eq. destruct Hredis as [c ->].
  unfold redis_get, with_fault. cbn [rs_fault elapse stored].
  rewrite Hfault.
  change {| rs_data := <[key:=(serialize value, rs_now srv + effective_ttl self ttl data_type)]> (rs_data srv);
            rs_now := rs_now srv + t; rs_fault := rs_fault srv |}
    with (elapse t (stored key (serialize value) (effective_ttl self ttl data_type) srv)).
  rewrite live_stored. unfold serialize. rewrite Hscalar.
  by destruct (t <? _)%Z.
Qed.

(** ** No exception leaves the cache *)

Lemma try_except_answers {A : Type} (body : M A) (a : A) (srv : redis_server) :
  answers (try_except_M body (fun e => mret a)) srv.
Proof.
  unfold answers, try_except_M, mret, M_ret.
  destruct (body srv) as [[a' | e] srv']; eauto.
Qed.

Lemma try_except_raise {A : Type} (body : M A) (a : A) (srv srv' : redis_server) e :
  body srv = (Raise e, srv') ->
  try_except_M body (fun e => mret a) srv = (Ok a, srv').
Proof. unfold try_except_M. by intros ->. Qed.

Lemma with_fault_raise {A : Type} (command : M A) (srv : redis_server) e :
  rs_fault srv = Some e -> with_fault command srv = (Raise e, srv).
Proof. unfold with_fault. by intros ->. Qed.

Lemma set_if_not_exists_fault (self : Cache.CacheManager) key value ttl data_type srv e :
  rs_fault srv = Some e ->
  Cache.set_if_not_exists self key value ttl data_type srv = (false, srv).
Proof.
  intros Hfault.
  unfold Cache.set_if_not_exists, Cache.set_if_not_exists_coro.
  destruct (Cache.redis self) as [c |] eqn:Hredis; [| done].
  simpl. rewrite exists_eq, Hredis.
  unfold redis_exists. rewrite (with_fault_raise _ _ _ Hfault).
  simpl. rewrite set_eq, Hredis.
  unfold redis_setex. by rewrite (with_fault_raise _ _ _ Hfault).
Qed.




(** ** Write if missing *)

Section SetIfNotExists.
Context (self : Cache.CacheManager) (client : Cache.redis_client).
Context (key : string) (ttl : option Z) (data_type : string).
Hypothesis Hclient : Cache.redis self = Some client.

Lemma exists_healthy srv :
  rs_fault srv = None ->
  Cache.exists_ self key srv = (Ok (bool_decide (is_Some (live srv key))), srv).
Proof.
  intros Hfault. rewrite exists_eq, Hclient.
  unfold redis_exists, with_fault, count_live. rewrite Hfault.
  by destruct (live srv key).
Qed.

Lemma set_healthy value srv :
  rs_fault srv = None -> 0 < effective_ttl self ttl data_type ->
  Cache.set self key value ttl data_type srv =
  (Ok true, stored key (serialize value) (effective_ttl self ttl data_type) srv).
Proof.
  intros Hfault Httl. rewrite set_eq, Hclient.
  unfold redis_setex, with_fault, stored. rewrite Hfault.
  apply Z.leb_gt in Httl. by rewrite Httl.
Qed.

Lemma live_stored_now value srv :
  0 < effective_ttl self ttl data_type ->
  live (stored key value (effective_ttl self ttl data_type) srv) key = Some value.
Proof.
  intros Httl. unfold live, stored. simpl. rewrite lookup_insert_eq.
  by rewrite (proj2 (Z.ltb_lt _ _)) by lia.
Qed.

(** X22.  Awaited one after the other on a healthy store, two calls of
    [set_if_not_exists] for a key that is missing: the first writes and
    answers [True], the second finds the key, answers [False] and leaves
    the value of the first. *)
Lemma set_if_not_exists_sequential v1 v2 srv :
  rs_fault srv = None -> live srv key = None ->
  0 < effective_ttl self ttl data_type ->
  let '(wrote1, srv1) := Cache.set_if_not_exists self key v1 ttl data_type srv in
  let '(wrote2, srv2) := Cache.set_if_not_exists self key v2 ttl data_type srv1 in
  wrote1 = true /\ wrote2 = false /\ live srv2 key = Some (serialize v1).
Proof.
  intros Hfault Hlive Httl.
  unfold Cache.set_if_not_exists, Cache.set_if_not_exists_coro. rewrite Hclient.
  cbn [run]. rewrite (exists_healthy srv Hfault), Hlive.
  rewrite bool_decide_eq_false_2 by (by intros [? ?]).
  cbn [run]. rewrite (set_healthy v1 srv Hfault Httl).
  cbn [run]. rewrite exists_healthy by done.
  rewrite (live_stored_now _ _ Httl).
  rewrite bool_decide_eq_true_2 by eauto.
  cbn [run]. by rewrite (live_stored_now _ _ Httl).
Qed.

End SetIfNotExists.

(** C1, where the code departs from it.  [set_if_not_exists] looks the key
    up and writes it in two separate calls to the store.  When the event
    loop resumes a second caller between the two, both callers find the
    key missing, both write and both answer [True]; the key ends with the
    value of the caller that wrote last. *)
Theorem set_if_not_exists_race (self : Cache.CacheManager) (client : Cache.redis_client)
    (key : string) (v1 v2 : pyval) (ttl : option Z) (data_type : string)
    (srv : redis_server) :
  Cache.redis self = Some client ->
  rs_fault srv = None ->
  live srv key = None ->
  0 < effective_ttl self ttl data_type ->
  let calls := [ Cache.set_if_not_exists_coro self key v1 ttl data_type;
                 Cache.set_if_not_exists_coro self key v2 ttl data_type ] in
  let final := interleave [0; 1; 0; 1]%nat (calls, srv) in
  returned <$> fst final = [Some true; Some true]
  /\ live (snd final) key = Some (serialize v2).
Proof.
  intros Hclient Hfault Hlive Httl calls final.
  unfold final, calls, interleave, Cache.set_if_not_exists_coro.
  rewrite Hclient. cbn [foldl resume lookup list_lookup].
  rewrite (exists_healthy self client key Hclient srv Hfault), Hlive.
  rewrite bool_decide_eq_false_2 by (by intros [? ?]).
  cbn [foldl resume lookup list_lookup insert list_insert].
  rewrite (exists_healthy self client key Hclient srv Hfault), Hlive.
  rewrite bool_decide_eq_false_2 by (by intros [? ?]).
  cbn [foldl resume lookup list_lookup insert list_insert].
  rewrite (set_healthy self client key ttl data_type Hclient v1 srv Hfault Httl).
  cbn [foldl resume lookup list_lookup insert list_insert].
  rewrite (set_healthy self client key ttl data_type Hclient v2) by done.
  cbn [foldl resume lookup list_lookup insert list_insert fst snd fmap list_fmap returned].
  split; [done |]. apply (live_stored_now self key ttl data_type _ _ Httl).
Qed.

Lemma set_if_not_exists_race_witness :
  let final :=
    interleave [0; 1; 0; 1]%nat
      ([ Cache.set_if_not_exists_coro connected "yield_opportunities:all" winner_1 None
           "yield_data";
         Cache.set_if_not_exists_coro connected "yield_opportunities:all" winner_2 None
           "yield_data" ], empty_server) in
  returned <$> fst final = [Some true; Some true]
  /\ live (snd final) "yield_opportunities:all" = Some (serialize winner_2).
Proof.
  apply (set_if_not_exists_race connected (Cache.RedisClient "redis://localhost:6379")
           "yield_opportunities:all" winner_1 winner_2 None "yield_data" empty_server);
    reflexivity.
Defined.

(** ** Cache keys *)

Lemma ascii_compare_N (a b : ascii) :
  Ascii.compare a b = N.compare (N_of_ascii a) (N_of_ascii b).
Proof. reflexivity. Qed.

Lemma string_compare_refl (s : string) : String.compare s s = Eq.
Proof.
  induction s as [| a s IH]; simpl; [done |].
  by rewrite ascii_compare_N, N.compare_refl.
Qed.

Lemma string_compare_lt_trans (s1 s2 s3 : string) :
  String.compare s1 s2 = Lt -> String.compare s2 s3 = Lt -> String.compare s1 s3 = Lt.
Proof.
  revert s2 s3.
  induction s1 as [| a s1 IH]; intros [| b s2] [| c s3]; simpl; try done.
  rewrite !ascii_compare_N.
  destruct (N.compare_spec (N_of_ascii a) (N_of_ascii b)) as [Hab | Hab | Hab];
    destruct (N.compare_spec (N_of_ascii b) (N_of_ascii c)) as [Hbc | Hbc | Hbc];
    try done; intros H12 H23.
  - rewrite Hab, Hbc, N.compare_refl. by eapply IH.
  - by rewrite Hab, (proj2 (N.compare_lt_iff _ _) Hbc).
  - by rewrite <- Hbc, (proj2 (N.compare_lt_iff _ _) Hab).
  - by rewrite (proj2 (N.compare_lt_iff _ _) (N.lt_trans _ _ _ Hab Hbc)).
Qed.

Lemma ltb_irrefl (s : string) : String.ltb s s = false.
Proof. unfold String.ltb. by rewrite string_compare_refl. Qed.

Lemma ltb_trans (s1 s2 s3 : string) :
  String.ltb s1 s2 = true -> String.ltb s2 s3 = true -> String.ltb s1 s3 = true.
Proof.
  unfold String.ltb.
  destruct (String.compare s1 s2) eqn:H12; try done.
  destruct (String.compare s2 s3) eqn:H23; try done.
  by rewrite (string_compare_lt_trans _ _ _ H12 H23).
Qed.

Lemma ltb_total (s1 s2 : string) :
  String.ltb s1 s2 = false -> s1 <> s2 -> String.ltb s2 s1 = true.
Proof.
  unfold String.ltb. rewrite (String.compare_antisym s2 s1).
  destruct (String.compare s1 s2) eqn:H12; try done.
  by apply String.compare_eq_iff in H12.
Qed.

Section SortedItems.
Context {V : Type}.
Implicit Types (x y : string * V) (l : list (string * V)).

Lemma insert_item_perm x l : Cache.insert_item x l ≡ₚ x :: l.
Proof.
  induction l as [| y r IH]; simpl; [done |].
  destruct (String.ltb (fst y) (fst x)); [| done].
  rewrite IH. apply perm_swap.
Qed.

Lemma sorted_items_perm l : Cache.sorted_items l ≡ₚ l.
Proof.
  induction l as [| x r IH]; simpl; [done |].
  fold (Cache.sorted_items r). by rewrite insert_item_perm, IH.
Qed.

Lemma insert_item_sorted x l :
  fst x ∉ fst <$> l ->
  StronglySorted item_lt l -> StronglySorted item_lt (Cache.insert_item x l).
Proof.
  intros Hfresh Hsorted. induction Hsorted as [| y r Hr IH Hy]; simpl.
  - repeat constructor.
  - rewrite fmap_cons, not_elem_of_cons in Hfresh. destruct Hfresh as [Hne Hfresh].
    destruct (String.ltb (fst y) (fst x)) eqn:Hlt.
    + constructor; [by apply IH |].
      rewrite (insert_item_perm x r). by constructor.
    + assert (Hxy : item_lt x y) by (by apply ltb_total).
      constructor; [by constructor |].
      constructor; [exact Hxy |].
      eapply Forall_impl; [exact Hy |].
      intros z Hz. unfold item_lt in *. by eapply ltb_trans.
Qed.

Lemma sorted_items_sorted l :
  NoDup (fst <$> l) -> StronglySorted item_lt (Cache.sorted_items l).
Proof.
  induction l as [| x r IH]; simpl; [constructor |].
  rewrite NoDup_cons. intros [Hfresh Hnodup].
  apply insert_item_sorted; [| by apply IH].
  fold (Cache.sorted_items r). by rewrite sorted_items_perm.
Qed.

(** Two lists in strict order with the same items are the same list. *)
Lemma sorted_perm_eq l1 l2 :
  StronglySorted item_lt l1 -> StronglySorted item_lt l2 -> l1 ≡ₚ l2 -> l1 = l2.
Proof.
  intros H1. revert l2.
  induction H1 as [| x1 r1 Hr1 IH Hx1]; intros l2 H2 Hperm.
  - by apply Permutation_nil in Hperm.
  - destruct H2 as [| x2 r2 Hr2 Hx2]; [by apply Permutation_sym, Permutation_nil in Hperm |].
    assert (x1 = x2) as <-.
    { assert (Hin1 : x1 ∈ x2 :: r2) by (rewrite <- Hperm; left).
      assert (Hin2 : x2 ∈ x1 :: r1) by (rewrite Hperm; left).
      apply elem_of_cons in Hin1 as [-> | Hin1]; [done |].
      apply elem_of_cons in Hin2 as [-> | Hin2]; [done |].
      rewrite Forall_forall in Hx1, Hx2.
      specialize (Hx1 _ Hin2). specialize (Hx2 _ Hin1).
      unfold item_lt in *.
      pose proof (ltb_trans _ _ _ Hx1 Hx2) as Habs.
      by rewrite ltb_irrefl in Habs. }
    f_equal. apply IH; [done |]. by apply Permutation_cons_inv in Hperm.
Qed.

Lemma sorted_items_canonical l1 l2 :
  NoDup (fst <$> l1) -> l1 ≡ₚ l2 -> Cache.sorted_items l1 = Cache.sorted_items l2.
Proof.
  intros Hnodup Hperm.
  apply sorted_perm_eq.
  - by apply sorted_items_sorted.
  - apply sorted_items_sorted. by rewrite <- Hperm.
  - by rewrite !sorted_items_perm.
Qed.

End SortedItems.

Lemma hexdigest_length (s : string) : String.length (MD5.hexdigest s) = 32%nat.
Proof.
  unfold MD5.hexdigest, MD5.digest.
  destruct (foldl _ _ _) as [[[a b] c] d].
  reflexivity.
Qed.

Lemma string_length_app (s1 s2 : string) :
  String.length (s1 ++ s2) = (String.length s1 + String.length s2)%nat.
Proof. induction s1 as [| a s1 IH]; simpl; [done | by rewrite IH]. Qed.

(** C8.  Two parameter dictionaries with the same entries, inserted in
    any order, give the same cache key under the same category prefix;
    the key is the prefix, a colon, and the 32 hexadecimal digits of the
    MD5 of the serialization of the entries sorted by key. *)
Theorem generate_key_permutation {V : Type} (json_dumps : list (string * V) -> string)
    (prefix : string) (params1 params2 : list (string * V)) :
  NoDup (fst <$> params1) ->
  params1 ≡ₚ params2 ->
  Cache._generate_key json_dumps prefix (Cache.IdDict params1)
    = Cache._generate_key json_dumps prefix (Cache.IdDict params2)
  /\ (exists canonical hash,
        Cache._generate_key json_dumps prefix (Cache.IdDict params1)
          = (prefix ++ ":" ++ hash)%string
        /\ hash = MD5.hexdigest (json_dumps canonical)
        /\ String.length hash = 32%nat
        /\ canonical ≡ₚ params1
        /\ StronglySorted item_lt canonical).
Proof.
  intros Hnodup Hperm. split.
  - simpl. by rewrite (sorted_items_canonical params1 params2).
  - exists (Cache.sorted_items params1), (MD5.hexdigest (json_dumps (Cache.sorted_items params1))).
    split; [done |]. split; [done |].
    split; [apply hexdigest_length |].
    split; [apply sorted_items_perm | by apply sorted_items_sorted].
Qed.

Lemma generate_key_permutation_witness :
  Cache._generate_key keys_text "yield_opportunities"
    (Cache.IdDict [("min_apy", 1); ("min_tvl", 100000)])
  = Cache._generate_key keys_text "yield_opportunities"
      (Cache.IdDict [("min_tvl", 100000); ("min_apy", 1)]).
Proof.
  apply (generate_key_permutation keys_text "yield_opportunities"
           [("min_apy", 1); ("min_tvl", 100000)] [("min_tvl", 100000); ("min_apy", 1)]).
  - simpl. constructor.
    + intros Hin. apply list_elem_of_singleton in Hin. discriminate Hin.
    + constructor; [apply not_elem_of_nil | constructor].
  - apply perm_swap.
Defined.

(** ** Upserts *)

Section Upsert.
Import Database.
Context (self : DatabaseManager) (conn : pool).
Hypothesis Hpool : pool_ self = Some conn.

Lemma on_conflict_update_none rec rows :
  Forall (fun row => conflicts row rec = false) rows ->
  on_conflict_update rec rows = None.
Proof.
  induction 1 as [| row rest Hrow _ IH]; simpl; [done |].
  by rewrite Hrow, IH.
Qed.

Lemma on_conflict_update_first rec before row after :
  Forall (fun row => conflicts row rec = false) before ->
  conflicts row rec = true ->
  on_conflict_update rec (before ++ row :: after)
  = Some (before ++ do_update row rec :: after).
Proof.
  intros Hbefore Hrow.
  induction Hbefore as [| r rest Hr _ IH]; simpl; [by rewrite Hrow |].
  by rewrite Hr, IH.
Qed.

Lemma store_one data rec values db :
  db_fault db = None -> yield_tuple data = Ok rec -> yield_columns rec = Ok values ->
  store_yield_data self [data] db = (Ok 1, insert_yield db values).
Proof.
  intros Hfault Htuple Hcolumns.
  unfold store_yield_data, get_connection. rewrite Hpool, Hfault.
  simpl. unfold mbind, result_bind, mret, result_ret. rewrite Htuple.
  simpl. unfold execute_insert_yield, mbind, result_bind. by rewrite Hcolumns.
Qed.

Lemma store_refused data rec e db :
  db_fault db = None -> yield_tuple data = Ok rec -> yield_columns rec = Raise e ->
  store_yield_data self [data] db = (Raise e, db).
Proof.
  intros Hfault Htuple Hcolumns.
  unfold store_yield_data, get_connection. rewrite Hpool, Hfault.
  simpl. unfold mbind, result_bind, mret, result_ret. rewrite Htuple.
  simpl. unfold execute_insert_yield, mbind, result_bind. by rewrite Hcolumns.
Qed.

Lemma conflicts_inserted id now r1 r2 :
  same_natural_key r1 r2 -> is_Some (r_pool_name r1) ->
  conflicts (inserted_row id now r1) r2 = true.
Proof.
  intros (Hp & Hn & Hc & Ht) [name Hname].
  unfold conflicts. simpl. rewrite <- Hp, <- Hn, <- Hc, <- Ht, Hname.
  by rewrite !String.eqb_refl, Z.eqb_refl.
Qed.

Lemma conflicts_same_key row r1 r2 :
  same_natural_key r1 r2 -> conflicts row r1 = conflicts row r2.
Proof.
  intros (Hp & Hn & Hc & Ht). unfold conflicts. by rewrite Hp, Hn, Hc, Ht.
Qed.

Lemma filter_no_conflict rec rows :
  Forall (fun row => conflicts row rec = false) rows ->
  List.filter (fun row => conflicts row rec) rows = [].
Proof.
  induction 1 as [| row rest Hrow _ IH]; simpl; [done |]. by rewrite Hrow.
Qed.

(** The statement of C7 for yield rows, in two parts. *)
Lemma upsert_existing data rec values db before row after :
  db_fault db = None -> yield_tuple data = Ok rec -> yield_columns rec = Ok values ->
  yield_data db = before ++ row :: after ->
  conflicts row values = true ->
  Forall (fun r => conflicts r values = false) before ->
  store_yield_data self [data] db = (Ok 1, insert_yield db values)
  /\ yield_data (insert_yield db values) = before ++ do_update row values :: after.
Proof.
  intros Hfault Htuple Hcolumns Hrows Hrow Hbefore.
  split; [by eapply store_one |].
  unfold insert_yield. simpl.
  by rewrite Hrows, (on_conflict_update_first _ _ _ _ Hbefore Hrow).
Qed.

Lemma upsert_twice d1 d2 r1 r2 v1 v2 db :
  db_fault db = None -> yield_tuple d1 = Ok r1 -> yield_tuple d2 = Ok r2 ->
  yield_columns r1 = Ok v1 -> yield_columns r2 = Ok v2 ->
  same_natural_key v1 v2 -> is_Some (r_pool_name v1) ->
  Forall (fun r => conflicts r v1 = false) (yield_data db) ->
  let row := do_update (inserted_row (yield_data_id_seq db + 1) (db_now db) v1) v2 in
  snd (store_yield_data self [d2] (snd (store_yield_data self [d1] db)))
    = insert_yield (insert_yield db v1) v2
  /\ yield_data (insert_yield (insert_yield db v1) v2) = yield_data db ++ [row]
  /\ List.filter (fun r => conflicts r v2) (yield_data db ++ [row]) = [row].
Proof.
  intros Hfault Ht1 Ht2 Hc1 Hc2 Hkey Hname Hfresh row.
  rewrite (store_one d1 r1 v1 db Hfault Ht1 Hc1). cbn [snd].
  rewrite (store_one d2 r2 v2) by done. cbn [snd].
  split; [done |].
  assert (Hrows : yield_data (insert_yield db v1)
                  = yield_data db ++ [inserted_row (yield_data_id_seq db + 1) (db_now db) v1]).
  { unfold insert_yield. simpl. by rewrite (on_conflict_update_none _ _ Hfresh). }
  assert (Hfresh2 : Forall (fun r => conflicts r v2 = false) (yield_data db)).
  { eapply Forall_impl; [exact Hfresh |]. intros r Hr.
    by rewrite <- (conflicts_same_key r v1 v2 Hkey). }
  split.
  - unfold insert_yield at 1. cbn [yield_data]. rewrite Hrows.
    rewrite (on_conflict_update_first v2 _ _ [] Hfresh2); [done |].
    by apply conflicts_inserted.
  - rewrite List.filter_app, (filter_no_conflict _ _ Hfresh2). simpl.
    assert (conflicts row v2 = true) as ->; [| done].
    unfold row.
    pose proof (conflicts_inserted (yield_data_id_seq db + 1) (db_now db) v1 v2 Hkey Hname)
      as Hc.
    exact Hc.
Qed.

(** The same for price rows and for market rows. *)
Lemma price_on_conflict_update_first rec before row after :
  Forall (fun row => price_conflicts row rec = false) before ->
  price_conflicts row rec = true ->
  price_on_conflict_update rec (before ++ row :: after)
  = Some (before ++ price_do_update row rec :: after).
Proof.
  intros Hbefore Hrow.
  induction Hbefore as [| r rest Hr _ IH]; simpl; [by rewrite Hrow |].
  by rewrite Hr, IH.
Qed.

Lemma price_upsert_existing data rec values w before row after :
  db_fault (core w) = None -> price_tuple data = Ok rec ->
  price_columns rec = Ok values ->
  price_data w = before ++ row :: after ->
  price_conflicts row values = true ->
  Forall (fun r => price_conflicts r values = false) before ->
  store_price_data self [data] w = (Ok 1, insert_price w values)
  /\ price_data (insert_price w values) = before ++ price_do_update row values :: after.
Proof.
  intros Hfault Htuple Hcolumns Hrows Hrow Hbefore. split.
  - unfold store_price_data, get_connection. rewrite Hpool, Hfault.
    simpl. unfold mbind, result_bind, mret, result_ret. rewrite Htuple.
    simpl. unfold execute_insert_price, mbind, result_bind. by rewrite Hcolumns.
  - unfold insert_price. simpl.
    by rewrite Hrows, (price_on_conflict_update_first _ _ _ _ Hbefore Hrow).
Qed.

Lemma market_on_conflict_update_first new before row after :
  Forall (fun r => mr_timestamp r <> mr_timestamp new) before ->
  mr_timestamp row = mr_timestamp new ->
  market_on_conflict_update new (before ++ row :: after)
  = Some (before ++
          market_values (mr_id row) (mr_created_at row)
            (mr_total_market_cap new) (mr_total_volume_24h new)
            (mr_btc_dominance new) (mr_eth_dominance new)
            (mr_defi_market_cap new) (mr_fear_greed_index new)
            (mr_timestamp row) :: after).
Proof.
  intros Hbefore Hrow.
  induction Hbefore as [| r rest Hr _ IH]; simpl.
  - by rewrite (proj2 (Z.eqb_eq _ _) Hrow).
  - by rewrite (proj2 (Z.eqb_neq _ _) Hr), IH.
Qed.

Lemma market_upsert_existing data rec values w before row after :
  db_fault (core w) = None -> market_tuple data = Ok rec ->
  market_columns rec = Ok values ->
  market_data w = before ++ row :: after ->
  mr_timestamp row = m_timestamp values ->
  Forall (fun r => mr_timestamp r <> m_timestamp values) before ->
  exists w',
    store_market_data self data w = (true, w')
    /\ market_data w'
       = before ++
         market_values (mr_id row) (mr_created_at row)
           (m_total_market_cap values) (m_total_volume_24h values)
           (m_btc_dominance values) (m_eth_dominance values)
           (m_defi_market_cap values) (m_fear_greed_index values)
           (mr_timestamp row) :: after.
Proof.
  intros Hfault Htuple Hcolumns Hrows Hrow Hbefore.
  unfold store_market_data, get_connection. rewrite Hpool, Hfault.
  unfold mbind, result_bind. rewrite Htuple.
  unfold execute_insert_market, mbind, result_bind. rewrite Hcolumns.
  eexists. split; [reflexivity |].
  unfold insert_market. cbn [market_data]. rewrite Hrows.
  by rewrite (market_on_conflict_update_first _ before row after).
Qed.

End Upsert.

(** [store_portfolio_snapshot] is a plain INSERT. *)
Lemma snapshot_appended (self : Database.DatabaseManager) portfolio_id snapshot_data db db' :
  Database.store_portfolio_snapshot self portfolio_id snapshot_data db = (true, db') ->
  exists added,
    Database.portfolio_snapshots db' = Database.portfolio_snapshots db ++ [added]
    /\ Database.varchar 100 portfolio_id = Ok (Database.sr_portfolio_id added)
    /\ Database.sd_timestamp snapshot_data = Some (Database.sr_timestamp added).
Proof.
  unfold Database.store_portfolio_snapshot, mbind, result_bind.
  destruct (Database.get_connection self db) as [[] | e]; [| done].
  destruct (Database.sd_total_value snapshot_data) as [total |]; [| done].
  destruct (Database.sd_allocations snapshot_data) as [alloc |]; [| done].
  cbn [Database.subscript].
  destruct (Database.json_dumps alloc) as [a | e]; [| done].
  destruct (Database.json_dumps
              (dict_get (Database.sd_performance_metrics snapshot_data) (PDict [])))
    as [p | e]; [| done].
  destruct (Database.json_dumps
              (dict_get (Database.sd_risk_metrics snapshot_data) (PDict [])))
    as [r | e]; [| done].
  destruct (Database.sd_timestamp snapshot_data) as [t |]; [| done].
  cbn [Database.subscript].
  destruct (Database.varchar 100 portfolio_id) as [id |]; [| done].
  destruct (Database.decimal 20 8 total) as [total' |]; [| done].
  destruct (Database.jsonb a) as [a' |]; [| done].
  destruct (Database.jsonb p) as [p' |]; [| done].
  destruct (Database.jsonb r) as [r' |]; [| done].
  intros [= <-]. eexists. simpl. eauto.
Qed.

(** So is [store_ai_prediction]. *)
Lemma prediction_appended (self : Database.DatabaseManager) model_type input_data
    prediction confidence model_version w w' :
  Database.store_ai_prediction self model_type input_data prediction confidence
    model_version w = (true, w') ->
  exists added,
    Database.ai_predictions w' = Database.ai_predictions w ++ [added]
    /\ Database.varchar 50 model_type = Ok (Database.ar_model_type added)
    /\ Database.ar_timestamp added = Database.db_now (Database.core w).
Proof.
  unfold Database.store_ai_prediction, mbind, result_bind.
  destruct (Database.get_connection self (Database.core w)) as [[] | e]; [| done].
  destruct (Database.json_dumps input_data) as [i | e]; [| done].
  destruct (Database.json_dumps prediction) as [p | e]; [| done].
  destruct (Database.varchar 50 model_type) as [m |]; [| done].
  destruct (Database.jsonb i) as [i' |]; [| done].
  destruct (Database.jsonb p) as [p' |]; [| done].
  destruct (Database.decimal 3 2 confidence) as [c |]; [| done].
  destruct (Database.varchar 20 model_version) as [v |]; [| done].
  intros [= <-]. eexists. simpl. eauto.
Qed.




(** The unique index of [yield_data] holds two NULLs to be distinct: a
    tuple without [pool_name] is inserted anew each time. *)
Lemma null_pool_name_stored_twice :
  Database.yr_risk_score <$>
    Database.yield_data
      (snd (Database.store_yield_data manager [yield_observation None 7]
              (snd (Database.store_yield_data manager [yield_observation None 3]
                      empty_database))))
  = [3; 7].
Proof. vm_compute. reflexivity. Qed.

(** * Further properties *)

(** ** Records of a scan *)

Lemma scan_respects_thresholds_witness :
  (1 <= apy same_vault_yearn)%Q /\ (100000 <= tvl same_vault_yearn)%Q
  /\ (str_in (chain same_vault_yearn) (effective_chains None) = true
      \/ protocol same_vault_yearn = "Yearn" /\ chain same_vault_yearn = "ethereum").
Proof.
  apply (scan_respects_thresholds up_partial 1 100000 None same_vault_yearn).
  assert (scan_yield_opportunities up_partial 1 100000 None
          = [same_vault_yearn; tie_small]) as -> by (vm_compute; reflexivity).
  apply list_elem_of_here.
Defined.

(** Where a record of a scan comes from. *)
Lemma scan_record_origin up min_apy min_tvl chains opp :
  opp ∈ scan_yield_opportunities up min_apy min_tvl chains ->
  (exists pool, llama_opportunity up min_apy min_tvl (effective_chains chains) pool = Some opp)
  \/ (exists vault, yearn_opportunity up min_apy min_tvl vault = Some opp)
  \/ (exists apy_data tvl_data vault,
        beefy_opportunity up apy_data tvl_data min_apy min_tvl (effective_chains chains) vault
        = Some opp).
Proof.
  intros [c Hin]%elem_of_scan. destruct c; simpl in Hin.
  - left. apply elem_of_try_take in Hin as (data & l & [= <-] & Hin).
    apply elem_of_take_omap in Hin as (pool & _ & Hpool). by exists pool.
  - right. left. apply elem_of_try_take in Hin as (data & l & [= <-] & Hin).
    apply list_elem_of_omap in Hin as (vault & _ & Hvault). by exists vault.
  - right. right. unfold _scan_beefy_yields in Hin.
    destruct (up_beefy_vaults up) as [r1 | e1]; simpl in Hin; [| by apply elem_of_nil in Hin].
    destruct (status r1 =? 200)%Z; simpl in Hin; [| by apply elem_of_nil in Hin].
    destruct (json r1) as [vaults | e1]; simpl in Hin; [| by apply elem_of_nil in Hin].
    destruct (up_beefy_apy up) as [r2 | e2]; simpl in Hin; [| by apply elem_of_nil in Hin].
    destruct (status r2 =? 200)%Z; simpl in Hin; [| by apply elem_of_nil in Hin].
    destruct (json r2) as [apy_data | e2]; simpl in Hin; [| by apply elem_of_nil in Hin].
    destruct (up_beefy_tvl up) as [r3 | e3]; simpl in Hin; [| by apply elem_of_nil in Hin].
    destruct (status r3 =? 200)%Z; simpl in Hin; [| by apply elem_of_nil in Hin].
    destruct (json r3) as [tvl_data | e3]; simpl in Hin; [| by apply elem_of_nil in Hin].
    apply elem_of_take_omap in Hin as (vault & _ & Hvault).
    by exists apy_data, tvl_data, vault.
Qed.

Lemma calculate_risk_score_range pool : 2 <= _calculate_risk_score pool <= 10.
Proof.
  unfold _calculate_risk_score, clamp_1_10.
  repeat match goal with
         | |- context [if ?b then _ else _] => destruct b
         end; lia.
Qed.

Lemma calculate_beefy_risk_score_range vault :
  4 <= _calculate_beefy_risk_score vault <= 6.
Proof.
  unfold _calculate_beefy_risk_score, clamp_1_10.
  repeat match goal with
         | |- context [if ?b then _ else _] => destruct b
         end; lia.
Qed.

(** X2.  Every record a scan answers carries a risk score between 2 and
    10: the DeFiLlama score never reaches the lower clamp (its three
    deductions take 5 down to 2 at most), a Yearn vault is given 3 and a
    Beefy vault 4, 5 or 6. *)
Theorem scan_risk_scores_in_range up min_apy min_tvl chains opp :
  opp ∈ scan_yield_opportunities up min_apy min_tvl chains ->
  2 <= risk_score opp <= 10.
Proof.
  intros [(pool & H) | [(vault & H) | (apy_data & tvl_data & vault & H)]]%scan_record_origin.
  - unfold llama_opportunity in H.
    destruct (_ && _); [| done]. injection H as <-. simpl.
    apply calculate_risk_score_range.
  - unfold yearn_opportunity in H.
    destruct (_ && _); [| done]. injection H as <-. simpl. lia.
  - unfold beefy_opportunity in H.
    destruct (negb _); [done |].
    destruct (_ && _); [| done]. injection H as <-. simpl.
    pose proof (calculate_beefy_risk_score_range vault). lia.
Qed.

Lemma scan_risk_scores_in_range_witness : 2 <= risk_score tie_small <= 10.
Proof.
  apply (scan_risk_scores_in_range up_partial 1 100000 None tie_small).
  assert (scan_yield_opportunities up_partial 1 100000 None
          = [same_vault_yearn; tie_small]) as -> by (vm_compute; reflexivity).
  apply list_elem_of_further, list_elem_of_here.
Defined.

(** ** Shape of the answer of a scan *)

Lemma dedup_from_sublist seen l : dedup_from seen l `sublist_of` l.
Proof.
  revert seen. induction l as [| o r IH]; intros seen; simpl; [done |].
  destruct (decide (dedup_key o ∈ seen)).
  - by apply sublist_cons.
  - by apply sublist_skip.
Qed.

Lemma dedup_from_fixed seen l :
  NoDup (dedup_key <$> l) -> (forall o, o ∈ l -> dedup_key o ∉ seen) ->
  dedup_from seen l = l.
Proof.
  revert seen. induction l as [| o r IH]; intros seen Hnodup Hseen; simpl; [done |].
  rewrite fmap_cons, NoDup_cons in Hnodup. destruct Hnodup as [Ho Hr].
  rewrite decide_False by (apply Hseen; left).
  f_equal. apply IH; [done |].
  intros o' Hin [Heq%elem_of_singleton | Hs]%elem_of_union.
  - apply Ho. rewrite <- Heq. apply list_elem_of_fmap. by exists o'.
  - by apply (Hseen o'); [right |].
Qed.

(** X3.  Deduplication only drops records: what it answers is a sublist
    of its argument, in the same order; a list without two records of
    the same key is answered as it is, so deduplicating twice changes
    nothing. *)
Theorem deduplicate_sublist_idempotent (opportunities : list YieldOpportunity) :
  _deduplicate_opportunities opportunities `sublist_of` opportunities
  /\ _deduplicate_opportunities (_deduplicate_opportunities opportunities)
     = _deduplicate_opportunities opportunities
  /\ (NoDup (dedup_key <$> opportunities) ->
      _deduplicate_opportunities opportunities = opportunities).
Proof.
  rewrite !deduplicate_dedup_from. split; [apply dedup_from_sublist |].
  split.
  - apply dedup_from_fixed; [apply dedup_from_NoDup |].
    intros o _. apply not_elem_of_empty.
  - intros Hnodup. apply dedup_from_fixed; [done |].
    intros o _. apply not_elem_of_empty.
Qed.

Lemma deduplicate_sublist_idempotent_witness :
  _deduplicate_opportunities [tie_small; tie_large] = [tie_small; tie_large].
Proof.
  apply (deduplicate_sublist_idempotent [tie_small; tie_large]).
  simpl. constructor.
  - intros Hin. apply list_elem_of_singleton in Hin. discriminate Hin.
  - constructor; [apply not_elem_of_nil | constructor].
Defined.

Lemma length_try_take {T A : Type} (r : result (response T)) (n : nat)
    (k : T -> list A) :
  (length (try_except
             (response ← r;
              if negb (status response =? 200)%Z then Ok []
              else data ← json response; Ok (take n (k data)))
             (fun e => [])) <= n)%nat.
Proof.
  destruct r as [resp | e]; simpl; [| lia].
  destruct (status resp =? 200)%Z; simpl; [| lia].
  destruct (json resp) as [data | e]; simpl; [| lia].
  rewrite length_take. lia.
Qed.

(** X4.  A scan answers no two records with the same dedup key, and at
    most 50 records of DeFiLlama and 30 of Beefy: its length is at most
    80 plus the number of vaults Yearn passes the thresholds for. *)
Theorem scan_distinct_and_bounded up min_apy min_tvl chains :
  NoDup (dedup_key <$> scan_yield_opportunities up min_apy min_tvl chains)
  /\ (length (_scan_defillama_yields up min_apy min_tvl (effective_chains chains)) <= 50)%nat
  /\ (length (_scan_beefy_yields up min_apy min_tvl (effective_chains chains)) <= 30)%nat
  /\ (length (scan_yield_opportunities up min_apy min_tvl chains)
      <= 80 + length (_scan_yearn_yields up min_apy min_tvl))%nat.
Proof.
  assert (Hllama : (length (_scan_defillama_yields up min_apy min_tvl
                              (effective_chains chains)) <= 50)%nat)
    by apply length_try_take.
  assert (Hbeefy : (length (_scan_beefy_yields up min_apy min_tvl
                              (effective_chains chains)) <= 30)%nat).
  { unfold _scan_beefy_yields.
    destruct (up_beefy_vaults up) as [r1 | e1]; simpl; [| lia].
    destruct (status r1 =? 200)%Z; simpl; [| lia].
    destruct (json r1) as [vaults | e1]; simpl; [| lia].
    destruct (up_beefy_apy up) as [r2 | e2]; simpl; [| lia].
    destruct (status r2 =? 200)%Z; simpl; [| lia].
    destruct (json r2) as [apy_data | e2]; simpl; [| lia].
    destruct (up_beefy_tvl up) as [r3 | e3]; simpl; [| lia].
    destruct (status r3 =? 200)%Z; simpl; [| lia].
    destruct (json r3) as [tvl_data | e3]; simpl; [| lia].
    rewrite length_take. lia. }
  rewrite scan_yield_opportunities_eq.
  split; [| split; [exact Hllama | split; [exact Hbeefy |]]].
  - rewrite sorted_reverse_perm, deduplicate_dedup_from. apply dedup_from_NoDup.
  - rewrite sorted_reverse_perm, deduplicate_dedup_from.
    etrans; [apply sublist_length, dedup_from_sublist |].
    rewrite !length_app. lia.
Qed.

(** ** Staking and trends *)

(** X5.  [scan_staking_opportunities] answers the chain filter that the
    yield scan misses for Yearn: every record is on a chain that was asked
    for (or on a default one), the Ethereum entry is there exactly when
    Ethereum is among them, and so for Polygon; no other chain, Avalanche
    of the defaults included, brings a record. *)
Theorem staking_respects_chains (up : upstream) (chains : option (list string))
    (opp : YieldOpportunity) :
  opp ∈ scan_staking_opportunities up chains <->
  (opp = eth_staking up /\ str_in "ethereum" (staking_chains chains) = true)
  \/ (opp = matic_staking up /\ str_in "polygon" (staking_chains chains) = true).
Proof.
  unfold scan_staking_opportunities, try_except, staking_chains. cbv zeta.
  destruct (str_in "ethereum" _), (str_in "polygon" _); simpl;
    rewrite ?elem_of_cons, elem_of_nil; intuition discriminate.
Qed.

Lemma staking_chain_requested (up : upstream) (chains : option (list string))
    (opp : YieldOpportunity) :
  opp ∈ scan_staking_opportunities up chains ->
  str_in (chain opp) (staking_chains chains) = true.
Proof.
  intros [[-> H] | [-> H]]%staking_respects_chains; exact H.
Qed.

Lemma slice_from_last {A : Type} (n : nat) (l : list A) :
  (0 < n <= length l)%nat ->
  slice_from (- Z.of_nat n) l = drop (length l - n) l.
Proof.
  intros Hn. unfold slice_from.
  rewrite (proj2 (Z.ltb_lt _ _)) by lia.
  f_equal. lia.
Qed.

(** X6.  [get_yield_trends] on a chart that is answered and whose
    timestamps all parse: asked for [days] between 1 and the number of
    points, it answers the last [days] points; asked for more days than
    there are points, all of them; asked for 0 days it answers all the
    points too, not none, since the slice from [-0] is the whole
    list. *)
Theorem yield_trends_window (fromisoformat : string -> result Z)
    (chart : string -> result (response chart_body)) (pool_id : string)
    (entries : list chart_entry) (trends : list trend) (days : Z) :
  chart pool_id = answered {| cb_data := Some entries |} ->
  chart_points fromisoformat entries = Ok trends ->
  (0 < days <= Z.of_nat (length trends) ->
   get_yield_trends fromisoformat chart pool_id days
   = drop (length trends - Z.to_nat days) trends
   /\ length (get_yield_trends fromisoformat chart pool_id days) = Z.to_nat days)
  /\ (Z.of_nat (length trends) <= days ->
      get_yield_trends fromisoformat chart pool_id days = trends)
  /\ (days = 0 -> get_yield_trends fromisoformat chart pool_id days = trends).
Proof.
  intros Hchart Hpoints.
  assert (Heq : get_yield_trends fromisoformat chart pool_id days =
                if (days <? Z.of_nat (length trends))%Z
                then slice_from (- days) trends else trends).
  { unfold get_yield_trends, chart_points in *. rewrite Hchart. simpl.
    unfold dict_get at 1. simpl. fold (@dict_get string). 
    change (mapM _ entries) with
      (mapM (fun entry : chart_entry =>
               timestamp ← fromisoformat (dict_get (ce_timestamp entry) "");
               Ok {| tr_timestamp := timestamp;
                     tr_apy := dict_get (ce_apy entry) 0%Q;
                     tr_tvl := dict_get (ce_tvlUsd entry) 0%Q |}) entries).
    by rewrite Hpoints. }
  rewrite Heq. split; [| split].
  - intros Hdays.
    assert (Hval : (if (days <? Z.of_nat (length trends))%Z
                    then slice_from (- days) trends else trends)
                   = drop (length trends - Z.to_nat days) trends).
    { destruct (Z.ltb_spec days (Z.of_nat (length trends))) as [Hlt | Hge].
      - rewrite <- (Z2Nat.id days) at 1 by lia. apply slice_from_last. lia.
      - assert (Z.to_nat days = length trends) as -> by lia.
        rewrite Nat.sub_diag. by rewrite drop_0. }
    rewrite Hval. split; [done |]. rewrite length_drop. lia.
  - intros Hdays. by rewrite (proj2 (Z.ltb_ge _ _)).
  - intros ->. destruct trends as [| t r]; [done |].
    unfold slice_from. simpl. by rewrite ?drop_0.
Qed.

Lemma yield_trends_window_witness :
  get_yield_trends digit_instant five_days "pool" 2 = drop 3 five_points
  /\ get_yield_trends digit_instant five_days "pool" 0 = five_points.
Proof.
  destruct (yield_trends_window digit_instant five_days "pool"
              (map (fun day => {| ce_timestamp := Some day; ce_apy := Some 5%Q;
                                  ce_tvlUsd := None |}) ["1"; "2"; "3"; "4"; "5"])
              five_points 2 eq_refl eq_refl) as (Hlast & _ & _).
  destruct (yield_trends_window digit_instant five_days "pool"
              (map (fun day => {| ce_timestamp := Some day; ce_apy := Some 5%Q;
                                  ce_tvlUsd := None |}) ["1"; "2"; "3"; "4"; "5"])
              five_points 0 eq_refl eq_refl) as (_ & _ & Hzero).
  split.
  - apply Hlast. simpl. lia.
  - by apply Hzero.
Defined.

(** ** The cache, one caller *)

Section CacheOps.
Context (json_text : json_doc -> string) (self : Cache.CacheManager).
Context (client : Cache.redis_client).
Hypothesis Hclient : Cache.redis self = Some client.

Lemma live_stored_other key key' value ttl srv t :
  key <> key' ->
  live (elapse t (stored key value ttl srv)) key' = live (elapse t srv) key'.
Proof.
  intros Hne. unfold live, elapse, stored. simpl. by rewrite lookup_insert_ne.
Qed.

Lemma get_healthy key default srv :
  rs_fault srv = None ->
  Cache.get json_text self key default srv =
  (match live srv key with
   | Some (BJson doc) => Ok (json_loads_doc doc)
   | _ => Ok default
   end, srv).
Proof.
  intros Hfault. rewrite get_eq, Hclient.
  unfold redis_get, with_fault. rewrite Hfault.
  by destruct (live srv key) as [[doc | v] |].
Qed.

Lemma delete_healthy key srv :
  rs_fault srv = None ->
  Cache.delete self key srv =
  (Ok (bool_decide (is_Some (live srv key))),
   {| rs_data := base.delete key (rs_data srv);
      rs_now := rs_now srv; rs_fault := rs_fault srv |}).
Proof.
  intros Hfault. rewrite delete_eq, Hclient.
  unfold redis_delete, with_fault, count_live. rewrite Hfault.
  by destruct (live srv key).
Qed.

End CacheOps.

(** X7.  A [set] that answers [True] replaces whatever the key held:
    from then on the key holds the new bytes for exactly the new time to
    live, and no other key is touched. *)
Theorem set_replaces_value_and_ttl (self : Cache.CacheManager) (key : string)
    (value : pyval) (ttl : option Z) (data_type : string) (srv srv' : redis_server) :
  Cache.set self key value ttl data_type srv = (Ok true, srv') ->
  forall t, 0 <= t ->
    live (elapse t srv') key
    = (if (t <? effective_ttl self ttl data_type)%Z then Some (serialize value) else None)
    /\ forall key', key' <> key -> live (elapse t srv') key' = live (elapse t srv) key'.
Proof.
  intros (_ & _ & _ & ->)%set_true t Ht. split.
  - apply live_stored.
  - intros key' Hne. by apply live_stored_other.
Qed.

Lemma set_replaces_value_and_ttl_witness :
  live (elapse 59 two_keys) "price:ETH" = Some (serialize price_eth)
  /\ live (elapse 60 two_keys) "price:ETH" = None
  /\ live (elapse 60 two_keys) "market_data:latest" = Some (serialize winner_1).
Proof.
  assert (Hset : Cache.set connected "price:ETH" price_eth None "price_data"
                   (stored "market_data:latest" (serialize winner_1) 180 empty_server)
                 = (Ok true, two_keys)) by (vm_compute; reflexivity).
  pose proof (set_replaces_value_and_ttl connected "price:ETH" price_eth None
                "price_data" _ _ Hset) as H.
  split; [| split].
  - rewrite (proj1 (H 59 ltac:(lia))). reflexivity.
  - rewrite (proj1 (H 60 ltac:(lia))). reflexivity.
  - rewrite (proj2 (H 60 ltac:(lia)) "market_data:latest") by discriminate.
    vm_compute. reflexivity.
Defined.

(** X8.  [set] with a time to live that is not positive, [ttl=0]
    included, writes nothing and answers [False]: the store refuses the
    SETEX and the handler hides the refusal. *)
Theorem set_refuses_non_positive_ttl (self : Cache.CacheManager) (key : string)
    (value : pyval) (ttl : option Z) (data_type : string) (srv : redis_server) :
  effective_ttl self ttl data_type <= 0 ->
  Cache.set self key value ttl data_type srv = (Ok false, srv).
Proof.
  intros Httl. rewrite set_eq. destruct (Cache.redis self); [| done].
  unfold redis_setex, with_fault. destruct (rs_fault srv); [done |].
  by rewrite (proj2 (Z.leb_le _ _) Httl).
Qed.

Lemma set_refuses_non_positive_ttl_witness :
  Cache.set connected "price:ETH" price_eth (Some 0) "price_data" empty_server
  = (Ok false, empty_server).
Proof.
  apply set_refuses_non_positive_ttl. simpl. lia.
Defined.

(** X9.  On a healthy store [delete] answers whether the key was there
    (an expired key counts as absent), leaves the key absent and the
    other keys as they were; a [get] of the key then answers the
    default. *)
Theorem delete_removes_key (json_text : json_doc -> string)
    (self : Cache.CacheManager) (client : Cache.redis_client) (key : string)
    (default : pyval) (srv : redis_server) :
  Cache.redis self = Some client ->
  rs_fault srv = None ->
  exists srv',
    Cache.delete self key srv = (Ok (bool_decide (is_Some (live srv key))), srv')
    /\ live srv' key = None
    /\ (forall key', key' <> key -> live srv' key' = live srv key')
    /\ fst (Cache.get json_text self key default srv') = Ok default.
Proof.
  intros Hclient Hfault. eexists.
  split; [by apply (delete_healthy self client) |].
  assert (Hgone : live {| rs_data := base.delete key (rs_data srv);
                          rs_now := rs_now srv; rs_fault := rs_fault srv |} key = None).
  { unfold live. simpl. by rewrite lookup_delete_eq. }
  split; [exact Hgone |]. split.
  - intros key' Hne. unfold live. simpl. by rewrite lookup_delete_ne.
  - rewrite (get_healthy json_text self client Hclient) by done. by rewrite Hgone.
Qed.

Lemma delete_removes_key_witness :
  fst (Cache.delete connected "price:ETH" two_keys) = Ok true
  /\ fst (Cache.delete connected "price:BTC" two_keys) = Ok false.
Proof.
  destruct (delete_removes_key unread_text connected
              (Cache.RedisClient "redis://localhost:6379") "price:ETH" PNone two_keys
              eq_refl eq_refl) as (s1 & H1 & _).
  destruct (delete_removes_key unread_text connected
              (Cache.RedisClient "redis://localhost:6379") "price:BTC" PNone two_keys
              eq_refl eq_refl) as (s2 & H2 & _).
  rewrite H1, H2. split; vm_compute; reflexivity.
Defined.

Section CacheTimes.
Context (self : Cache.CacheManager) (client : Cache.redis_client).
Hypothesis Hclient : Cache.redis self = Some client.

Lemma get_ttl_healthy key srv :
  rs_fault srv = None ->
  Cache.get_ttl self key srv =
  (Ok match rs_data srv !! key with
      | Some (_, expiry) =>
          if (rs_now srv <? expiry)%Z then Some (expiry - rs_now srv) else None
      | None => None
      end, srv).
Proof.
  intros Hfault. unfold Cache.get_ttl, try_except_M. rewrite Hclient.
  unfold mbind, M_bind, mret, M_ret, redis_ttl, with_fault. rewrite Hfault.
  destruct (rs_data srv !! key) as [[v expiry] |]; [| done].
  destruct (Z.ltb_spec (rs_now srv) expiry) as [Hlt | Hge]; [| done].
  by rewrite (proj2 (Z.ltb_lt 0 (expiry - rs_now srv))) by lia.
Qed.

Lemma expire_healthy key ttl srv :
  rs_fault srv = None ->
  Cache.expire self key ttl srv =
  match live srv key with
  | None => (Ok false, srv)
  | Some value =>
      (Ok true,
       {| rs_data := if (ttl <=? 0)%Z then base.delete key (rs_data srv)
                     else <[ key := (value, rs_now srv + ttl) ]> (rs_data srv);
          rs_now := rs_now srv; rs_fault := rs_fault srv |})
  end.
Proof.
  intros Hfault. unfold Cache.expire, try_except_M. rewrite Hclient.
  unfold mbind, M_bind, mret, M_ret, redis_expire, with_fault. rewrite Hfault.
  by destruct (live srv key).
Qed.

End CacheTimes.

(** X10.  After a [set] that answered [True], and as long as the store is
    left alone, [exists] answers [True] and [get_ttl] the seconds that
    remain until the time to live has elapsed; from then on [exists]
    answers [False] and [get_ttl] answers [None]. *)
Theorem exists_and_ttl_after_set (self : Cache.CacheManager) (key : string)
    (value : pyval) (ttl : option Z) (data_type : string) (srv srv' : redis_server)
    (t : Z) :
  Cache.set self key value ttl data_type srv = (Ok true, srv') ->
  0 <= t ->
  fst (Cache.exists_ self key (elapse t srv'))
    = Ok (t <? effective_ttl self ttl data_type)%Z
  /\ fst (Cache.get_ttl self key (elapse t srv'))
     = Ok (if (t <? effective_ttl self ttl data_type)%Z
           then Some (effective_ttl self ttl data_type - t) else None).
Proof.
  intros (Hredis & Hfault & Httl & ->)%set_true Ht.
  destruct Hredis as [client Hclient]. split.
  - rewrite (exists_healthy self client key Hclient) by done.
    rewrite live_stored. simpl.
    destruct (t <? _)%Z.
    + by rewrite bool_decide_eq_true_2 by eauto.
    + by rewrite bool_decide_eq_false_2 by (by intros [? ?]).
  - rewrite (get_ttl_healthy self client Hclient) by done.
    cbn [fst elapse stored rs_data rs_now]. rewrite lookup_insert_eq.
    destruct (Z.ltb_spec t (effective_ttl self ttl data_type)) as [Hlt | Hge].
    + rewrite (proj2 (Z.ltb_lt _ _)) by lia. do 2 f_equal. lia.
    + by rewrite (proj2 (Z.ltb_ge _ _)) by lia.
Qed.

Lemma exists_and_ttl_after_set_witness :
  fst (Cache.exists_ connected "price:ETH" (elapse 45 two_keys)) = Ok true
  /\ fst (Cache.get_ttl connected "price:ETH" (elapse 45 two_keys)) = Ok (Some 15).
Proof.
  assert (Hset : Cache.set connected "price:ETH" price_eth None "price_data"
                   (stored "market_data:latest" (serialize winner_1) 180 empty_server)
                 = (Ok true, two_keys)) by (vm_compute; reflexivity).
  apply (exists_and_ttl_after_set connected "price:ETH" price_eth None "price_data"
           _ _ 45 Hset).
  lia.
Defined.

(** X11.  On a healthy store [expire] answers whether the key is there.
    For a key that is there and a positive time, the key then lives
    exactly that long from the call on, with its bytes unchanged; a time
    that is not positive removes the key, and [expire] still answers
    [True].  For a key that is not there it answers [False] and the store
    stays as it was. *)
Theorem expire_resets_ttl (self : Cache.CacheManager) (client : Cache.redis_client)
    (key : string) (ttl : Z) (srv : redis_server) :
  Cache.redis self = Some client ->
  rs_fault srv = None ->
  (live srv key = None -> Cache.expire self key ttl srv = (Ok false, srv))
  /\ (forall value, live srv key = Some value ->
      exists srv',
        Cache.expire self key ttl srv = (Ok true, srv')
        /\ (forall t, 0 <= t ->
              live (elapse t srv') key
              = if (0 <? ttl)%Z && (t <? ttl)%Z then Some value else None)
        /\ (forall key', key' <> key -> live srv' key' = live srv key')).
Proof.
  intros Hclient Hfault. rewrite (expire_healthy self client Hclient) by done.
  split; [by intros -> |].
  intros value Hlive. rewrite Hlive. eexists. split; [done |]. split.
  - intros t Ht. unfold live, elapse. simpl.
    destruct (Z.leb_spec ttl 0) as [Hle | Hgt].
    + rewrite lookup_delete_eq. by rewrite (proj2 (Z.ltb_ge 0 ttl)) by lia.
    + rewrite lookup_insert_eq, (proj2 (Z.ltb_lt 0 ttl)) by lia. simpl.
      destruct (Z.ltb_spec t ttl).
      * by rewrite (proj2 (Z.ltb_lt _ _)) by lia.
      * by rewrite (proj2 (Z.ltb_ge _ _)) by lia.
  - intros key' Hne. unfold live. simpl.
    destruct (ttl <=? 0)%Z; [by rewrite lookup_delete_ne | by rewrite lookup_insert_ne].
Qed.

Lemma expire_resets_ttl_witness :
  fst (Cache.expire connected "price:BTC" 600 two_keys) = Ok false
  /\ fst (Cache.expire connected "price:ETH" 600 two_keys) = Ok true
  /\ fst (Cache.expire connected "price:ETH" 0 two_keys) = Ok true.
Proof.
  pose proof (expire_resets_ttl connected (Cache.RedisClient "redis://localhost:6379")
                "price:BTC" 600 two_keys eq_refl eq_refl) as [Hmiss _].
  pose proof (expire_resets_ttl connected (Cache.RedisClient "redis://localhost:6379")
                "price:ETH" 600 two_keys eq_refl eq_refl) as [_ Hhit].
  pose proof (expire_resets_ttl connected (Cache.RedisClient "redis://localhost:6379")
                "price:ETH" 0 two_keys eq_refl eq_refl) as [_ Hzero].
  destruct (Hhit (serialize price_eth) eq_refl) as (s1 & -> & _).
  destruct (Hzero (serialize price_eth) eq_refl) as (s2 & -> & _).
  rewrite (Hmiss eq_refl). by repeat split.
Defined.

Lemma set_if_not_exists_sequential_witness :
  let '(wrote1, srv1) :=
    Cache.set_if_not_exists connected "yield_opportunities:all" winner_1 None
      "yield_data" empty_server in
  let '(wrote2, srv2) :=
    Cache.set_if_not_exists connected "yield_opportunities:all" winner_2 None
      "yield_data" srv1 in
  wrote1 = true /\ wrote2 = false
  /\ live srv2 "yield_opportunities:all" = Some (serialize winner_1).
Proof.
  apply (set_if_not_exists_sequential connected
           (Cache.RedisClient "redis://localhost:6379") "yield_opportunities:all" None
           "yield_data" eq_refl winner_1 winner_2 empty_server); reflexivity.
Defined.

Lemma pickled_value_not_read_back_witness :
  fst (Cache.get unread_text connected "symbol" (PStr "miss")
         (elapse 1 (stored "symbol" (serialize (PStr "ETH")) 300 empty_server)))
  = Ok (PStr "miss").
Proof.
  apply (pickled_value_not_read_back unread_text connected "symbol" (PStr "ETH")
           None "yield_data" (PStr "miss") empty_server); [reflexivity |].
  vm_compute. reflexivity.
Defined.

(** ** The typed helpers *)

Lemma get_after_stored (json_text : json_doc -> string) (self : Cache.CacheManager)
    key value ttl data_type default srv srv' t :
  Cache.is_dict_or_list value = true -> json_value value = true ->
  Cache.set self key value ttl data_type srv = (Ok true, srv') ->
  0 <= t < effective_ttl self ttl data_type ->
  fst (Cache.get json_text self key default (elapse t srv')) = Ok value.
Proof.
  intros Hcontainer Hjson (Hredis & Hfault & Httl & ->)%set_true Ht.
  destruct Hredis as [client Hclient].
  rewrite (get_healthy json_text self client Hclient) by done.
  rewrite live_stored, (proj2 (Z.ltb_lt _ _)) by lia.
  unfold serialize. rewrite Hcontainer. simpl. by rewrite json_round_trip.
Qed.

(** X12.  Prices are cached under what [str.upper()] makes of the
    symbol: what [cache_price_data] stored for a symbol,
    [get_cached_price_data] returns for every symbol that [str.upper()]
    sends to the same text, as long as the time to live is running.
    [str.upper()] is a parameter: the statement holds of whatever it
    does to a text. *)
Theorem price_cache_ignores_case (json_text : json_doc -> string) {V : Type}
    (json_dumps : list (string * V) -> string) (str_upper : string -> string)
    (self : Cache.CacheManager)
    (symbol1 symbol2 : string) (price_data : pyval) (ttl : option Z)
    (srv srv' : redis_server) (t : Z) :
  str_upper symbol1 = str_upper symbol2 ->
  Cache.is_dict_or_list price_data = true ->
  json_value price_data = true ->
  Cache.cache_price_data json_dumps str_upper self symbol1 price_data ttl srv
    = (Ok true, srv') ->
  0 <= t < effective_ttl self ttl "price_data" ->
  fst (Cache.get_cached_price_data json_text json_dumps str_upper self symbol2
         (elapse t srv'))
  = Ok price_data.
Proof.
  intros Hcase Hcontainer Hjson Hset Ht.
  unfold Cache.get_cached_price_data, Cache.cache_price_data in *.
  rewrite <- Hcase. by eapply get_after_stored.
Qed.

Lemma price_cache_ignores_case_witness :
  fst (Cache.get_cached_price_data unread_text keys_text upper_of_ascii connected "Eth"
         (elapse 59 (stored "price:ETH" (serialize price_eth) 60 empty_server)))
  = Ok price_eth.
Proof.
  apply (price_cache_ignores_case unread_text keys_text upper_of_ascii connected
           "eth" "Eth" price_eth None empty_server); try reflexivity.
  vm_compute. split; [discriminate | reflexivity].
Defined.

(** X13.  The cached yield opportunities are found again under any
    ordering of the same filters: [get_cached_yield_opportunities] with a
    permutation of the filters that [cache_yield_opportunities] was given
    returns the list that was stored, as long as the time to live is
    running. *)
Theorem yield_cache_ignores_filter_order (json_text : json_doc -> string) {V : Type}
    (json_dumps : list (string * V) -> string) (self : Cache.CacheManager)
    (filters1 filters2 : list (string * V)) (opportunities : pyval) (ttl : option Z)
    (srv srv' : redis_server) (t : Z) :
  NoDup (fst <$> filters1) ->
  filters1 ≡ₚ filters2 ->
  Cache.is_dict_or_list opportunities = true ->
  json_value opportunities = true ->
  Cache.cache_yield_opportunities json_dumps self filters1 opportunities ttl srv
    = (Ok true, srv') ->
  0 <= t < effective_ttl self ttl "yield_data" ->
  fst (Cache.get_cached_yield_opportunities json_text json_dumps self filters2
         (elapse t srv'))
  = Ok opportunities.
Proof.
  intros Hnodup Hperm Hcontainer Hjson Hset Ht.
  unfold Cache.get_cached_yield_opportunities, Cache.cache_yield_opportunities in *.
  simpl in *. rewrite <- (sorted_items_canonical filters1 filters2) by done.
  by eapply get_after_stored.
Qed.

Lemma yield_cache_ignores_filter_order_witness :
  fst (Cache.get_cached_yield_opportunities unread_text keys_text connected
         [("min_tvl", 100000); ("min_apy", 1)]
         (elapse 299
            (snd (Cache.cache_yield_opportunities keys_text connected
                    [("min_apy", 1); ("min_tvl", 100000)] (PList [winner_1]) None
                    empty_server))))
  = Ok (PList [winner_1]).
Proof.
  apply (yield_cache_ignores_filter_order unread_text keys_text connected
           [("min_apy", 1); ("min_tvl", 100000)] [("min_tvl", 100000); ("min_apy", 1)]
           (PList [winner_1]) None empty_server).
  - simpl. constructor.
    + intros Hin. apply list_elem_of_singleton in Hin. discriminate Hin.
    + constructor; [apply not_elem_of_nil | constructor].
  - apply perm_swap.
  - reflexivity.
  - reflexivity.
  - vm_compute. reflexivity.
  - vm_compute. split; [discriminate | reflexivity].
Defined.

(** ** Invalidation *)

Lemma list_filter_all {A : Type} (f : A -> bool) (l : list A) :
  (forall x, x ∈ l -> f x = true) -> List.filter f l = l.
Proof.
  induction l as [| x r IH]; intros Hall; simpl; [done |].
  rewrite (Hall x) by left. f_equal. apply IH. intros y Hy. apply Hall. by right.
Qed.

Lemma list_filter_sublist {A : Type} (f : A -> bool) (l : list A) :
  List.filter f l `sublist_of` l.
Proof.
  induction l as [| x r IH]; simpl; [done |].
  destruct (f x); [by apply sublist_skip | by apply sublist_cons].
Qed.

Lemma elem_of_list_filter_bool {A : Type} (f : A -> bool) (l : list A) (x : A) :
  x ∈ List.filter f l <-> x ∈ l /\ f x = true.
Proof. rewrite !list_elem_of_In. apply filter_In. Qed.

Section Invalidate.
Context (self : Cache.CacheManager) (client : Cache.redis_client).
Context (glob_match : string -> string -> bool).
Hypothesis Hclient : Cache.redis self = Some client.

Lemma elem_of_matching pattern srv key :
  key ∈ matching_keys glob_match pattern srv <-> is_Some (live srv key) /\ glob_match pattern key = true.
Proof.
  unfold matching_keys. rewrite elem_of_list_filter_bool, andb_true_iff, bool_decide_eq_true.
  split; [tauto |]. intros [Hlive Hmatch]. split; [| done].
  apply list_elem_of_fmap. destruct Hlive as [value Hlive]. unfold live in Hlive.
  destruct (rs_data srv !! key) as [[v expiry] |] eqn:Hlookup; [| done].
  exists (key, (v, expiry)). split; [done |]. by apply elem_of_map_to_list.
Qed.

Lemma NoDup_matching pattern srv : NoDup (matching_keys glob_match pattern srv).
Proof.
  unfold matching_keys.
  eapply sublist_NoDup; [| apply list_filter_sublist]. apply NoDup_fst_map_to_list.
Qed.

Lemma invalidate_pattern_healthy pattern srv :
  rs_fault srv = None ->
  Cache.invalidate_pattern self glob_match pattern srv =
  (Ok (Z.of_nat (length (matching_keys glob_match pattern srv))),
   {| rs_data := foldr base.delete (rs_data srv) (matching_keys glob_match pattern srv);
      rs_now := rs_now srv; rs_fault := rs_fault srv |}).
Proof.
  intros Hfault. unfold Cache.invalidate_pattern, try_except_M. rewrite Hclient.
  unfold mbind, M_bind, mret, M_ret, redis_keys, redis_delete_keys, with_fault.
  rewrite Hfault. fold (matching_keys glob_match pattern srv).
  destruct (matching_keys glob_match pattern srv) as [| k ks] eqn:Hkeys.
  - destruct srv as [data now fault]. simpl in *. by subst.
  - rewrite ?Hfault. rewrite list_filter_all; [done |].
    intros key Hin. rewrite <- Hkeys in Hin.
    apply elem_of_matching in Hin as [Hlive _]. by apply bool_decide_eq_true.
Qed.

End Invalidate.

(** X14.  On a healthy store [invalidate_pattern] removes the live keys
    that the store's matcher accepts for the pattern, and only them, and
    answers how many they were. *)
Theorem invalidate_pattern_removes_matches (self : Cache.CacheManager)
    (client : Cache.redis_client) (glob_match : string -> string -> bool)
    (pattern : string) (srv : redis_server) :
  Cache.redis self = Some client ->
  rs_fault srv = None ->
  exists keys srv',
    Cache.invalidate_pattern self glob_match pattern srv
      = (Ok (Z.of_nat (length keys)), srv')
    /\ NoDup keys
    /\ (forall key, key ∈ keys <->
                    is_Some (live srv key) /\ glob_match pattern key = true)
    /\ (forall key, live srv' key
                    = if glob_match pattern key then None else live srv key).
Proof.
  intros Hclient Hfault. eexists _, _.
  split; [by apply (invalidate_pattern_healthy self client) |].
  split; [apply NoDup_matching |].
  split; [apply elem_of_matching |].
  intros key. unfold live at 1. simpl.
  destruct (glob_match pattern key) eqn:Hmatch.
  - destruct (live srv key) as [value |] eqn:Hlive.
    + rewrite lookup_foldr_delete; [done |].
      apply elem_of_matching. eauto.
    + rewrite lookup_foldr_delete_not_elem_of; [exact Hlive |].
      intros [[? Habs] _]%elem_of_matching. by rewrite Hlive in Habs.
  - rewrite lookup_foldr_delete_not_elem_of; [done |].
    intros [_ Habs]%elem_of_matching. by rewrite Hmatch in Habs.
Qed.

Lemma invalidate_pattern_removes_matches_witness :
  live (snd (Cache.invalidate_pattern connected prefix_glob "price:*" two_keys))
    "price:ETH" = None
  /\ live (snd (Cache.invalidate_pattern connected prefix_glob "price:*" two_keys))
       "market_data:latest" = Some (serialize winner_1).
Proof.
  destruct (invalidate_pattern_removes_matches connected
              (Cache.RedisClient "redis://localhost:6379") prefix_glob "price:*"
              two_keys eq_refl eq_refl) as (keys & srv' & Heq & _ & _ & Hlive).
  rewrite Heq. cbn [snd]. rewrite !Hlive. split; reflexivity.
Defined.

Lemma flush_cache_eq (self : Cache.CacheManager) glob_match pattern srv :
  Cache.flush_cache self glob_match pattern srv =
  match Cache.redis self with
  | None => (Ok false, srv)
  | Some _ =>
      match pattern with
      | Some (String c r) =>
          (Ok true, snd (Cache.invalidate_pattern self glob_match (String c r) srv))
      | _ =>
          match redis_flushdb srv with
          | (Ok _, srv') => (Ok true, srv')
          | (Raise _, srv') => (Ok false, srv')
          end
      end
  end.
Proof.
  unfold Cache.flush_cache, try_except_M.
  destruct (Cache.redis self) as [c |] eqn:Hclient; [| done].
  unfold mbind, M_bind, mret, M_ret.
  destruct pattern as [[| ch r] |].
  - by destruct (redis_flushdb srv) as [[b | e] srv'].
  - unfold Cache.invalidate_pattern, try_except_M. rewrite Hclient.
    unfold mbind, M_bind, mret, M_ret.
    destruct (redis_keys glob_match (String ch r) srv) as [[[| k ks] | e] srv1]; try done.
    by destruct (redis_delete_keys (k :: ks) srv1) as [[n | e] srv2].
  - by destruct (redis_flushdb srv) as [[b | e] srv'].
Qed.

(** X15.  [flush_cache] without a pattern, or with the empty string for
    a pattern, empties the whole store and answers [True]; when the store
    is failing it answers [False].  With a pattern it answers [True]
    whatever happened, since [invalidate_pattern] keeps its failures to
    itself: on a failing store nothing is removed and the answer is still
    [True]. *)
Theorem flush_cache_answers (self : Cache.CacheManager) (client : Cache.redis_client)
    (glob_match : string -> string -> bool) (pattern : option string)
    (srv : redis_server) :
  Cache.redis self = Some client ->
  (rs_fault srv = None -> (pattern = None \/ pattern = Some "") ->
   exists srv', Cache.flush_cache self glob_match pattern srv = (Ok true, srv')
                /\ forall key, live srv' key = None)
  /\ (is_Some (rs_fault srv) -> (pattern = None \/ pattern = Some "") ->
      Cache.flush_cache self glob_match pattern srv = (Ok false, srv))
  /\ (is_Some (rs_fault srv) -> pattern <> None -> pattern <> Some "" ->
      Cache.flush_cache self glob_match pattern srv = (Ok true, srv)).
Proof.
  intros Hclient. rewrite flush_cache_eq, Hclient. split; [| split].
  - intros Hfault Hpattern. unfold redis_flushdb, with_fault. rewrite Hfault.
    eexists. split; [by destruct Hpattern as [-> | ->] |].
    intros key. unfold live. simpl. by rewrite lookup_empty.
  - intros [e Hfault] Hpattern. unfold redis_flushdb, with_fault. rewrite Hfault.
    by destruct Hpattern as [-> | ->].
  - intros [e Hfault] Hnone Hempty.
    destruct pattern as [[| c r] |]; try done.
    unfold Cache.invalidate_pattern, try_except_M. rewrite Hclient.
    unfold mbind, M_bind, redis_keys, with_fault. by rewrite Hfault.
Qed.

Lemma flush_cache_answers_witness :
  fst (Cache.flush_cache connected prefix_glob (Some "") two_keys) = Ok true
  /\ Cache.flush_cache connected prefix_glob None two_keys_down = (Ok false, two_keys_down)
  /\ Cache.flush_cache connected prefix_glob (Some "price:*") two_keys_down
     = (Ok true, two_keys_down).
Proof.
  pose proof (flush_cache_answers connected (Cache.RedisClient "redis://localhost:6379")
                prefix_glob (Some "") two_keys eq_refl) as (Hall & _ & _).
  pose proof (flush_cache_answers connected (Cache.RedisClient "redis://localhost:6379")
                prefix_glob None two_keys_down eq_refl) as (_ & Hdown & _).
  pose proof (flush_cache_answers connected (Cache.RedisClient "redis://localhost:6379")
                prefix_glob (Some "price:*") two_keys_down eq_refl) as (_ & _ & Hpat).
  destruct (Hall eq_refl (or_intror eq_refl)) as (srv' & -> & _).
  split; [done |]. split.
  - apply Hdown; [by eexists | by left].
  - apply Hpat; [by eexists | discriminate | discriminate].
Defined.

(** ** Yield rows *)

Section YieldRows.
Import Database.

Lemma conflicts_full_key row rec :
  conflicts row rec = true <->
  is_Some (yield_full_key row) /\ yield_full_key row = record_full_key rec.
Proof.
  unfold conflicts, yield_full_key, record_full_key.
  rewrite !andb_true_iff, !String.eqb_eq, Z.eqb_eq.
  destruct (yr_pool_name row) as [a |], (r_pool_name rec) as [b |];
    try rewrite String.eqb_eq.
  - split.
    + intros [[[-> ->] ->] ->]. eauto.
    + intros [_ [= -> -> -> ->]]. done.
  - split; [intros [[[_ ?] _] _]; done | intros [_ ?]; done].
  - split; [intros [[[_ ?] _] _]; done | intros [[? ?] _]; done].
  - split; [intros [[[_ ?] _] _]; done | intros [[? ?] _]; done].
Qed.

Lemma on_conflict_update_None_inv rec rows :
  on_conflict_update rec rows = None ->
  Forall (fun row => conflicts row rec = false) rows.
Proof.
  induction rows as [| row rest IH]; simpl; [constructor |].
  destruct (conflicts row rec) eqn:Hc; [done |].
  destruct (on_conflict_update rec rest); [done |].
  intros _. constructor; [done | by apply IH].
Qed.

Lemma on_conflict_update_Some_fixed rec rows rows' :
  on_conflict_update rec rows = Some rows' ->
  yield_fixed_columns <$> rows' = yield_fixed_columns <$> rows.
Proof.
  revert rows'. induction rows as [| row rest IH]; intros rows'; simpl; [done |].
  destruct (conflicts row rec).
  - by intros [= <-].
  - destruct (on_conflict_update rec rest) as [rest' |]; [| done].
    intros [= <-]. rewrite !fmap_cons. f_equal. by apply IH.
Qed.

Lemma fixed_columns_full_key (rows rows' : list yield_row) :
  yield_fixed_columns <$> rows' = yield_fixed_columns <$> rows ->
  omap yield_full_key rows' = omap yield_full_key rows.
Proof.
  revert rows'. induction rows as [| row rest IH]; intros [| row' rest']; try done.
  rewrite !fmap_cons. intros [= Hid Hp Hn Hc Ht _ _ _ _ _ _ Hrest].
  assert (Hkey : yield_full_key row' = yield_full_key row)
    by (unfold yield_full_key; by rewrite Hp, Hn, Hc, Ht).
  specialize (IH _ Hrest). simpl. rewrite Hkey.
  destruct (yield_full_key row); [f_equal |]; exact IH.
Qed.

Lemma insert_yield_unique db rec :
  NoDup (omap yield_full_key (yield_data db)) ->
  NoDup (omap yield_full_key (yield_data (insert_yield db rec))).
Proof.
  intros Hnodup. unfold insert_yield. simpl.
  destruct (on_conflict_update rec (yield_data db)) as [rows' |] eqn:Hupd.
  - by rewrite (fixed_columns_full_key _ _ (on_conflict_update_Some_fixed _ _ _ Hupd)).
  - apply on_conflict_update_None_inv in Hupd.
    rewrite omap_app. simpl.
    destruct (yield_full_key (inserted_row _ _ rec)) as [k |] eqn:Hk;
      [| by rewrite app_nil_r].
    apply NoDup_app. split; [done |]. split; [| apply NoDup_singleton].
    intros k' Hin ->%list_elem_of_singleton.
    apply list_elem_of_omap in Hin as (row & Hrow & Hrk).
    rewrite Forall_forall in Hupd. specialize (Hupd row Hrow).
    apply not_true_iff_false in Hupd. apply Hupd, conflicts_full_key.
    split; [by rewrite Hrk |].
    rewrite Hrk, <- Hk. unfold yield_full_key, record_full_key. simpl. done.
Qed.

Lemma insert_yield_fixed db rec :
  yield_fixed_columns <$> yield_data db
  `prefix_of` yield_fixed_columns <$> yield_data (insert_yield db rec).
Proof.
  unfold insert_yield. simpl.
  destruct (on_conflict_update rec (yield_data db)) as [rows' |] eqn:Hupd.
  - by rewrite (on_conflict_update_Some_fixed _ _ _ Hupd).
  - rewrite fmap_app. by apply prefix_app_r.
Qed.

Lemma insert_yield_length db rec :
  (length (yield_data (insert_yield db rec)) <= S (length (yield_data db)))%nat.
Proof.
  unfold insert_yield. simpl.
  destruct (on_conflict_update rec (yield_data db)) as [rows' |] eqn:Hupd.
  - apply on_conflict_update_Some_fixed in Hupd.
    apply (f_equal length) in Hupd. rewrite !length_fmap in Hupd. lia.
  - rewrite length_app. simpl. lia.
Qed.

Lemma foldl_insert_yield_unique records db :
  NoDup (omap yield_full_key (yield_data db)) ->
  NoDup (omap yield_full_key (yield_data (foldl insert_yield db records))).
Proof.
  revert db. induction records as [| rec rest IH]; intros db Hnodup; simpl; [done |].
  by apply IH, insert_yield_unique.
Qed.

Lemma foldl_insert_yield_fixed records db :
  yield_fixed_columns <$> yield_data db
  `prefix_of` yield_fixed_columns <$> yield_data (foldl insert_yield db records)
  /\ (length (yield_data (foldl insert_yield db records))
      <= length (yield_data db) + length records)%nat.
Proof.
  revert db. induction records as [| rec rest IH]; intros db; simpl.
  - split; [done | lia].
  - destruct (IH (insert_yield db rec)) as [Hprefix Hlen]. split.
    + etrans; [apply insert_yield_fixed | exact Hprefix].
    + pose proof (insert_yield_length db rec). lia.
Qed.

(** [executemany] applies the statement to the tuples as the columns
    keep them, if the columns take them all. *)
Lemma executemany_insert_yield records db :
  executemany execute_insert_yield db records
  = (values ← mapM yield_columns records; Ok (foldl insert_yield db values)).
Proof.
  revert db. induction records as [| rec rest IH]; intros db; simpl; [done |].
  assert (Hstep : execute_insert_yield db rec
                  = match yield_columns rec with
                    | Ok values => Ok (insert_yield db values)
                    | Raise e => Raise e
                    end)
    by (unfold execute_insert_yield, mbind, result_bind; by destruct (yield_columns rec)).
  rewrite Hstep. destruct (yield_columns rec) as [values | e]; [| done].
  cbn [mbind result_bind]. rewrite IH. unfold mbind, result_bind.
  by destruct (mapM yield_columns rest).
Qed.

Lemma mapM_length {A B : Type} (f : A -> result B) (l : list A) (k : list B) :
  mapM f l = Ok k -> length k = length l.
Proof.
  revert k. induction l as [| a r IH]; intros k; simpl; [by intros [= <-] |].
  unfold mbind, result_bind.
  destruct (f a) as [b | e]; [| done].
  destruct (mapM f r) as [bs | e]; [| done].
  intros [= <-]. simpl. by rewrite (IH bs).
Qed.

Lemma store_yield_data_cases (self : DatabaseManager) batch db :
  let '(r, db') := store_yield_data self batch db in
  db' = db
  \/ exists records values,
       mapM yield_tuple batch = Ok records
       /\ mapM yield_columns records = Ok values
       /\ r = Ok (Z.of_nat (length records))
       /\ db' = foldl insert_yield db values.
Proof.
  unfold store_yield_data. destruct batch as [| d rest]; [by left |].
  destruct (get_connection self db); [| by left].
  destruct (mapM yield_tuple (d :: rest)) as [records | e]; [| by left].
  rewrite executemany_insert_yield. unfold mbind, result_bind.
  destruct (mapM yield_columns records) as [values | e] eqn:Hvalues; [| by left].
  right. by exists records, values.
Qed.

End YieldRows.

(** X16.  [store_yield_data] keeps the unique index of [yield_data]: if
    no two rows of the table share a natural key without NULL, the same
    holds after the call, whatever the batch and whether or not the call
    raises. *)
Theorem store_yield_data_keeps_unique (self : Database.DatabaseManager)
    (batch : list Database.yield_dict) (db : Database.database) :
  NoDup (omap yield_full_key (Database.yield_data db)) ->
  NoDup (omap yield_full_key
           (Database.yield_data (snd (Database.store_yield_data self batch db)))).
Proof.
  intros Hnodup. pose proof (store_yield_data_cases self batch db) as Hcases.
  destruct (Database.store_yield_data self batch db) as [r db']. simpl.
  destruct Hcases as [-> | (records & values & _ & _ & _ & ->)]; [done |].
  by apply foldl_insert_yield_unique.
Qed.

Lemma store_yield_data_keeps_unique_witness :
  NoDup (omap yield_full_key
           (Database.yield_data
              (snd (Database.store_yield_data manager
                      [yield_observation (Some "USDC") 3; yield_observation (Some "USDC") 7;
                       yield_observation None 5]
                      empty_database)))).
Proof.
  apply store_yield_data_keeps_unique. simpl. constructor.
Defined.

Lemma yield_tuple_complete (data : Database.yield_dict) :
  if yield_complete data then exists rec, Database.yield_tuple data = Ok rec
  else Database.yield_tuple data = Raise KeyError.
Proof.
  unfold yield_complete, Database.yield_tuple.
  destruct (Database.yd_protocol data), (Database.yd_apy data),
    (Database.yd_chain data), (Database.yd_last_updated data); cbn; eauto.
Qed.

Lemma mapM_yield_tuple (batch : list Database.yield_dict) :
  if forallb yield_complete batch
  then exists records, mapM Database.yield_tuple batch = Ok records
                       /\ length records = length batch
  else mapM Database.yield_tuple batch = Raise KeyError.
Proof.
  induction batch as [| d rest IH]; simpl; [by exists [] |].
  pose proof (yield_tuple_complete d) as Hd.
  destruct (yield_complete d); simpl.
  - destruct Hd as [rec Hd].
    destruct (forallb yield_complete rest).
    + destruct IH as (records & IH & Hlen). exists (rec :: records).
      rewrite Hd. cbn [mbind result_bind]. rewrite IH. cbn. by rewrite Hlen.
    + rewrite Hd. cbn [mbind result_bind]. by rewrite IH.
  - by rewrite Hd.
Qed.

(** A column refuses a value with [DataError]. *)
Lemma decimal_error p s x e : Database.decimal p s x = Raise e -> e = DataError.
Proof. unfold Database.decimal. case_match; congruence. Qed.

Lemma integer_error z e : Database.integer z = Raise e -> e = DataError.
Proof. unfold Database.integer. case_match; congruence. Qed.

Lemma text_error s e : Database.text s = Raise e -> e = DataError.
Proof. unfold Database.text. case_match; congruence. Qed.

Lemma varchar_error n s e : Database.varchar n s = Raise e -> e = DataError.
Proof.
  unfold Database.varchar, Database.text, mbind, result_bind.
  destruct (Database.has_nul s); [congruence |].
  destruct (Database.split_chars n s) as [kept excess].
  destruct (Database.all_spaces excess); congruence.
Qed.

Lemma nullable_error {A : Type} (column : A -> result A) (value : option A) e :
  (forall a e', column a = Raise e' -> e' = DataError) ->
  Database.nullable column value = Raise e -> e = DataError.
Proof.
  intros Hcolumn. destruct value as [a |]; simpl; [| done].
  unfold mbind, result_bind. destruct (column a) eqn:Ha; [done |].
  intros [= <-]. by eapply Hcolumn.
Qed.

Lemma mapM_error {A B : Type} (f : A -> result B) (l : list A) e :
  (forall a e', f a = Raise e' -> e' = DataError) ->
  mapM f l = Raise e -> e = DataError.
Proof.
  intros Hf. induction l as [| a r IH]; simpl; [done |].
  unfold mbind, result_bind.
  destruct (f a) eqn:Ha; [| intros [= <-]; by eapply Hf].
  destruct (mapM f r); [done |]. intros [= <-]. by apply IH.
Qed.

Lemma yield_columns_error rec e : Database.yield_columns rec = Raise e -> e = DataError.
Proof.
  unfold Database.yield_columns, mbind, result_bind.
  repeat match goal with
         | |- match ?c with _ => _ end = _ -> _ =>
             destruct c eqn:?;
             [| intros [= <-];
                first [ eapply decimal_error; eassumption
                      | eapply integer_error; eassumption
                      | eapply varchar_error; eassumption
                      | eapply nullable_error; [apply varchar_error | eassumption]
                      | eapply mapM_error; [apply text_error | eassumption] ]]
         end.
  done.
Qed.

Lemma mapM_yield_columns (batch : list Database.yield_dict) :
  forallb yield_complete batch = true ->
  exists records,
    mapM Database.yield_tuple batch = Ok records
    /\ if forallb yield_storable batch
       then exists values, mapM Database.yield_columns records = Ok values
       else mapM Database.yield_columns records = Raise DataError.
Proof.
  induction batch as [| d rest IH]; simpl; [by exists []; eauto |].
  intros [Hd Hrest]%andb_true_iff.
  destruct (IH Hrest) as (records & Hrecords & Hvalues).
  pose proof (yield_tuple_complete d) as Htuple. rewrite Hd in Htuple.
  destruct Htuple as [rec Hrec]. exists (rec :: records).
  rewrite Hrec. cbn [mbind result_bind]. rewrite Hrecords. split; [done |].
  unfold yield_storable at 1. rewrite Hrec. cbn [mbind result_bind].
  simpl. destruct (Database.yield_columns rec) as [v | e] eqn:Hv; simpl.
  - destruct (forallb yield_storable rest).
    + destruct Hvalues as [values ->]. by eexists.
    + by rewrite Hvalues.
  - by rewrite (yield_columns_error _ _ Hv).
Qed.



(** ** Price rows *)

Section PriceRows.
Import Database.

Lemma price_conflicts_key row rec :
  price_conflicts row rec = true <-> price_key row = price_record_key rec.
Proof.
  unfold price_conflicts, price_key, price_record_key.
  rewrite !andb_true_iff, !String.eqb_eq, Z.eqb_eq.
  split; [by intros [[-> ->] ->] | by intros [= -> -> ->]].
Qed.

Lemma price_on_conflict_update_None rec rows :
  price_on_conflict_update rec rows = None ->
  price_record_key rec ∉ price_key <$> rows.
Proof.
  induction rows as [| row rest IH]; simpl; [intros _; apply not_elem_of_nil |].
  destruct (price_conflicts row rec) eqn:Hc; [done |].
  destruct (price_on_conflict_update rec rest); [done |].
  intros _. rewrite not_elem_of_cons. split; [| by apply IH].
  intros Heq. apply not_true_iff_false in Hc. by apply Hc, price_conflicts_key.
Qed.

Lemma price_on_conflict_update_Some rec rows rows' :
  price_on_conflict_update rec rows = Some rows' ->
  price_key <$> rows' = price_key <$> rows
  /\ (pr_id <$> rows' = pr_id <$> rows)
  /\ (pr_created_at <$> rows' = pr_created_at <$> rows).
Proof.
  revert rows'. induction rows as [| row rest IH]; intros rows'; simpl; [done |].
  destruct (price_conflicts row rec).
  - by intros [= <-].
  - destruct (price_on_conflict_update rec rest) as [rest' |]; [| done].
    intros [= <-]. destruct (IH _ eq_refl) as (Hk & Hi & Hc).
    rewrite !fmap_cons. by rewrite Hk, Hi, Hc.
Qed.

Lemma insert_price_unique w rec :
  NoDup (price_key <$> price_data w) ->
  NoDup (price_key <$> price_data (insert_price w rec)).
Proof.
  intros Hnodup. unfold insert_price. simpl.
  destruct (price_on_conflict_update rec (price_data w)) as [rows' |] eqn:Hupd.
  - by rewrite (proj1 (price_on_conflict_update_Some _ _ _ Hupd)).
  - apply price_on_conflict_update_None in Hupd.
    rewrite fmap_app. apply NoDup_app. split; [done |].
    split; [| apply NoDup_singleton].
    intros k Hin ->%list_elem_of_singleton. by apply Hupd.
Qed.

End PriceRows.

(** X18.  In [price_data] the natural key (symbol, timestamp, source)
    has no column that admits NULL, so here the upsert keeps the key
    unique without exception: if no two rows share a key before
    [store_price_data], none do after it, whatever the batch and whether
    or not the call raises. *)
Theorem store_price_data_keeps_unique (self : Database.DatabaseManager)
    (batch : list Database.price_dict) (w : Database.warehouse) :
  NoDup (price_key <$> Database.price_data w) ->
  NoDup (price_key <$> Database.price_data (snd (Database.store_price_data self batch w))).
Proof.
  intros Hnodup. unfold Database.store_price_data.
  destruct batch as [| d rest]; [done |].
  destruct (Database.get_connection self (Database.core w)); [| done].
  destruct (mapM Database.price_tuple (d :: rest)) as [records | e]; [| done].
  destruct (Database.executemany Database.execute_insert_price w records)
    as [w' | e] eqn:Hrun; [| done].
  cbn [snd]. clear d rest. revert w w' Hnodup Hrun.
  induction records as [| rec records IH]; intros w w' Hnodup; simpl.
  - by intros [= <-].
  - unfold Database.execute_insert_price. unfold mbind at 1 2. unfold result_bind.
    destruct (Database.price_columns rec) as [values | e]; [| done].
    apply IH. by apply insert_price_unique.
Qed.

Lemma store_price_data_keeps_unique_witness :
  NoDup (price_key <$>
           Database.price_data
             (snd (Database.store_price_data manager
                     [ price_tick (Some "ETH") 3000 (Some "coingecko");
                       price_tick (Some "ETH") 3001 (Some "coingecko");
                       price_tick (Some "ETH") 3002 None ]
                     empty_warehouse))).
Proof.
  apply store_price_data_keeps_unique. simpl. constructor.
Defined.

(** ** Market rows *)

Section MarketRows.
Import Database.

Lemma latest_market_from (best : market_row) (rows : list market_row) :
  Forall (fun row => mr_timestamp row <= mr_timestamp best) rows ->
  foldl (fun best row =>
           match best with
           | None => Some row
           | Some b => if (mr_timestamp b <? mr_timestamp row)%Z then Some row else Some b
           end) (Some best) rows = Some best.
Proof.
  induction 1 as [| row rest Hrow _ IH]; simpl; [done |].
  by rewrite (proj2 (Z.ltb_ge _ _) Hrow).
Qed.

Lemma latest_market_first_greatest before row after :
  Forall (fun r => mr_timestamp r < mr_timestamp row) before ->
  Forall (fun r => mr_timestamp r <= mr_timestamp row) after ->
  latest_market (before ++ row :: after) = Some row.
Proof.
  intros Hbefore Hafter. unfold latest_market.
  assert (Hgo : forall best,
             match best with
             | None => True
             | Some b => mr_timestamp b < mr_timestamp row
             end ->
             foldl (fun best row =>
                      match best with
                      | None => Some row
                      | Some b => if (mr_timestamp b <? mr_timestamp row)%Z
                                  then Some row else Some b
                      end) best (before ++ row :: after) = Some row).
  { induction Hbefore as [| r rest Hr _ IH]; intros best Hbest; simpl.
    - destruct best as [b |].
      + rewrite (proj2 (Z.ltb_lt _ _) Hbest). by apply latest_market_from.
      + by apply latest_market_from.
    - apply IH. destruct best as [b |]; [| done].
      by destruct (mr_timestamp b <? mr_timestamp r)%Z. }
  by apply Hgo.
Qed.

Lemma market_on_conflict_update_cases new rows :
  match market_on_conflict_update new rows with
  | None => Forall (fun r => mr_timestamp r <> mr_timestamp new) rows
  | Some rows' =>
      exists before row after,
        rows = before ++ row :: after
        /\ Forall (fun r => mr_timestamp r <> mr_timestamp new) before
        /\ mr_timestamp row = mr_timestamp new
        /\ rows' = before ++
                   market_values (mr_id row) (mr_created_at row)
                     (mr_total_market_cap new) (mr_total_volume_24h new)
                     (mr_btc_dominance new) (mr_eth_dominance new)
                     (mr_defi_market_cap new) (mr_fear_greed_index new)
                     (mr_timestamp row) :: after
  end.
Proof.
  induction rows as [| row rest IH]; simpl; [constructor |].
  destruct (Z.eqb_spec (mr_timestamp row) (mr_timestamp new)) as [Heq | Hne].
  - by exists [], row, rest.
  - destruct (market_on_conflict_update new rest) as [rest' |]; simpl.
    + destruct IH as (before & r & after & -> & Hbefore & Hr & ->).
      exists (row :: before), r, after. split; [done |].
      split; [by constructor | done].
    + by constructor.
Qed.

End MarketRows.

Lemma market_columns_Ok rec values :
  Database.market_columns rec = Ok values ->
  Database.decimal 20 2 (Database.m_total_market_cap rec)
    = Ok (Database.m_total_market_cap values)
  /\ Database.decimal 20 2 (Database.m_total_volume_24h rec)
     = Ok (Database.m_total_volume_24h values)
  /\ Database.decimal 5 2 (Database.m_btc_dominance rec)
     = Ok (Database.m_btc_dominance values)
  /\ Database.decimal 5 2 (Database.m_eth_dominance rec)
     = Ok (Database.m_eth_dominance values)
  /\ Database.decimal 20 2 (Database.m_defi_market_cap rec)
     = Ok (Database.m_defi_market_cap values)
  /\ Database.integer (Database.m_fear_greed_index rec)
     = Ok (Database.m_fear_greed_index values)
  /\ Database.m_timestamp values = Database.m_timestamp rec.
Proof.
  unfold Database.market_columns, mbind, result_bind.
  repeat match goal with
         | |- match ?c with _ => _ end = _ -> _ => destruct c; [| done]
         end.
  intros [= <-]. simpl. by split_and!.
Qed.



(** ** Retention *)

Lemma delete_older_spec {R : Type} (created_at : R -> Z) (cutoff : Z) (rows : list R) :
  let '(kept, n) := Database.delete_older created_at cutoff rows in
  (forall row, row ∈ kept <-> row ∈ rows /\ cutoff <= created_at row)
  /\ kept `sublist_of` rows
  /\ n = Z.of_nat (length rows) - Z.of_nat (length kept).
Proof.
  unfold Database.delete_older. split; [| split].
  - intros row. rewrite elem_of_list_filter_bool, negb_true_iff, Z.ltb_ge. done.
  - apply list_filter_sublist.
  - induction rows as [| row rest IH]; simpl; [done |].
    destruct (created_at row <? cutoff)%Z; simpl; lia.
Qed.

(** X20.  [cleanup_old_data] with a connection and dates in range keeps,
    in their order, the price, yield and prediction rows created at or
    after [now - days_to_keep] days and deletes the older ones; portfolio
    snapshots are kept for 180 days whatever [days_to_keep] is; market
    rows are never deleted; and the dict it answers counts the rows
    deleted from each of the four tables.  Without a pool, on a failing
    server or when [days_to_keep] takes the date out of range, it deletes
    nothing and answers the empty dict. *)
Theorem cleanup_retention (self : Database.DatabaseManager) (days_to_keep : Z)
    (w : Database.warehouse) :
  let now := Database.db_now (Database.core w) in
  let counts := fst (Database.cleanup_old_data self days_to_keep w) in
  let w' := snd (Database.cleanup_old_data self days_to_keep w) in
  (is_Some (Database.pool_ self) ->
   Database.db_fault (Database.core w) = None ->
   is_Some (Database.minus_days now days_to_keep) ->
   is_Some (Database.minus_days now 180) ->
   (forall row, row ∈ Database.price_data w' <->
                row ∈ Database.price_data w
                /\ now - days_to_keep * 86400 <= Database.pr_created_at row)
   /\ (forall row, row ∈ Database.yield_data (Database.core w') <->
                   row ∈ Database.yield_data (Database.core w)
                   /\ now - days_to_keep * 86400 <= Database.yr_created_at row)
   /\ (forall row, row ∈ Database.ai_predictions w' <->
                   row ∈ Database.ai_predictions w
                   /\ now - days_to_keep * 86400 <= Database.ar_created_at row)
   /\ (forall row, row ∈ Database.portfolio_snapshots (Database.core w') <->
                   row ∈ Database.portfolio_snapshots (Database.core w)
                   /\ now - 180 * 86400 <= Database.sr_created_at row)
   /\ Database.price_data w' `sublist_of` Database.price_data w
   /\ Database.yield_data (Database.core w') `sublist_of` Database.yield_data (Database.core w)
   /\ Database.ai_predictions w' `sublist_of` Database.ai_predictions w
   /\ Database.portfolio_snapshots (Database.core w')
      `sublist_of` Database.portfolio_snapshots (Database.core w)
   /\ Database.market_data w' = Database.market_data w
   /\ counts !! "price_data"
      = Some (Z.of_nat (length (Database.price_data w))
              - Z.of_nat (length (Database.price_data w')))
   /\ counts !! "yield_data"
      = Some (Z.of_nat (length (Database.yield_data (Database.core w)))
              - Z.of_nat (length (Database.yield_data (Database.core w'))))
   /\ counts !! "ai_predictions"
      = Some (Z.of_nat (length (Database.ai_predictions w))
              - Z.of_nat (length (Database.ai_predictions w')))
   /\ counts !! "portfolio_snapshots"
      = Some (Z.of_nat (length (Database.portfolio_snapshots (Database.core w)))
              - Z.of_nat (length (Database.portfolio_snapshots (Database.core w')))))
  /\ (Database.pool_ self = None \/ is_Some (Database.db_fault (Database.core w))
      \/ Database.minus_days now days_to_keep = None ->
      counts = ∅ /\ w' = w).
Proof.
  intros now counts w'. subst counts w'. unfold Database.cleanup_old_data.
  fold now. split.
  - intros [conn Hpool] Hfault [cutoff Hcut] [pcut Hpcut].
    unfold Database.get_connection. rewrite Hpool, Hfault, Hcut, Hpcut.
    assert (cutoff = now - days_to_keep * 86400) as ->.
    { unfold Database.minus_days in Hcut.
      destruct (_ && _) in Hcut; [by injection Hcut as <- | done]. }
    assert (pcut = now - 180 * 86400) as ->.
    { unfold Database.minus_days in Hpcut.
      destruct (_ && _) in Hpcut; [by injection Hpcut as <- | done]. }
    pose proof (delete_older_spec Database.pr_created_at (now - days_to_keep * 86400)
                  (Database.price_data w)) as Hp.
    pose proof (delete_older_spec Database.yr_created_at (now - days_to_keep * 86400)
                  (Database.yield_data (Database.core w))) as Hy.
    pose proof (delete_older_spec Database.ar_created_at (now - days_to_keep * 86400)
                  (Database.ai_predictions w)) as Ha.
    pose proof (delete_older_spec Database.sr_created_at (now - 180 * 86400)
                  (Database.portfolio_snapshots (Database.core w))) as Hs.
    destruct (Database.delete_older Database.pr_created_at _ _) as [prices n_prices].
    destruct (Database.delete_older Database.yr_created_at _ _) as [yields n_yields].
    destruct (Database.delete_older Database.ar_created_at _ _) as [predictions n_predictions].
    destruct (Database.delete_older Database.sr_created_at _ _) as [snapshots n_snapshots].
    destruct Hp as (Hp1 & Hp2 & ->), Hy as (Hy1 & Hy2 & ->),
             Ha as (Ha1 & Ha2 & ->), Hs as (Hs1 & Hs2 & ->).
    cbn [fst snd Database.core Database.price_data Database.yield_data
         Database.ai_predictions Database.portfolio_snapshots Database.market_data].
    split_and!; try done; by simplify_map_eq.
  - intros [Hpool | [[e Hfault] | Hcut]].
    + destruct (Database.minus_days now days_to_keep); [| done].
      unfold Database.get_connection. by rewrite Hpool.
    + destruct (Database.minus_days now days_to_keep); [| done].
      unfold Database.get_connection. rewrite Hfault. by destruct (Database.pool_ self).
    + by rewrite Hcut.
Qed.

Lemma cleanup_retention_witness :
  Database.sr_id <$>
    Database.portfolio_snapshots
      (Database.core (snd (Database.cleanup_old_data manager 365 old_snapshots)))
  = [2; 3]
  /\ fst (Database.cleanup_old_data manager 800000 old_snapshots) = ∅.
Proof.
  pose proof (cleanup_retention manager 365 old_snapshots) as [Hkeep _].
  pose proof (cleanup_retention manager 800000 old_snapshots) as [_ Hrange].
  split.
  - destruct Hkeep as (_ & _ & _ & Hsnap & _);
      [by eexists | reflexivity | by eexists | by eexists |].
    vm_compute. reflexivity.
  - apply Hrange. right. right. vm_compute. reflexivity.
Defined.

(** ** Snapshots *)

Lemma json_dumps_jsonb (value : pyval) :
  match Database.json_dumps value with
  | Ok doc => Database.jsonb_accepts doc = jsonb_value value
  | Raise e => jsonb_value value = false
  end.
Proof.
  induction value as [| b | z | x | s | items IH | items IH | entries IH | repr]
    using pyval_nested_ind; simpl; try done.
  - unfold mbind, result_bind.
    induction IH as [| v r Hv _ IHr]; simpl; [done |].
    destruct (Database.json_dumps v) as [d | e]; simpl.
    + match type of IHr with
      | match match ?x with _ => _ end with _ => _ end => destruct x
      end; simpl in *.
      * by rewrite Hv, IHr.
      * by rewrite IHr, andb_false_r.
    + by rewrite Hv.
  - unfold mbind, result_bind.
    induction IH as [| v r Hv _ IHr]; simpl; [done |].
    destruct (Database.json_dumps v) as [d | e]; simpl.
    + match type of IHr with
      | match match ?x with _ => _ end with _ => _ end => destruct x
      end; simpl in *.
      * by rewrite Hv, IHr.
      * by rewrite IHr, andb_false_r.
    + by rewrite Hv.
  - unfold mbind, result_bind.
    induction IH as [| [k v] r Hv _ IHr]; simpl; [done |].
    simpl in Hv.
    destruct (Database.json_dumps v) as [d | e]; simpl.
    + match type of IHr with
      | match match ?x with _ => _ end with _ => _ end => destruct x
      end; simpl in *.
      * by rewrite Hv, IHr.
      * by rewrite IHr, andb_false_r.
    + by rewrite Hv, andb_false_r.
Qed.

(** X21.  [store_portfolio_snapshot] answers [True] only if the snapshot
    has [total_value], [allocations] and [timestamp], the columns take
    the identifier (100 characters) and the total (twelve digits before
    the point), and the allocations and metrics hold only what
    [json.dumps] knows and [JSONB] takes: no object of another type
    (there is no [default=str] here, unlike in the cache, so a datetime
    inside makes the call fail), no NaN and no infinity.  It then has
    added one row, with the total rounded to eight decimal places.  When
    it answers [False] nothing was written. *)
Theorem store_portfolio_snapshot_succeeds_only_if (self : Database.DatabaseManager)
    (portfolio_id : string) (snapshot_data : Database.snapshot_dict)
    (db : Database.database) :
  (fst (Database.store_portfolio_snapshot self portfolio_id snapshot_data db) = true ->
   (exists total_value added,
      Database.sd_total_value snapshot_data = Some total_value
      /\ Database.portfolio_snapshots
           (snd (Database.store_portfolio_snapshot self portfolio_id snapshot_data db))
         = Database.portfolio_snapshots db ++ [added]
      /\ Database.decimal 20 8 total_value = Ok (Database.sr_total_value added)
      /\ Database.varchar 100 portfolio_id = Ok (Database.sr_portfolio_id added))
   /\ (exists allocations, Database.sd_allocations snapshot_data = Some allocations
                           /\ jsonb_value allocations = true)
   /\ jsonb_value (dict_get (Database.sd_performance_metrics snapshot_data) (PDict []))
      = true
   /\ jsonb_value (dict_get (Database.sd_risk_metrics snapshot_data) (PDict [])) = true
   /\ is_Some (Database.sd_timestamp snapshot_data)
   /\ is_Some (Database.pool_ self)
   /\ Database.db_fault db = None)
  /\ (fst (Database.store_portfolio_snapshot self portfolio_id snapshot_data db) = false ->
      snd (Database.store_portfolio_snapshot self portfolio_id snapshot_data db) = db).
Proof.
  unfold Database.store_portfolio_snapshot, Database.get_connection.
  destruct (Database.pool_ self) as [conn |]; cbn [mbind result_bind]; [| done].
  destruct (Database.db_fault db) as [e |]; cbn [mbind result_bind]; [done |].
  destruct (Database.sd_total_value snapshot_data) as [total |];
    cbn [Database.subscript mbind result_bind]; [| done].
  destruct (Database.sd_allocations snapshot_data) as [alloc |];
    cbn [Database.subscript mbind result_bind]; [| done].
  pose proof (json_dumps_jsonb alloc) as Ha.
  destruct (Database.json_dumps alloc) as [a | e]; cbn [mbind result_bind]; [| done].
  pose proof (json_dumps_jsonb
                (dict_get (Database.sd_performance_metrics snapshot_data) (PDict []))) as Hp.
  destruct (Database.json_dumps
              (dict_get (Database.sd_performance_metrics snapshot_data) (PDict [])))
    as [p | e]; cbn [mbind result_bind]; [| done].
  pose proof (json_dumps_jsonb
                (dict_get (Database.sd_risk_metrics snapshot_data) (PDict []))) as Hr.
  destruct (Database.json_dumps
              (dict_get (Database.sd_risk_metrics snapshot_data) (PDict [])))
    as [r | e]; cbn [mbind result_bind]; [| done].
  destruct (Database.sd_timestamp snapshot_data) as [t |];
    cbn [Database.subscript mbind result_bind]; [| done].
  destruct (Database.varchar 100 portfolio_id) as [id | e]; cbn [mbind result_bind];
    [| done].
  destruct (Database.decimal 20 8 total) as [total' | e] eqn:Htotal;
    cbn [mbind result_bind]; [| done].
  unfold Database.jsonb. rewrite Ha, Hp, Hr.
  destruct (jsonb_value alloc) eqn:Halloc; cbn [mbind result_bind]; [| done].
  destruct (jsonb_value (dict_get (Database.sd_performance_metrics snapshot_data) _));
    cbn [mbind result_bind]; [| done].
  destruct (jsonb_value (dict_get (Database.sd_risk_metrics snapshot_data) _));
    cbn [mbind result_bind]; [| done].
  split; [| done]. intros _. split_and!; try done; eauto.
  eexists _, _. split; [done |]. simpl. by rewrite Htotal.
Qed.

Lemma store_portfolio_snapshot_succeeds_only_if_witness :
  Database.store_portfolio_snapshot manager "portfolio-1"
    {| Database.sd_total_value := Some 1000%Q;
       Database.sd_allocations := Some snapshot_value;
       Database.sd_performance_metrics := None;
       Database.sd_risk_metrics := None;
       Database.sd_timestamp := Some 1699999000 |}
    empty_database
  = (false, empty_database).
Proof.
  pose proof (store_portfolio_snapshot_succeeds_only_if manager "portfolio-1"
                {| Database.sd_total_value := Some 1000%Q;
                   Database.sd_allocations := Some snapshot_value;
                   Database.sd_performance_metrics := None;
                   Database.sd_risk_metrics := None;
                   Database.sd_timestamp := Some 1699999000 |}
                empty_database) as [Honly Hsame].
  destruct (Database.store_portfolio_snapshot manager "portfolio-1" _ empty_database)
    as [[] db'] eqn:Hstore; simpl in *.
  - destruct (Honly eq_refl) as (_ & (x & [= <-] & Hx) & _). discriminate Hx.
  - by rewrite (Hsame eq_refl).
Defined.
